(** * Advantech AHC1EC0 embedded-controller driver (drivers/mfd/ahc1ec0.c)

    A shallow embedding of the handshake engine of the driver and of the
    command protocols layered on it, together with the properties of the
    natural-language specification that concern them.

    The driver talks to the controller through two I/O ports and serialises
    its transactions with one global mutex.  Both are modelled explicitly:
    the controller is an arbitrary deterministic state machine answering
    [inb] and [outb], and every port access, delay and gate operation is
    appended to a chronological trace.  An [int] result is a [Z], an output
    parameter is passed in and returned with the result, a request pointer
    is an [option].  The kernel log ([pr_err], [pr_warn]) is left out.

    Embedded: [wait_ibf], [wait_obf], [read_hw_ram], [write_hw_ram],
    [wait_smbus_protocol_finish], [adv_get_dynamic_tab], [read_ad_value],
    [read_gpio_status], [write_gpio_status], [read_gpio_dir],
    [write_gpio_dir], [smbus_read_word], [smbus_read_byte] and
    [smbus_write_byte]. *)

From Stdlib Require Import ZArith List Lia Bool.
From stdpp Require Import list.
Import ListNotations.

Local Open Scope Z_scope.

(** ** Constants *)

(** <linux/errno.h> *)
Definition ETIMEDOUT : Z := 110.
Definition EINVAL : Z := 22.

(** The two ports of the controller.  The comments of the driver give their
    numbers: the command port is 0x29A and the data port 0x299. *)
Inductive ec_port := EC_COMMAND_PORT | EC_STATUS_PORT.

(** Modelled from the spec: the opcode and cell-address macros of
    <linux/mfd/ahc1ec0.h>, which the driver includes.  The specification
    only says that they form a fixed lookup table, so the driver is
    embedded over an arbitrary table. *)
Record ec_header := {
  EC_MAX_TIMEOUT_COUNT : Z;
  EC_UDELAY_TIME : Z;
  EC_MAX_TBL_NUM : Z;
  EC_HW_RAM_READ : Z;
  EC_HW_RAM_WRITE : Z;
  EC_AD_INDEX_WRITE : Z;
  EC_AD_LSB_READ : Z;
  EC_AD_MSB_READ : Z;
  EC_GPIO_INDEX_WRITE : Z;
  EC_GPIO_STATUS_READ : Z;
  EC_GPIO_STATUS_WRITE : Z;
  EC_GPIO_DIR_READ : Z;
  EC_GPIO_DIR_WRITE : Z;
  EC_TBL_WRITE_ITEM : Z;
  EC_TBL_GET_PIN : Z;
  EC_TBL_GET_DEVID : Z;
  EC_SMBUS_CHANNEL : Z;
  EC_SMBUS_SLV_ADDR : Z;
  EC_SMBUS_CMD : Z;
  EC_SMBUS_PROTOCOL : Z;
  EC_SMBUS_STATUS : Z;
  EC_SMBUS_DATA : Z;
  EC_SMBUS_DAT_OFFSET : Z -> Z;
  SMBUS_BYTE_READ : Z;
  SMBUS_BYTE_WRITE : Z;
  SMBUS_WORD_READ : Z
}.

(** ** The environment: controller, gate and trace *)

(** What the driver can observe of the hardware: a state machine that
    answers a port read with a value and reacts to a port write. *)
Record controller := {
  ctl_state : Type;
  ctl_inb : ec_port -> ctl_state -> Z * ctl_state;
  ctl_outb : Z -> ec_port -> ctl_state -> ctl_state
}.

Inductive event :=
| EvIn (p : ec_port) (v : Z)
| EvOut (v : Z) (p : ec_port)
| EvDelay (us : Z)
| EvLock
| EvUnlock.

(** [unsigned char] conversion *)
Definition uchar (v : Z) : Z := v mod 256.

Section Machine.

Variable ec : controller.

(** [lock_held] is the state of the global [struct mutex lock];
    [stray_unlocks] counts the calls of [mutex_unlock] made while the mutex
    was not held. *)
Record world := mkWorld {
  ctl : ctl_state ec;
  lock_held : bool;
  stray_unlocks : nat;
  trace : list event
}.

(** A call either returns, never returns because it waits for a mutex that
    nobody will release, or dereferences a null pointer. *)
Inductive outcome (A : Type) :=
| Returns (a : A) (w : world)
| Blocked (w : world)
| Oops (w : world).

Definition M (A : Type) : Type := world -> outcome A.

Definition Ret {A} (a : A) : M A := fun w => Returns A a w.

Definition bind {A B} (m : M A) (k : A -> M B) : M B :=
  fun w =>
    match m w with
    | Returns _ a w' => k a w'
    | Blocked _ w' => Blocked B w'
    | Oops _ w' => Oops B w'
    end.

Definition log (e : event) (w : world) : world :=
  mkWorld (ctl w) (lock_held w) (stray_unlocks w) (trace w ++ [e]).

Definition inb (p : ec_port) : M Z :=
  fun w =>
    let v := uchar (fst (ctl_inb ec p (ctl w))) in
    Returns Z v
      (mkWorld (snd (ctl_inb ec p (ctl w))) (lock_held w) (stray_unlocks w)
         (trace w ++ [EvIn p v])).

Definition outb (v : Z) (p : ec_port) : M unit :=
  fun w =>
    Returns unit tt
      (mkWorld (ctl_outb ec (uchar v) p (ctl w)) (lock_held w) (stray_unlocks w)
         (trace w ++ [EvOut (uchar v) p])).

Definition udelay (us : Z) : M unit :=
  fun w => Returns unit tt (log (EvDelay us) w).

Definition mutex_lock : M unit :=
  fun w =>
    if lock_held w then Blocked unit w
    else Returns unit tt
           (mkWorld (ctl w) true (stray_unlocks w) (trace w ++ [EvLock])).

Definition mutex_unlock : M unit :=
  fun w =>
    if lock_held w
    then Returns unit tt
           (mkWorld (ctl w) false (stray_unlocks w) (trace w ++ [EvUnlock]))
    else Returns unit tt
           (mkWorld (ctl w) false (S (stray_unlocks w)) (trace w ++ [EvUnlock])).

(** Dereference of a possibly null pointer *)
Definition deref {A} (p : option A) : M A :=
  fun w => match p with Some a => Returns A a w | None => Oops A w end.

End Machine.

Arguments Returns {ec A} a w.
Arguments Blocked {ec A} w.
Arguments Oops {ec A} w.
Arguments Ret {ec A} a.
Arguments bind {ec A B} m k.
Arguments mkWorld {ec} ctl lock_held stray_unlocks trace.
Arguments ctl {ec} w.
Arguments lock_held {ec} w.
Arguments stray_unlocks {ec} w.
Arguments trace {ec} w.
Arguments inb {ec} p.
Arguments outb {ec} v p.
Arguments udelay {ec} us.
Arguments mutex_lock {ec}.
Arguments mutex_unlock {ec}.
Arguments deref {ec A} p.

Declare Scope ec_scope.
Delimit Scope ec_scope with ec.
Notation "x <- m ;; k" := (bind m (fun x => k))
  (at level 100, m at next level, k at level 200, right associativity) : ec_scope.
Notation "m ;; k" := (bind m (fun _ => k))
  (at level 100, k at level 200, right associativity) : ec_scope.
(** [ret = call; if (ret) goto label;] *)
Definition or_goto {ec A} (m : M ec Z) (label : Z -> M ec A) (k : M ec A) : M ec A :=
  bind m (fun ret => if ret =? 0 then k else label ret).
Notation "'RUN' m 'ELSE' label ;; k" := (or_goto m label k)
  (at level 100, m at next level, label at next level, k at level 200,
   right associativity) : ec_scope.
Local Open Scope ec_scope.

(** ** Data *)

(** [unsigned short] conversion *)
Definition ushort (v : Z) : Z := v mod 65536.

(** [u32] conversion, and the conversion of a [u32] to [int] *)
Definition u32 (v : Z) : Z := v mod 2 ^ 32.
Definition int_of_u32 (v : Z) : Z := if v <? 2 ^ 31 then v else v - 2 ^ 32.

(** One entry of the dynamic control table. *)
Record Dynamic_Tab := mkDynamic_Tab { DeviceID : Z; HWPinNumber : Z }.

Definition set_DeviceID (v : Z) (e : Dynamic_Tab) : Dynamic_Tab :=
  mkDynamic_Tab v (HWPinNumber e).
Definition set_HWPinNumber (v : Z) (e : Dynamic_Tab) : Dynamic_Tab :=
  mkDynamic_Tab (DeviceID e) v.

Module EC_SMBUS_WORD_DATA.
Record t := mk { Channel : Z; Address : Z; Register : Z; Value : Z }.
Definition set_Value (v : Z) (r : t) : t := mk (Channel r) (Address r) (Register r) v.
End EC_SMBUS_WORD_DATA.

Module EC_SMBUS_READ_BYTE.
Record t := mk { Channel : Z; Address : Z; Register : Z; Data : Z }.
Definition set_Data (v : Z) (r : t) : t := mk (Channel r) (Address r) (Register r) v.
End EC_SMBUS_READ_BYTE.

Module EC_SMBUS_WRITE_BYTE.
Record t := mk { Channel : Z; Address : Z; Register : Z; Data : Z }.
End EC_SMBUS_WRITE_BYTE.

(** ** The driver *)

Section Driver.

Variable hdr : ec_header.
Variable ec : controller.

(** *** Handshake primitives *)

(** The [for] loop of [wait_ibf], with [n] iterations left. *)
Fixpoint wait_ibf_loop (n : nat) : M ec Z :=
  match n with
  | O => Ret (- ETIMEDOUT)
  | S n' =>
      v <- inb EC_COMMAND_PORT ;;
      if Z.land v 0x02 =? 0 then Ret 0
      else udelay (EC_UDELAY_TIME hdr) ;; wait_ibf_loop n'
  end.

Definition wait_ibf : M ec Z := wait_ibf_loop (Z.to_nat (EC_MAX_TIMEOUT_COUNT hdr)).

(** Wait OBF (Output buffer full) set *)
Fixpoint wait_obf_loop (n : nat) : M ec Z :=
  match n with
  | O => Ret (- ETIMEDOUT)
  | S n' =>
      v <- inb EC_COMMAND_PORT ;;
      if negb (Z.land v 0x01 =? 0) then Ret 0
      else udelay (EC_UDELAY_TIME hdr) ;; wait_obf_loop n'
  end.

Definition wait_obf : M ec Z := wait_obf_loop (Z.to_nat (EC_MAX_TIMEOUT_COUNT hdr)).

(** *** HW RAM *)

(** Read data from EC HW ram.  The second argument is the content of
    [*data] at the call; the result carries the return value and the
    content of [*data] afterwards. *)
Definition read_hw_ram (addr data : Z) : M ec (Z * Z) :=
  let error ret := mutex_unlock ;; Ret (ret, data) in
  mutex_lock ;;
  RUN wait_ibf ELSE error ;;
  outb (EC_HW_RAM_READ hdr) EC_COMMAND_PORT ;;
  RUN wait_ibf ELSE error ;;
  outb addr EC_STATUS_PORT ;;
  RUN wait_obf ELSE error ;;
  data' <- inb EC_STATUS_PORT ;;
  mutex_unlock ;;
  Ret (0, data').

(** Write data to EC HW ram *)
Definition write_hw_ram (addr data : Z) : M ec Z :=
  let error ret := mutex_unlock ;; Ret ret in
  mutex_lock ;;
  RUN wait_ibf ELSE error ;;
  outb (EC_HW_RAM_WRITE hdr) EC_COMMAND_PORT ;;
  RUN wait_ibf ELSE error ;;
  outb addr EC_STATUS_PORT ;;
  RUN wait_ibf ELSE error ;;
  outb data EC_STATUS_PORT ;;
  mutex_unlock ;;
  Ret 0.

(** The [do ... while (retry-- > 0)] loop of [wait_smbus_protocol_finish];
    [retry] is the value of the counter when the body is entered. *)
Fixpoint smbus_protocol_poll (retry : nat) : M ec Z :=
  r <- read_hw_ram (EC_SMBUS_PROTOCOL hdr) 0xFF ;;
  let '(ret, data) := r in
  if ret =? 0 then Ret 0
  else if data =? 0 then Ret 0
  else
    udelay (EC_UDELAY_TIME hdr) ;;
    match retry with
    | O => Ret (- ETIMEDOUT)
    | S retry' => smbus_protocol_poll retry'
    end.

Definition wait_smbus_protocol_finish : M ec Z := smbus_protocol_poll 1000.

(** *** Dynamic control table *)

(** The first loop of [adv_get_dynamic_tab]: entries [i], ..., [i + n - 1] *)
Fixpoint dym_tbl_clear (n i : nat) (dym_tbl : list Dynamic_Tab) : list Dynamic_Tab :=
  match n with
  | O => dym_tbl
  | S n' =>
      dym_tbl_clear n' (S i)
        (alter (set_HWPinNumber 0xff) i (alter (set_DeviceID 0xff) i dym_tbl))
  end.

(** The second loop, with [n] iterations left and the index at [i]; the case
    [O] is the code after the loop. *)
Fixpoint dym_tbl_scan (n i : nat) (dym_tbl : list Dynamic_Tab)
  : M ec (Z * list Dynamic_Tab) :=
  match n with
  | O => mutex_unlock ;; Ret (0, dym_tbl)
  | S n' =>
      let error ret := mutex_unlock ;; Ret (ret, dym_tbl) in
      RUN wait_ibf ELSE error ;;
      outb (EC_TBL_WRITE_ITEM hdr) EC_COMMAND_PORT ;;
      RUN wait_ibf ELSE error ;;
      outb (Z.of_nat i) EC_STATUS_PORT ;;
      RUN wait_obf ELSE error ;;
      item <- inb EC_STATUS_PORT ;;
      if item =? 0xff then mutex_unlock ;; Ret (- EINVAL, dym_tbl)
      else
        RUN wait_ibf ELSE error ;;
        outb (EC_TBL_GET_PIN hdr) EC_COMMAND_PORT ;;
        RUN wait_obf ELSE error ;;
        v <- inb EC_STATUS_PORT ;;
        let pin_tmp := Z.land v 0xff in
        RUN wait_ibf ELSE error ;;
        if pin_tmp =? 0xff then mutex_unlock ;; Ret (- EINVAL, dym_tbl)
        else
          outb (EC_TBL_GET_DEVID hdr) EC_COMMAND_PORT ;;
          RUN wait_obf ELSE error ;;
          v <- inb EC_STATUS_PORT ;;
          let device_id := Z.land v 0xff in
          dym_tbl_scan n' (S i)
            (alter (set_HWPinNumber pin_tmp) i
               (alter (set_DeviceID device_id) i dym_tbl))
  end.

(** Get dynamic control table.  The argument is the array [pdata->dym_tbl];
    the result carries the return value and the array afterwards. *)
Definition adv_get_dynamic_tab (dym_tbl : list Dynamic_Tab)
  : M ec (Z * list Dynamic_Tab) :=
  mutex_lock ;;
  dym_tbl_scan (Z.to_nat (EC_MAX_TBL_NUM hdr)) 0
    (dym_tbl_clear (Z.to_nat (EC_MAX_TBL_NUM hdr)) 0 dym_tbl).

(** *** Analog to digital converter *)

Definition read_ad_value (hwpin multi : Z) : M ec Z :=
  let error ret := mutex_unlock ;; Ret ret in
  mutex_lock ;;
  RUN wait_ibf ELSE error ;;
  outb (EC_AD_INDEX_WRITE hdr) EC_COMMAND_PORT ;;
  RUN wait_ibf ELSE error ;;
  outb hwpin EC_STATUS_PORT ;;
  RUN wait_obf ELSE error ;;
  echo <- inb EC_STATUS_PORT ;;
  if echo =? 0xff then mutex_unlock ;; Ret (-1)
  else
    RUN wait_ibf ELSE error ;;
    outb (EC_AD_LSB_READ hdr) EC_COMMAND_PORT ;;
    RUN wait_obf ELSE error ;;
    LSB <- inb EC_STATUS_PORT ;;
    RUN wait_ibf ELSE error ;;
    outb (EC_AD_MSB_READ hdr) EC_COMMAND_PORT ;;
    RUN wait_obf ELSE error ;;
    MSB <- inb EC_STATUS_PORT ;;
    let ret_val := u32 (Z.land (Z.lor (Z.shiftl MSB 8) LSB) 0x03FF) in
    let ret_val := u32 (u32 (ret_val * uchar multi) * 100) in
    mutex_unlock ;;
    Ret (int_of_u32 ret_val).

(** *** GPIO *)

Definition read_gpio_status (PinNumber pvalue : Z) : M ec (Z * Z) :=
  let error ret := mutex_unlock ;; Ret (ret, pvalue) in
  mutex_lock ;;
  RUN wait_ibf ELSE error ;;
  outb (EC_GPIO_INDEX_WRITE hdr) EC_COMMAND_PORT ;;
  RUN wait_ibf ELSE error ;;
  outb PinNumber EC_STATUS_PORT ;;
  RUN wait_obf ELSE error ;;
  echo <- inb EC_STATUS_PORT ;;
  if echo =? 0xff then mutex_unlock ;; Ret (-1, pvalue)
  else
    RUN wait_ibf ELSE error ;;
    outb (EC_GPIO_STATUS_READ hdr) EC_COMMAND_PORT ;;
    RUN wait_obf ELSE error ;;
    gpio_status_value <- inb EC_STATUS_PORT ;;
    mutex_unlock ;;
    Ret (0, gpio_status_value).

Definition write_gpio_status (PinNumber value : Z) : M ec Z :=
  let error ret := mutex_unlock ;; Ret ret in
  mutex_lock ;;
  RUN wait_ibf ELSE error ;;
  outb (EC_GPIO_INDEX_WRITE hdr) EC_COMMAND_PORT ;;
  RUN wait_ibf ELSE error ;;
  outb PinNumber EC_STATUS_PORT ;;
  RUN wait_obf ELSE error ;;
  echo <- inb EC_STATUS_PORT ;;
  if echo =? 0xff then mutex_unlock ;; Ret (-1)
  else
    RUN wait_ibf ELSE error ;;
    outb (EC_GPIO_STATUS_WRITE hdr) EC_COMMAND_PORT ;;
    RUN wait_ibf ELSE error ;;
    outb value EC_STATUS_PORT ;;
    mutex_unlock ;;
    Ret 0.

Definition read_gpio_dir (PinNumber pvalue : Z) : M ec (Z * Z) :=
  let error ret := mutex_unlock ;; Ret (ret, pvalue) in
  mutex_lock ;;
  RUN wait_ibf ELSE error ;;
  outb (EC_GPIO_INDEX_WRITE hdr) EC_COMMAND_PORT ;;
  RUN wait_ibf ELSE error ;;
  outb PinNumber EC_STATUS_PORT ;;
  RUN wait_obf ELSE error ;;
  echo <- inb EC_STATUS_PORT ;;
  if echo =? 0xff then mutex_unlock ;; Ret (-1, pvalue)
  else
    RUN wait_ibf ELSE error ;;
    outb (EC_GPIO_DIR_READ hdr) EC_COMMAND_PORT ;;
    RUN wait_obf ELSE error ;;
    gpio_dir_value <- inb EC_STATUS_PORT ;;
    mutex_unlock ;;
    Ret (0, gpio_dir_value).

Definition write_gpio_dir (PinNumber value : Z) : M ec Z :=
  let error ret := mutex_unlock ;; Ret ret in
  mutex_lock ;;
  RUN wait_ibf ELSE error ;;
  outb (EC_GPIO_INDEX_WRITE hdr) EC_COMMAND_PORT ;;
  RUN wait_ibf ELSE error ;;
  outb PinNumber EC_STATUS_PORT ;;
  RUN wait_obf ELSE error ;;
  echo <- inb EC_STATUS_PORT ;;
  if echo =? 0xff then mutex_unlock ;; Ret (-1)
  else
    RUN wait_ibf ELSE error ;;
    outb (EC_GPIO_DIR_WRITE hdr) EC_COMMAND_PORT ;;
    RUN wait_ibf ELSE error ;;
    outb value EC_STATUS_PORT ;;
    mutex_unlock ;;
    Ret 0.

(** *** SMBus pass-through *)

(** The request pointer is [None] when null; the result carries the return
    value and the request object afterwards. *)
Definition smbus_read_word (ptr_ec_smbus_word_data : option EC_SMBUS_WORD_DATA.t)
  : M ec (Z * option EC_SMBUS_WORD_DATA.t) :=
  let error ret := Ret (ret, ptr_ec_smbus_word_data) in
  req <- deref ptr_ec_smbus_word_data ;;
  (* Step 1. Select SMBus channel *)
  let data := uchar (EC_SMBUS_WORD_DATA.Channel req) in
  RUN write_hw_ram (EC_SMBUS_CHANNEL hdr) data ELSE error ;;
  (* Step 2. Set SMBUS device address *)
  let data := uchar (EC_SMBUS_WORD_DATA.Address req) in
  RUN write_hw_ram (EC_SMBUS_SLV_ADDR hdr) data ELSE error ;;
  (* Step 3. Set Chip Register Address *)
  let data := uchar (EC_SMBUS_WORD_DATA.Register req) in
  RUN write_hw_ram (EC_SMBUS_CMD hdr) data ELSE error ;;
  (* Step 4. Set EC SMBUS read word Mode *)
  let data := uchar (SMBUS_WORD_READ hdr) in
  RUN write_hw_ram (EC_SMBUS_PROTOCOL hdr) data ELSE error ;;
  (* Step 5. Check EC Smbus states *)
  RUN wait_smbus_protocol_finish ELSE error ;;
  r <- read_hw_ram (EC_SMBUS_STATUS hdr) data ;;
  let '(ret, data) := r in
  if negb (ret =? 0) then error ret
  else
    let sm_ready := data in
    (* check no error *)
    if negb (sm_ready =? 0x80) then error ret
    else
      (* Step 6. Get Value *)
      r <- read_hw_ram (EC_SMBUS_DAT_OFFSET hdr 0) data ;;
      let '(ret, data) := r in
      if negb (ret =? 0) then error ret
      else
        let MSB := data in
        r <- read_hw_ram (EC_SMBUS_DAT_OFFSET hdr 1) data ;;
        let '(ret, data) := r in
        if negb (ret =? 0) then error ret
        else
          let LSB := data in
          let Value := ushort (Z.lor (Z.shiftl MSB 8) LSB) in
          Ret (0, Some (EC_SMBUS_WORD_DATA.set_Value Value req)).

Definition smbus_read_byte (ptr_ec_smbus_read_byte : option EC_SMBUS_READ_BYTE.t)
  : M ec (Z * option EC_SMBUS_READ_BYTE.t) :=
  let error ret := Ret (ret, ptr_ec_smbus_read_byte) in
  (* CHECK_PARAMETER *)
  match ptr_ec_smbus_read_byte with
  | None => Ret (- EINVAL, None)
  | Some req =>
      (* Step 1. Select SMBus channel *)
      let data := uchar (EC_SMBUS_READ_BYTE.Channel req) in
      RUN write_hw_ram (EC_SMBUS_CHANNEL hdr) data ELSE error ;;
      (* Step 2. Set SMBUS device address *)
      let data := uchar (EC_SMBUS_READ_BYTE.Address req) in
      RUN write_hw_ram (EC_SMBUS_SLV_ADDR hdr) data ELSE error ;;
      (* Step 3. Set Chip Register Address *)
      let data := uchar (EC_SMBUS_READ_BYTE.Register req) in
      RUN write_hw_ram (EC_SMBUS_CMD hdr) data ELSE error ;;
      (* Step 4. Set EC SMBUS read Byte Mode *)
      let data := uchar (SMBUS_BYTE_READ hdr) in
      RUN write_hw_ram (EC_SMBUS_PROTOCOL hdr) data ELSE error ;;
      (* Step 5. Check EC Smbus states *)
      RUN wait_smbus_protocol_finish ELSE error ;;
      r <- read_hw_ram (EC_SMBUS_STATUS hdr) data ;;
      let '(ret, data) := r in
      if negb (ret =? 0) then error ret
      else
        let sm_ready := data in
        (* check no error *)
        if negb (sm_ready =? 0x80) then error ret
        else
          (* Step 6. Get Value *)
          r <- read_hw_ram (EC_SMBUS_DATA hdr) data ;;
          let '(ret, data) := r in
          if negb (ret =? 0) then error ret
          else
            Ret (0, Some (EC_SMBUS_READ_BYTE.set_Data (Z.land data 0xFF) req))
  end.

Definition smbus_write_byte (ptr_ec_smbus_write_byte : option EC_SMBUS_WRITE_BYTE.t)
  : M ec Z :=
  let error ret := mutex_unlock ;; Ret ret in
  req <- deref ptr_ec_smbus_write_byte ;;
  (* Step 1. Select SMBus channel *)
  let data := uchar (EC_SMBUS_WRITE_BYTE.Channel req) in
  RUN write_hw_ram (EC_SMBUS_CHANNEL hdr) data ELSE error ;;
  (* Step 2. Set SMBUS device address *)
  let data := uchar (EC_SMBUS_WRITE_BYTE.Address req) in
  RUN write_hw_ram (EC_SMBUS_SLV_ADDR hdr) data ELSE error ;;
  (* Step 3. Set Chip Register Address *)
  let data := uchar (EC_SMBUS_WRITE_BYTE.Register req) in
  RUN write_hw_ram (EC_SMBUS_CMD hdr) data ELSE error ;;
  (* Step 4. Set Data to SMBUS *)
  let data := uchar (EC_SMBUS_WRITE_BYTE.Data req) in
  RUN write_hw_ram (EC_SMBUS_DATA hdr) data ELSE error ;;
  (* Step 5. Set EC SMBUS write Byte Mode *)
  let data := uchar (SMBUS_BYTE_WRITE hdr) in
  RUN write_hw_ram (EC_SMBUS_PROTOCOL hdr) data ELSE error ;;
  (* Step 6. Check EC Smbus states *)
  RUN wait_smbus_protocol_finish ELSE error ;;
  r <- read_hw_ram (EC_SMBUS_STATUS hdr) data ;;
  let '(ret, data) := r in
  if negb (ret =? 0) then error ret
  else
    let sm_ready := data in
    (* check no error *)
    if negb (sm_ready =? 0x80) then error ret
    else mutex_unlock ;; Ret 0.

End Driver.

Arguments wait_ibf_loop hdr {ec} n.
Arguments wait_obf_loop hdr {ec} n.
Arguments wait_ibf hdr {ec}.
Arguments wait_obf hdr {ec}.
Arguments read_hw_ram hdr {ec} addr data.
Arguments write_hw_ram hdr {ec} addr data.
Arguments smbus_protocol_poll hdr {ec} retry.
Arguments wait_smbus_protocol_finish hdr {ec}.
Arguments dym_tbl_scan hdr {ec} n i dym_tbl.
Arguments adv_get_dynamic_tab hdr {ec} dym_tbl.
Arguments read_ad_value hdr {ec} hwpin multi.
Arguments read_gpio_status hdr {ec} PinNumber pvalue.
Arguments write_gpio_status hdr {ec} PinNumber value.
Arguments read_gpio_dir hdr {ec} PinNumber pvalue.
Arguments write_gpio_dir hdr {ec} PinNumber value.
Arguments smbus_read_word hdr {ec} ptr_ec_smbus_word_data.
Arguments smbus_read_byte hdr {ec} ptr_ec_smbus_read_byte.
Arguments smbus_write_byte hdr {ec} ptr_ec_smbus_write_byte.

(** ** Reading traces *)

(** The values read from the data port, in order. *)
Fixpoint status_reads (evs : list event) : list Z :=
  match evs with
  | [] => []
  | EvIn EC_STATUS_PORT v :: evs' => v :: status_reads evs'
  | _ :: evs' => status_reads evs'
  end.

(** All port reads, in order. *)
Fixpoint port_reads (evs : list event) : list (ec_port * Z) :=
  match evs with
  | [] => []
  | EvIn p v :: evs' => (p, v) :: port_reads evs'
  | _ :: evs' => port_reads evs'
  end.

(** The reads and writes of the data port, in order. *)
Fixpoint data_traffic (evs : list event) : list event :=
  match evs with
  | [] => []
  | EvIn EC_STATUS_PORT v :: evs' => EvIn EC_STATUS_PORT v :: data_traffic evs'
  | EvOut v EC_STATUS_PORT :: evs' => EvOut v EC_STATUS_PORT :: data_traffic evs'
  | _ :: evs' => data_traffic evs'
  end.

(** The exchange with the controller: the port writes and the data-port
    reads, without the polls of the command port. *)
Fixpoint exchange (evs : list event) : list event :=
  match evs with
  | [] => []
  | EvIn EC_STATUS_PORT v :: evs' => EvIn EC_STATUS_PORT v :: exchange evs'
  | EvOut v p :: evs' => EvOut v p :: exchange evs'
  | _ :: evs' => exchange evs'
  end.

(** Data-port read number [k] (from 0): the value last written to the data
    port before it ([sel] when there is none), the value read, and the
    events that follow the read. *)
Fixpoint data_read (sel : option Z) (k : nat) (evs : list event)
  : option (option Z * Z * list event) :=
  match evs with
  | [] => None
  | EvIn EC_STATUS_PORT v :: post =>
      match k with
      | O => Some (sel, v, post)
      | S k' => data_read sel k' post
      end
  | EvOut v EC_STATUS_PORT :: evs' => data_read (Some v) k evs'
  | _ :: evs' => data_read sel k evs'
  end.

(** The number of gate acquisitions and releases. *)
Fixpoint lock_count (evs : list event) : nat :=
  match evs with
  | [] => O
  | EvLock :: evs' => S (lock_count evs')
  | _ :: evs' => lock_count evs'
  end.

Fixpoint unlock_count (evs : list event) : nat :=
  match evs with
  | [] => O
  | EvUnlock :: evs' => S (unlock_count evs')
  | _ :: evs' => unlock_count evs'
  end.

(** The events of [n] unsuccessful polls of the command port that read
    [busy], each followed by the delay between polls. *)
Definition busy_polls (us : Z) (busy : list Z) : list event :=
  flat_map (fun v => [EvIn EC_COMMAND_PORT v; EvDelay us]) busy.

(** Events of a handshake wait: polls of the command port and delays. *)
Definition is_handshake (e : event) : bool :=
  match e with
  | EvIn EC_COMMAND_PORT _ | EvDelay _ => true
  | _ => false
  end.

Definition handshake (evs : list event) : Prop := forallb is_handshake evs = true.

(** ** Simulated controllers *)

(** A scripted controller: reads of either port are served from a tape and,
    once the tape is exhausted, by a default value; writes are ignored. *)
Record script := mkScript {
  cmd_tape : list Z;
  cmd_default : Z;
  data_tape : list Z;
  data_default : Z
}.

Definition scripted_inb (p : ec_port) (s : script) : Z * script :=
  match p with
  | EC_COMMAND_PORT =>
      match cmd_tape s with
      | [] => (cmd_default s, s)
      | v :: t => (v, mkScript t (cmd_default s) (data_tape s) (data_default s))
      end
  | EC_STATUS_PORT =>
      match data_tape s with
      | [] => (data_default s, s)
      | v :: t => (v, mkScript (cmd_tape s) (cmd_default s) t (data_default s))
      end
  end.

Definition scripted : controller :=
  {| ctl_state := script;
     ctl_inb := scripted_inb;
     ctl_outb := fun _ _ s => s |}.

(** A controller that is always ready (IBF clear, OBF set) and answers
    data-port reads from [data], then with 0xFF. *)
Definition ready_script (data : list Z) : script := mkScript [] 0x01 data 0xFF.

(** A controller whose input buffer never drains. *)
Definition stuck_script : script := mkScript [] 0x02 [] 0xFF.

Definition boot {ec : controller} (c : ctl_state ec) : world ec :=
  mkWorld c false O [].

Definition scripted_boot (s : script) : world scripted :=
  boot (ec := scripted) s.

(** A controller that keeps a RAM and echoes what is written to it.  It
    decodes the read-RAM and write-RAM opcodes of the header; its input
    buffer is always empty and its output buffer is full from the moment a
    read has been addressed until the byte is fetched. *)
Inductive ram_phase :=
| RamIdle
| RamReadAddr
| RamWriteAddr
| RamWriteData (addr : Z).

Record ram_state := mkRam {
  ram_cells : Z -> Z;
  ram_phase_of : ram_phase;
  ram_obuf : option Z
}.

Definition ram_inb (p : ec_port) (s : ram_state) : Z * ram_state :=
  match p with
  | EC_COMMAND_PORT =>
      (match ram_obuf s with Some _ => 0x01 | None => 0x00 end, s)
  | EC_STATUS_PORT =>
      (match ram_obuf s with Some v => v | None => 0xFF end,
       mkRam (ram_cells s) (ram_phase_of s) None)
  end.

Definition ram_outb (hdr : ec_header) (v : Z) (p : ec_port) (s : ram_state)
  : ram_state :=
  match p with
  | EC_COMMAND_PORT =>
      if v =? uchar (EC_HW_RAM_READ hdr)
      then mkRam (ram_cells s) RamReadAddr (ram_obuf s)
      else if v =? uchar (EC_HW_RAM_WRITE hdr)
      then mkRam (ram_cells s) RamWriteAddr (ram_obuf s)
      else mkRam (ram_cells s) RamIdle (ram_obuf s)
  | EC_STATUS_PORT =>
      match ram_phase_of s with
      | RamIdle => s
      | RamReadAddr => mkRam (ram_cells s) RamIdle (Some (ram_cells s v))
      | RamWriteAddr => mkRam (ram_cells s) (RamWriteData v) (ram_obuf s)
      | RamWriteData a =>
          mkRam (fun x => if x =? a then v else ram_cells s x) RamIdle (ram_obuf s)
      end
  end.

Definition echo_ram (hdr : ec_header) : controller :=
  {| ctl_state := ram_state;
     ctl_inb := ram_inb;
     ctl_outb := ram_outb hdr |}.

(** A table of constants for running the driver on the simulated
    controllers. *)
Definition sample_header : ec_header :=
  {| EC_MAX_TIMEOUT_COUNT := 5000;
     EC_UDELAY_TIME := 200;
     EC_MAX_TBL_NUM := 32;
     EC_HW_RAM_READ := 0x88;
     EC_HW_RAM_WRITE := 0x89;
     EC_AD_INDEX_WRITE := 0x15;
     EC_AD_LSB_READ := 0x16;
     EC_AD_MSB_READ := 0x1F;
     EC_GPIO_INDEX_WRITE := 0x10;
     EC_GPIO_STATUS_READ := 0x11;
     EC_GPIO_STATUS_WRITE := 0x12;
     EC_GPIO_DIR_READ := 0x1D;
     EC_GPIO_DIR_WRITE := 0x1E;
     EC_TBL_WRITE_ITEM := 0x20;
     EC_TBL_GET_PIN := 0x21;
     EC_TBL_GET_DEVID := 0x22;
     EC_SMBUS_CHANNEL := 0x2B;
     EC_SMBUS_SLV_ADDR := 0x02;
     EC_SMBUS_CMD := 0x03;
     EC_SMBUS_PROTOCOL := 0x00;
     EC_SMBUS_STATUS := 0x01;
     EC_SMBUS_DATA := 0x04;
     EC_SMBUS_DAT_OFFSET := fun n => 0x04 + n;
     SMBUS_BYTE_READ := 0x07;
     SMBUS_BYTE_WRITE := 0x06;
     SMBUS_WORD_READ := 0x09 |}.

(** The same table with another retry budget for the handshake waits. *)
Definition with_timeout_count (n : Z) (h : ec_header) : ec_header :=
  {| EC_MAX_TIMEOUT_COUNT := n;
     EC_UDELAY_TIME := EC_UDELAY_TIME h;
     EC_MAX_TBL_NUM := EC_MAX_TBL_NUM h;
     EC_HW_RAM_READ := EC_HW_RAM_READ h;
     EC_HW_RAM_WRITE := EC_HW_RAM_WRITE h;
     EC_AD_INDEX_WRITE := EC_AD_INDEX_WRITE h;
     EC_AD_LSB_READ := EC_AD_LSB_READ h;
     EC_AD_MSB_READ := EC_AD_MSB_READ h;
     EC_GPIO_INDEX_WRITE := EC_GPIO_INDEX_WRITE h;
     EC_GPIO_STATUS_READ := EC_GPIO_STATUS_READ h;
     EC_GPIO_STATUS_WRITE := EC_GPIO_STATUS_WRITE h;
     EC_GPIO_DIR_READ := EC_GPIO_DIR_READ h;
     EC_GPIO_DIR_WRITE := EC_GPIO_DIR_WRITE h;
     EC_TBL_WRITE_ITEM := EC_TBL_WRITE_ITEM h;
     EC_TBL_GET_PIN := EC_TBL_GET_PIN h;
     EC_TBL_GET_DEVID := EC_TBL_GET_DEVID h;
     EC_SMBUS_CHANNEL := EC_SMBUS_CHANNEL h;
     EC_SMBUS_SLV_ADDR := EC_SMBUS_SLV_ADDR h;
     EC_SMBUS_CMD := EC_SMBUS_CMD h;
     EC_SMBUS_PROTOCOL := EC_SMBUS_PROTOCOL h;
     EC_SMBUS_STATUS := EC_SMBUS_STATUS h;
     EC_SMBUS_DATA := EC_SMBUS_DATA h;
     EC_SMBUS_DAT_OFFSET := EC_SMBUS_DAT_OFFSET h;
     SMBUS_BYTE_READ := SMBUS_BYTE_READ h;
     SMBUS_BYTE_WRITE := SMBUS_BYTE_WRITE h;
     SMBUS_WORD_READ := SMBUS_WORD_READ h |}.

(** The result and the final world of a call *)
Definition returned {ec A} (o : outcome ec A) : option A :=
  match o with
  | Returns a _ => Some a
  | Blocked _ | Oops _ => None
  end.

Definition final {ec A} (o : outcome ec A) : world ec :=
  match o with
  | Returns _ w | Blocked w | Oops w => w
  end.

(** ** Specifications *)

(** [wp m w Q]: from [w] the call [m] returns, with a result and in a world
    that satisfy [Q]. *)
Definition wp {ec A} (m : M ec A) (w : world ec) (Q : A -> world ec -> Prop) : Prop :=
  exists a w', m w = Returns a w' /\ Q a w'.

(** *** Handshake *)

(** The status bits of the command port. *)
Definition ibf_full (v : Z) : Prop := Z.land v 0x02 <> 0.
Definition obf_empty (v : Z) : Prop := Z.land v 0x01 = 0.

(** What a wait loop with a budget of [budget] polls does: it polls the
    command port, reads [busy] and sleeps after each of these reads, and
    either then reads a value [v] that ends the wait and returns 0 at once,
    or gives up after exactly [budget] polls.  The gate is not touched. *)
Definition wait_spec {ec} (keep_waiting : Z -> Prop) (us : Z) (budget : nat)
  (w : world ec) (r : Z) (w' : world ec) : Prop :=
  lock_held w' = lock_held w /\ stray_unlocks w' = stray_unlocks w /\
  exists busy, Forall keep_waiting busy /\
    ((r = 0 /\ (length busy < budget)%nat /\
      exists v, ~ keep_waiting v /\
        trace w' = trace w ++ busy_polls us busy ++ [EvIn EC_COMMAND_PORT v])
     \/
     (r = - ETIMEDOUT /\ length busy = budget /\
      trace w' = trace w ++ busy_polls us busy)).

(** *** The gate *)

(** The events of a transaction after it has taken the gate: no second
    acquisition, and one release, which is the last event. *)
Fixpoint gate_body (evs : list event) : bool :=
  match evs with
  | [] => false
  | EvLock :: _ => false
  | EvUnlock :: rest => match rest with [] => true | _ :: _ => false end
  | _ :: rest => gate_body rest
  end.

(** The events of a gated transaction: the gate is taken first, once, and
    released last, once. *)
Definition gate_cycle (evs : list event) : bool :=
  match evs with
  | EvLock :: body => gate_body body
  | _ => false
  end.

(** A gated transaction from [w] to [w'] with events [evs]: the gate is
    held throughout, is free again in [w'], and was never released while
    free. *)
Definition transaction {ec} (w w' : world ec) (evs : list event) : Prop :=
  trace w' = trace w ++ evs /\ gate_cycle evs = true /\
  lock_held w' = false /\ stray_unlocks w' = stray_unlocks w.

(** *** Indexed protocols *)

(** Whenever data-port read number [k] is 0xFF, it answers the selection
    of [sel], the result is [fail], and no port is read afterwards. *)
Definition aborts_on_ff (sel : Z) (k : nat) (fail r : Z) (evs : list event) : Prop :=
  forall s post,
    data_read None k evs = Some (s, 0xFF, post) ->
    s = Some (uchar sel) /\ r = fail /\ port_reads post = [].

Definition answers_not_found {ec} (sel : Z) (k : nat) (fail : Z)
  (w : world ec) (r : Z) (w' : world ec) : Prop :=
  exists evs, trace w' = trace w ++ evs /\ aborts_on_ff sel k fail r evs.

(** The 10-bit conversion result *)
Definition ad_raw (MSB LSB : Z) : Z := Z.land (Z.lor (Z.shiftl MSB 8) LSB) 0x03FF.

Definition read_ad_value_spec (hdr : ec_header) {ec} (hwpin multi : Z)
  (w : world ec) (r : Z) (w' : world ec) : Prop :=
  exists evs, transaction w w' evs /\
    aborts_on_ff hwpin 0 (-1) r evs /\
    forall e L H, status_reads evs = [e; L; H] ->
      r = ad_raw H L * uchar multi * 100 /\
      exchange evs =
        [EvOut (uchar (EC_AD_INDEX_WRITE hdr)) EC_COMMAND_PORT;
         EvOut (uchar hwpin) EC_STATUS_PORT;
         EvIn EC_STATUS_PORT e;
         EvOut (uchar (EC_AD_LSB_READ hdr)) EC_COMMAND_PORT;
         EvIn EC_STATUS_PORT L;
         EvOut (uchar (EC_AD_MSB_READ hdr)) EC_COMMAND_PORT;
         EvIn EC_STATUS_PORT H].

Definition gpio_spec {ec} (PinNumber : Z)
  (w : world ec) (r : Z) (w' : world ec) : Prop :=
  exists evs, transaction w w' evs /\ aborts_on_ff PinNumber 0 (-1) r evs.

(** *** Dynamic control table *)

(** What the controller answers for one defined item: the echo of the item
    number, the hardware pin number and the device identifier. *)
Definition item : Type := Z * Z * Z.

Definition item_reads (items : list item) : list Z :=
  flat_map (fun it : item => [fst (fst it); snd (fst it); snd it]) items.

Definition item_entry (it : item) : Dynamic_Tab :=
  mkDynamic_Tab (snd it) (snd (fst it)).

Definition undefined_entry : Dynamic_Tab := mkDynamic_Tab 0xff 0xff.

Fixpoint store_items (i : nat) (items : list item) (dym_tbl : list Dynamic_Tab)
  : list Dynamic_Tab :=
  match items with
  | [] => dym_tbl
  | it :: items' => store_items (S i) items' (<[i := item_entry it]> dym_tbl)
  end.

(** The scan of the [n] items from [i] on, when data-port read number
    [3 K] is 0xFF: that read is the echo of item [i + K], the scan aborts
    with [-EINVAL] and reads no port afterwards, [K] items were read
    before, and the table is [stored items]. *)
Definition enumeration_aborts (i n : nat) (stored : list item -> list Dynamic_Tab)
  (sel0 : option Z) (r : Z * list Dynamic_Tab) (evs : list event) : Prop :=
  forall K s post,
    data_read sel0 (K * 3) evs = Some (s, 0xFF, post) ->
    s = Some (uchar (Z.of_nat (i + K))) /\
    fst r = - EINVAL /\ port_reads post = [] /\ (K < n)%nat /\
    exists items,
      length items = K /\
      status_reads evs = item_reads items ++ [0xFF] /\
      snd r = stored items.

Definition dym_tbl_scan_spec {ec} (n i : nat) (dym_tbl : list Dynamic_Tab)
  (w : world ec) (r : Z * list Dynamic_Tab) (w' : world ec) : Prop :=
  lock_held w' = false /\ stray_unlocks w' = stray_unlocks w /\
  exists evs, trace w' = trace w ++ evs /\ gate_body evs = true /\
    forall sel0,
      enumeration_aborts i n (fun items => store_items i items dym_tbl) sel0 r evs.

Definition enumeration_spec (hdr : ec_header) {ec}
  (stored : list item -> list Dynamic_Tab)
  (w : world ec) (r : Z * list Dynamic_Tab) (w' : world ec) : Prop :=
  exists evs, transaction w w' evs /\
    enumeration_aborts 0 (Z.to_nat (EC_MAX_TBL_NUM hdr)) stored None r evs.

(** *** HW RAM and SMBus *)

Definition write_hw_ram_spec {ec} (addr data : Z)
  (w : world ec) (r : Z) (w' : world ec) : Prop :=
  exists evs, transaction w w' evs /\ status_reads evs = [] /\
    ((r = 0 /\
      data_traffic evs = [EvOut (uchar addr) EC_STATUS_PORT;
                          EvOut (uchar data) EC_STATUS_PORT])
     \/ r = - ETIMEDOUT).

Definition read_hw_ram_spec {ec} (addr data : Z)
  (w : world ec) (r : Z * Z) (w' : world ec) : Prop :=
  exists evs, transaction w w' evs /\
    ((fst r = 0 /\ 0 <= snd r < 256 /\
      data_traffic evs = [EvOut (uchar addr) EC_STATUS_PORT;
                          EvIn EC_STATUS_PORT (snd r)])
     \/
     (fst r = - ETIMEDOUT /\ snd r = data /\ status_reads evs = [])).

(** The completion poll ends with the gate free; it returns 0 after
    exactly one read of the data port and [-ETIMEDOUT] after none. *)
Definition poll_spec {ec} (w : world ec) (r : Z) (w' : world ec) : Prop :=
  lock_held w' = false /\ stray_unlocks w' = stray_unlocks w /\
  exists evs, trace w' = trace w ++ evs /\
    ((r = 0 /\ exists p, status_reads evs = [p])
     \/ (r = - ETIMEDOUT /\ status_reads evs = [])).

(** The two data-port reads of a transaction that ended at the status
    check: the protocol cell and a status other than 0x80. *)
Definition status_error (evs : list event) : Prop :=
  exists p s, status_reads evs = [p; s] /\ s <> 0x80.

(** A word read that fetched both data cells: the status read was 0x80, the
    call succeeds, the cells were fetched from offset 0 then offset 1 and
    the value combines them, most significant byte first. *)
Definition word_read_big_endian (hdr : ec_header) (req : EC_SMBUS_WORD_DATA.t)
  (r : Z * option EC_SMBUS_WORD_DATA.t) (evs : list event) : Prop :=
  forall p s MSB LSB,
    status_reads evs = [p; s; MSB; LSB] ->
    s = 0x80 /\ fst r = 0 /\
    snd r = Some (EC_SMBUS_WORD_DATA.set_Value (Z.lor (Z.shiftl MSB 8) LSB) req) /\
    0 <= Z.lor (Z.shiftl MSB 8) LSB < 65536 /\
    exists pre,
      data_traffic evs =
        pre ++ [EvOut (uchar (EC_SMBUS_DAT_OFFSET hdr 0)) EC_STATUS_PORT;
                EvIn EC_STATUS_PORT MSB;
                EvOut (uchar (EC_SMBUS_DAT_OFFSET hdr 1)) EC_STATUS_PORT;
                EvIn EC_STATUS_PORT LSB].

Definition smbus_read_word_spec (hdr : ec_header) {ec}
  (req : EC_SMBUS_WORD_DATA.t)
  (w : world ec) (r : Z * option EC_SMBUS_WORD_DATA.t) (w' : world ec) : Prop :=
  lock_held w' = false /\ stray_unlocks w' = stray_unlocks w /\
  exists evs, trace w' = trace w ++ evs /\
    word_read_big_endian hdr req r evs /\
    (status_error evs -> r = (0, Some req)).

Definition smbus_read_byte_spec {ec} (req : EC_SMBUS_READ_BYTE.t)
  (w : world ec) (r : Z * option EC_SMBUS_READ_BYTE.t) (w' : world ec) : Prop :=
  lock_held w' = false /\ stray_unlocks w' = stray_unlocks w /\
  exists evs, trace w' = trace w ++ evs /\
    (forall p s d, status_reads evs = [p; s; d] ->
       s = 0x80 /\ r = (0, Some (EC_SMBUS_READ_BYTE.set_Data d req))) /\
    (status_error evs -> r = (0, Some req)).

Definition smbus_write_byte_spec {ec}
  (w : world ec) (r : Z) (w' : world ec) : Prop :=
  lock_held w' = false /\ stray_unlocks w' = S (stray_unlocks w) /\
  exists evs, trace w' = trace w ++ evs /\
    (status_error evs -> r = 0).

(** ** Further protocols of the driver *)

(** Modelled from the spec: the opcode macros of <linux/mfd/ahc1ec0.h> for
    the ACPI RAM, the extended HW RAM, the one-key-recovery and the OEM
    status protocols, again as an arbitrary table. *)
Record ec_header_more := {
  EC_ACPI_RAM_READ : Z;
  EC_ACPI_DATA_WRITE : Z;
  EC_HW_EXTEND_RAM_WRITE : Z;
  EC_ONE_KEY_FLAG : Z;
  EC_ASG_OEM : Z;
  EC_ASG_OEM_READ : Z;
  EC_ASG_OEM_WRITE : Z
}.

Section MoreProtocols.

Variable hdr : ec_header.
Variable more : ec_header_more.
Variable ec : controller.

Definition read_acpi_value (addr pvalue : Z) : M ec (Z * Z) :=
  let error ret := mutex_unlock ;; Ret (ret, pvalue) in
  mutex_lock ;;
  RUN wait_ibf hdr ELSE error ;;
  outb (EC_ACPI_RAM_READ more) EC_COMMAND_PORT ;;
  RUN wait_ibf hdr ELSE error ;;
  outb addr EC_STATUS_PORT ;;
  RUN wait_obf hdr ELSE error ;;
  value <- inb EC_STATUS_PORT ;;
  mutex_unlock ;;
  Ret (0, value).

Definition write_acpi_value (addr value : Z) : M ec Z :=
  let error ret := mutex_unlock ;; Ret ret in
  mutex_lock ;;
  RUN wait_ibf hdr ELSE error ;;
  outb (EC_ACPI_DATA_WRITE more) EC_COMMAND_PORT ;;
  RUN wait_ibf hdr ELSE error ;;
  outb addr EC_STATUS_PORT ;;
  RUN wait_ibf hdr ELSE error ;;
  outb value EC_STATUS_PORT ;;
  mutex_unlock ;;
  Ret 0.

(** Write data to EC HW ram (extended bank) *)
Definition write_hw_extend_ram (addr data : Z) : M ec Z :=
  let error ret := mutex_unlock ;; Ret ret in
  mutex_lock ;;
  RUN wait_ibf hdr ELSE error ;;
  outb (EC_HW_EXTEND_RAM_WRITE more) EC_COMMAND_PORT ;;
  RUN wait_ibf hdr ELSE error ;;
  outb addr EC_STATUS_PORT ;;
  RUN wait_ibf hdr ELSE error ;;
  outb data EC_STATUS_PORT ;;
  mutex_unlock ;;
  Ret 0.

Definition write_hwram_command (data : Z) : M ec Z :=
  let error ret := mutex_unlock ;; Ret ret in
  mutex_lock ;;
  RUN wait_ibf hdr ELSE error ;;
  outb data EC_COMMAND_PORT ;;
  mutex_unlock ;;
  Ret 0.

(** Get One Key Recovery status.  [*pdata] is set to 0 before the first
    wait, so the content at the call does not matter. *)
Definition read_onekey_status (addr pdata : Z) : M ec (Z * Z) :=
  mutex_lock ;;
  (* Init return value *)
  let pdata := 0 in
  let error ret := mutex_unlock ;; Ret (ret, pdata) in
  RUN wait_ibf hdr ELSE error ;;
  outb (EC_ONE_KEY_FLAG more) EC_COMMAND_PORT ;;
  RUN wait_ibf hdr ELSE error ;;
  outb addr EC_STATUS_PORT ;;
  RUN wait_obf hdr ELSE error ;;
  pdata <- inb EC_STATUS_PORT ;;
  mutex_unlock ;;
  Ret (0, pdata).

(** Set One Key Recovery status *)
Definition write_onekey_status (addr : Z) : M ec Z :=
  let error ret := mutex_unlock ;; Ret ret in
  mutex_lock ;;
  RUN wait_ibf hdr ELSE error ;;
  outb (EC_ONE_KEY_FLAG more) EC_COMMAND_PORT ;;
  RUN wait_ibf hdr ELSE error ;;
  outb addr EC_STATUS_PORT ;;
  mutex_unlock ;;
  Ret 0.

(** EC OEM get status *)
Definition ec_oem_get_status (addr pdata : Z) : M ec (Z * Z) :=
  mutex_lock ;;
  (* Init return value *)
  let pdata := 0 in
  let error ret := mutex_unlock ;; Ret (ret, pdata) in
  RUN wait_ibf hdr ELSE error ;;
  outb (EC_ASG_OEM more) EC_COMMAND_PORT ;;
  RUN wait_ibf hdr ELSE error ;;
  outb (EC_ASG_OEM_READ more) EC_STATUS_PORT ;;
  RUN wait_ibf hdr ELSE error ;;
  outb addr EC_STATUS_PORT ;;
  RUN wait_obf hdr ELSE error ;;
  pdata <- inb EC_STATUS_PORT ;;
  mutex_unlock ;;
  Ret (0, pdata).

(** EC OEM set status *)
Definition ec_oem_set_status (addr pdata : Z) : M ec Z :=
  let error ret := mutex_unlock ;; Ret ret in
  mutex_lock ;;
  RUN wait_ibf hdr ELSE error ;;
  outb (EC_ASG_OEM more) EC_COMMAND_PORT ;;
  RUN wait_ibf hdr ELSE error ;;
  outb (EC_ASG_OEM_WRITE more) EC_STATUS_PORT ;;
  RUN wait_ibf hdr ELSE error ;;
  outb addr EC_STATUS_PORT ;;
  RUN wait_ibf hdr ELSE error ;;
  outb pdata EC_STATUS_PORT ;;
  mutex_unlock ;;
  Ret 0.

End MoreProtocols.

Arguments read_acpi_value hdr more {ec} addr pvalue.
Arguments write_acpi_value hdr more {ec} addr value.
Arguments write_hw_extend_ram hdr more {ec} addr data.
Arguments write_hwram_command hdr {ec} data.
Arguments read_onekey_status hdr more {ec} addr pdata.
Arguments write_onekey_status hdr more {ec} addr.
Arguments ec_oem_get_status hdr more {ec} addr pdata.
Arguments ec_oem_set_status hdr more {ec} addr pdata.

Definition sample_header_more : ec_header_more :=
  {| EC_ACPI_RAM_READ := 0x80;
     EC_ACPI_DATA_WRITE := 0x81;
     EC_HW_EXTEND_RAM_WRITE := 0x87;
     EC_ONE_KEY_FLAG := 0x9C;
     EC_ASG_OEM := 0xEA;
     EC_ASG_OEM_READ := 0x00;
     EC_ASG_OEM_WRITE := 0x02 |}.

(** ** Sub-device properties *)

(** The sub-device identifiers; [ADVEC_SUBDEV_MAX] is their number. *)
Definition ADVEC_SUBDEV_BRIGHTNESS : Z := 0.
Definition ADVEC_SUBDEV_EEPROM : Z := 1.
Definition ADVEC_SUBDEV_GPIO : Z := 2.
Definition ADVEC_SUBDEV_HWMON : Z := 3.
Definition ADVEC_SUBDEV_LED : Z := 4.
Definition ADVEC_SUBDEV_WDT : Z := 5.
Definition ADVEC_SUBDEV_MAX : Z := 6.

(** [BIT(n)] *)
Definition BIT (n : Z) : Z := Z.shiftl 1 n.

(** The fields of [struct adv_ec_platform_data] that [adv_ec_parse_prop]
    writes. *)
Record sub_dev_data := mkSubDev { sub_dev_nb : Z; sub_dev_mask : Z }.

(** The body of the [switch] in the loop of [adv_ec_parse_prop]. *)
Definition sub_dev_case (v mask : Z) : Z :=
  if (v =? ADVEC_SUBDEV_BRIGHTNESS) || (v =? ADVEC_SUBDEV_EEPROM)
     || (v =? ADVEC_SUBDEV_GPIO) || (v =? ADVEC_SUBDEV_HWMON)
     || (v =? ADVEC_SUBDEV_LED) || (v =? ADVEC_SUBDEV_WDT)
  then Z.lor mask (BIT v)
  else mask.

(** The loop, with [n] iterations left and the index at [i].  Reading an
    element that was not stored has no defined result. *)
Fixpoint sub_dev_loop (n i : nat) (sub_dev : list Z) (mask : Z) : option Z :=
  match n with
  | O => Some mask
  | S n' =>
      match sub_dev !! i with
      | None => None
      | Some v => sub_dev_loop n' (S i) sub_dev (sub_dev_case v mask)
      end
  end.

(** [adv_ec_parse_prop].  The two property reads are the environment:
    [read_nb] is the return value of [device_property_read_u32] and the
    value it stored in [nb]; [read_sub_dev nb] is the return value of
    [device_property_read_u32_array] asked for [nb] elements and the
    elements it stored.  The local array has [ADVEC_SUBDEV_MAX] elements:
    when more are stored the call has written past it and the result is
    [None], as it is when the loop reads an element that was not stored. *)
Definition adv_ec_parse_prop (read_nb : Z * Z) (read_sub_dev : Z -> Z * list Z)
  (pdata : sub_dev_data) : option (Z * sub_dev_data) :=
  let '(ret, nb) := read_nb in
  if ret <? 0 then Some (ret, pdata)
  else
    let pdata := mkSubDev nb (sub_dev_mask pdata) in
    let '(ret, sub_dev) := read_sub_dev nb in
    if ret <? 0 then Some (ret, pdata)
    else if ADVEC_SUBDEV_MAX <? Z.of_nat (length sub_dev) then None
    else
      match sub_dev_loop (Z.to_nat nb) 0 sub_dev (sub_dev_mask pdata) with
      | None => None
      | Some mask => Some (0, mkSubDev nb mask)
      end.

(** ** Further simulated controllers *)

(** A controller whose input buffer is full whenever it is asked. *)
Definition jammed (ec : controller) : Prop :=
  forall c, ibf_full (uchar (fst (ctl_inb ec EC_COMMAND_PORT c))).

(** No handshake wait can succeed: the retry budget is empty, or the input
    buffer never drains. *)
Definition never_ready (hdr : ec_header) (ec : controller) : Prop :=
  EC_MAX_TIMEOUT_COUNT hdr <= 0 \/ jammed ec.

Definition jammed_ec : controller :=
  {| ctl_state := unit;
     ctl_inb := fun p _ =>
       (match p with EC_COMMAND_PORT => 0x02 | EC_STATUS_PORT => 0xFF end, tt);
     ctl_outb := fun _ _ _ => tt |}.

Definition jammed_boot : world jammed_ec := boot (ec := jammed_ec) tt.

Definition echo_boot (hdr : ec_header) (cells : Z -> Z) : world (echo_ram hdr) :=
  boot (ec := echo_ram hdr) (mkRam cells RamIdle None).

(** ** Further specifications *)

(** [got] is [full] cut short: something of [full] is missing. *)
Definition cut_short (full got : list event) : Prop :=
  exists rest, rest <> [] /\ full = got ++ rest.

(** A protocol that only writes: it returns 0 after the exchange [full], or
    [-ETIMEDOUT] after a part of it; it never reads the data port. *)
Definition write_protocol {ec} (full : list event)
  (w : world ec) (r : Z) (w' : world ec) : Prop :=
  exists evs, transaction w w' evs /\ status_reads evs = [] /\
    ((r = 0 /\ exchange evs = full)
     \/ (r = - ETIMEDOUT /\ cut_short full (exchange evs))).

(** A protocol that writes [setup] and reads one byte: it returns 0 and
    the byte read after the exchange [setup], or [-ETIMEDOUT] and
    [on_failure] after [setup] or a part of it, without reading the data
    port. *)
Definition read_protocol {ec} (setup : list event) (on_failure : Z)
  (w : world ec) (r : Z * Z) (w' : world ec) : Prop :=
  exists evs, transaction w w' evs /\
    ((fst r = 0 /\ 0 <= snd r < 256 /\
      exchange evs = setup ++ [EvIn EC_STATUS_PORT (snd r)])
     \/
     (fst r = - ETIMEDOUT /\ snd r = on_failure /\
      status_reads evs = [] /\ exchange evs `prefix_of` setup)).

(** The selection of a GPIO pin *)
Definition gpio_select (hdr : ec_header) (PinNumber : Z) : list event :=
  [EvOut (uchar (EC_GPIO_INDEX_WRITE hdr)) EC_COMMAND_PORT;
   EvOut (uchar PinNumber) EC_STATUS_PORT].

(** A GPIO read with opcode [op]: 0 and the byte read when the pin was
    accepted, -1 when the controller answered 0xFF, [-ETIMEDOUT] when a
    wait failed, which is never after the answer 0xFF; the output is only
    written on success. *)
Definition gpio_read_protocol {ec} (hdr : ec_header) (op PinNumber pvalue : Z)
  (w : world ec) (r : Z * Z) (w' : world ec) : Prop :=
  exists evs, transaction w w' evs /\
    ((fst r = 0 /\ 0 <= snd r < 256 /\
      exists echo, echo <> 0xFF /\
        exchange evs = gpio_select hdr PinNumber
                         ++ [EvIn EC_STATUS_PORT echo;
                             EvOut (uchar op) EC_COMMAND_PORT;
                             EvIn EC_STATUS_PORT (snd r)])
     \/
     (fst r = -1 /\ snd r = pvalue /\
      exchange evs = gpio_select hdr PinNumber ++ [EvIn EC_STATUS_PORT 0xFF])
     \/
     (fst r = - ETIMEDOUT /\ snd r = pvalue /\
      exists echo, echo <> 0xFF /\
        exchange evs `prefix_of`
          gpio_select hdr PinNumber
            ++ [EvIn EC_STATUS_PORT echo; EvOut (uchar op) EC_COMMAND_PORT])).

(** A GPIO write with opcode [op]: the value is written last, and only
    when the pin was accepted and no wait failed. *)
Definition gpio_write_protocol {ec} (hdr : ec_header) (op PinNumber value : Z)
  (w : world ec) (r : Z) (w' : world ec) : Prop :=
  exists evs, transaction w w' evs /\
    ((r = 0 /\
      exists echo, echo <> 0xFF /\
        exchange evs = gpio_select hdr PinNumber
                         ++ [EvIn EC_STATUS_PORT echo;
                             EvOut (uchar op) EC_COMMAND_PORT;
                             EvOut (uchar value) EC_STATUS_PORT])
     \/
     (r = -1 /\
      exchange evs = gpio_select hdr PinNumber ++ [EvIn EC_STATUS_PORT 0xFF])
     \/
     (r = - ETIMEDOUT /\
      exists echo, echo <> 0xFF /\
        exchange evs `prefix_of`
          gpio_select hdr PinNumber
            ++ [EvIn EC_STATUS_PORT echo; EvOut (uchar op) EC_COMMAND_PORT])).

(** The results of [read_ad_value]: an error code, which is negative, or a
    sample, which is not and comes with three reads of the data port.  The
    code is -1 exactly when the only byte read is 0xFF: a timeout never
    follows that answer. *)
Definition ad_result {ec} (w : world ec) (r : Z) (w' : world ec) : Prop :=
  exists evs, trace w' = trace w ++ evs /\
    ((r = - ETIMEDOUT /\ (length (status_reads evs) < 3)%nat /\
      head (status_reads evs) <> Some 0xFF)
     \/ (r = -1 /\ status_reads evs = [0xFF])
     \/ (0 <= r <= 1023 * 255 * 100 /\ length (status_reads evs) = 3%nat)).

(** A call that gave up at its first wait: [-ETIMEDOUT], nothing written,
    no data read. *)
Definition gives_up {ec} (w : world ec) (r : Z) (w' : world ec) : Prop :=
  r = - ETIMEDOUT /\ lock_held w' = false /\
  exists evs, trace w' = trace w ++ evs /\ exchange evs = [].

(** The completion poll makes at most [attempts] reads of the protocol
    cell; it returns 0 at the first one that succeeds and [-ETIMEDOUT]
    when all of them failed. *)
Definition poll_attempts {ec} (attempts : nat)
  (w : world ec) (r : Z) (w' : world ec) : Prop :=
  exists evs, trace w' = trace w ++ evs /\
    ((r = 0 /\ (1 <= lock_count evs <= attempts)%nat /\
      exists p, status_reads evs = [p])
     \/
     (r = - ETIMEDOUT /\ lock_count evs = attempts /\ status_reads evs = [])).

(** The writes that set up an SMBus transaction, in order: channel, slave
    address, register, the data byte of a write, and the protocol code
    that starts the transaction. *)
Definition smbus_setup (hdr : ec_header) (Channel Address Register : Z)
  (Data : option Z) (mode : Z) : list event :=
  [EvOut (uchar (EC_SMBUS_CHANNEL hdr)) EC_STATUS_PORT;
   EvOut (uchar Channel) EC_STATUS_PORT;
   EvOut (uchar (EC_SMBUS_SLV_ADDR hdr)) EC_STATUS_PORT;
   EvOut (uchar Address) EC_STATUS_PORT;
   EvOut (uchar (EC_SMBUS_CMD hdr)) EC_STATUS_PORT;
   EvOut (uchar Register) EC_STATUS_PORT]
  ++ match Data with
     | Some d => [EvOut (uchar (EC_SMBUS_DATA hdr)) EC_STATUS_PORT;
                  EvOut (uchar d) EC_STATUS_PORT]
     | None => []
     end
  ++ [EvOut (uchar (EC_SMBUS_PROTOCOL hdr)) EC_STATUS_PORT;
      EvOut (uchar mode) EC_STATUS_PORT].

(** An SMBus call that read the data port at all had written its whole
    setup first, in order. *)
Definition setup_first (setup : list event) (evs : list event) : Prop :=
  status_reads evs <> [] -> setup `prefix_of` data_traffic evs.

(** What a byte read does to its request and what it returns. *)
Definition smbus_read_byte_full (hdr : ec_header) {ec}
  (req : EC_SMBUS_READ_BYTE.t)
  (w : world ec) (r : Z * option EC_SMBUS_READ_BYTE.t) (w' : world ec) : Prop :=
  lock_held w' = false /\ stray_unlocks w' = stray_unlocks w /\
  exists evs, trace w' = trace w ++ evs /\
    (fst r = 0 \/ fst r = - ETIMEDOUT) /\
    (fst r <> 0 -> snd r = Some req) /\
    (snd r = Some req \/
     exists d, snd r = Some (EC_SMBUS_READ_BYTE.set_Data d req)) /\
    setup_first
      (smbus_setup hdr (EC_SMBUS_READ_BYTE.Channel req)
         (EC_SMBUS_READ_BYTE.Address req) (EC_SMBUS_READ_BYTE.Register req)
         None (SMBUS_BYTE_READ hdr)) evs /\
    (forall p s d, status_reads evs = [p; s; d] ->
       s = 0x80 /\ r = (0, Some (EC_SMBUS_READ_BYTE.set_Data d req)) /\
       exists pre,
         data_traffic evs =
           pre ++ [EvOut (uchar (EC_SMBUS_STATUS hdr)) EC_STATUS_PORT;
                   EvIn EC_STATUS_PORT s;
                   EvOut (uchar (EC_SMBUS_DATA hdr)) EC_STATUS_PORT;
                   EvIn EC_STATUS_PORT d]).

Definition smbus_read_word_full (hdr : ec_header) {ec}
  (req : EC_SMBUS_WORD_DATA.t)
  (w : world ec) (r : Z * option EC_SMBUS_WORD_DATA.t) (w' : world ec) : Prop :=
  lock_held w' = false /\ stray_unlocks w' = stray_unlocks w /\
  exists evs, trace w' = trace w ++ evs /\
    (fst r = 0 \/ fst r = - ETIMEDOUT) /\
    (fst r <> 0 -> snd r = Some req) /\
    (snd r = Some req \/
     exists v, snd r = Some (EC_SMBUS_WORD_DATA.set_Value v req)) /\
    setup_first
      (smbus_setup hdr (EC_SMBUS_WORD_DATA.Channel req)
         (EC_SMBUS_WORD_DATA.Address req) (EC_SMBUS_WORD_DATA.Register req)
         None (SMBUS_WORD_READ hdr)) evs.

Definition smbus_write_byte_full (hdr : ec_header) {ec}
  (req : EC_SMBUS_WRITE_BYTE.t)
  (w : world ec) (r : Z) (w' : world ec) : Prop :=
  exists evs, trace w' = trace w ++ evs /\
    (r = 0 \/ r = - ETIMEDOUT) /\
    (length (status_reads evs) <= 2)%nat /\
    setup_first
      (smbus_setup hdr (EC_SMBUS_WRITE_BYTE.Channel req)
         (EC_SMBUS_WRITE_BYTE.Address req) (EC_SMBUS_WRITE_BYTE.Register req)
         (Some (EC_SMBUS_WRITE_BYTE.Data req)) (SMBUS_BYTE_WRITE hdr)) evs.

(** The table after an enumeration, however it ended: the items that were
    read in full, then undefined entries. *)
Definition table_of_items (n : nat) (items : list item) : list Dynamic_Tab :=
  map item_entry items ++ replicate (n - length items) undefined_entry.

Definition scan_result {ec} (n : nat) (stored : list item -> list Dynamic_Tab)
  (w : world ec) (r : Z * list Dynamic_Tab) (w' : world ec) : Prop :=
  exists evs, trace w' = trace w ++ evs /\
    exists items partial,
      status_reads evs = item_reads items ++ partial /\
      (length partial < 3)%nat /\ (length items <= n)%nat /\
      snd r = stored items /\
      (fst r = 0 \/ fst r = - EINVAL \/ fst r = - ETIMEDOUT) /\
      (fst r = 0 -> partial = [] /\ length items = n) /\
      (fst r = - EINVAL -> (length items < n)%nat /\
                           (partial = [0xFF] \/ exists e, partial = [e; 0xFF])).

(** ** Port protocols as scripts *)

(** The events of a handshake wait that succeeds: fewer than
    [EC_MAX_TIMEOUT_COUNT] polls of the command port that say to keep
    waiting, each followed by the delay, then the poll that ends the wait. *)
Definition wait_passes (keep_waiting : Z -> Prop) (hdr : ec_header)
  (evs : list event) : Prop :=
  exists busy v,
    Forall keep_waiting busy /\
    (length busy < Z.to_nat (EC_MAX_TIMEOUT_COUNT hdr))%nat /\
    ~ keep_waiting v /\
    evs = busy_polls (EC_UDELAY_TIME hdr) busy ++ [EvIn EC_COMMAND_PORT v].

(** The events of a handshake wait that fails: [EC_MAX_TIMEOUT_COUNT] polls,
    all of which say to keep waiting, each followed by the delay. *)
Definition wait_fails (keep_waiting : Z -> Prop) (hdr : ec_header)
  (evs : list event) : Prop :=
  exists busy,
    Forall keep_waiting busy /\
    length busy = Z.to_nat (EC_MAX_TIMEOUT_COUNT hdr) /\
    evs = busy_polls (EC_UDELAY_TIME hdr) busy.

(** What a port protocol does between taking the gate and releasing it:
    [wait_ibf] or [wait_obf] with a jump to the error label on failure,
    [outb], [inb] of the data port, and [inb] of the data port followed by
    the test against the not-found answer 0xFF. *)
Inductive action :=
| WaitIBF
| WaitOBF
| Outb (v : Z) (p : ec_port)
| Inb
| InbEcho.

(** How a protocol ends: all of its script was played, the controller
    answered 0xFF to a selection, or a wait failed. *)
Inductive ending := Completed | NotFound | TimedOut.

Definition ending_code (o : ending) : Z :=
  match o with
  | Completed => 0
  | NotFound => -1
  | TimedOut => - ETIMEDOUT
  end.

(** [performs hdr script evs reads o]: [evs] are the events of a protocol
    that, holding the gate, plays [script] from its first action on and
    releases the gate as its last event.  The script is played in order;
    it stops at the first wait that fails ([TimedOut]) and at an echo that
    reads 0xFF ([NotFound]), and nothing but the release follows either.
    [reads] are the values read from the data port. *)
Inductive performs (hdr : ec_header)
  : list action -> list event -> list Z -> ending -> Prop :=
| performs_all :
    performs hdr [] [EvUnlock] [] Completed
| performs_ibf_fails rest polls :
    wait_fails ibf_full hdr polls ->
    performs hdr (WaitIBF :: rest) (polls ++ [EvUnlock]) [] TimedOut
| performs_ibf_passes rest polls evs reads o :
    wait_passes ibf_full hdr polls ->
    performs hdr rest evs reads o ->
    performs hdr (WaitIBF :: rest) (polls ++ evs) reads o
| performs_obf_fails rest polls :
    wait_fails obf_empty hdr polls ->
    performs hdr (WaitOBF :: rest) (polls ++ [EvUnlock]) [] TimedOut
| performs_obf_passes rest polls evs reads o :
    wait_passes obf_empty hdr polls ->
    performs hdr rest evs reads o ->
    performs hdr (WaitOBF :: rest) (polls ++ evs) reads o
| performs_outb v p rest evs reads o :
    performs hdr rest evs reads o ->
    performs hdr (Outb v p :: rest) (EvOut (uchar v) p :: evs) reads o
| performs_inb v rest evs reads o :
    performs hdr rest evs reads o ->
    performs hdr (Inb :: rest) (EvIn EC_STATUS_PORT v :: evs) (v :: reads) o
| performs_not_found rest :
    performs hdr (InbEcho :: rest) [EvIn EC_STATUS_PORT 0xFF; EvUnlock] [0xFF]
      NotFound
| performs_echo v rest evs reads o :
    v <> 0xFF ->
    performs hdr rest evs reads o ->
    performs hdr (InbEcho :: rest) (EvIn EC_STATUS_PORT v :: evs) (v :: reads) o.

(** A call from [w] to [w'] that takes the gate, plays [script] and
    releases the gate; the gate is free afterwards and was not released
    while free.  [reads] are all the data-port reads of the call. *)
Definition plays {ec} (hdr : ec_header) (script : list action)
  (w w' : world ec) (reads : list Z) (o : ending) : Prop :=
  lock_held w' = false /\ stray_unlocks w' = stray_unlocks w /\
  exists body, trace w' = trace w ++ EvLock :: body /\
               performs hdr script body reads o /\
               status_reads body = reads.

(** A protocol that returns a code only: 0 when the whole script was
    played, -1 after the answer 0xFF, [-ETIMEDOUT] after a failed wait. *)
Definition write_played {ec} (hdr : ec_header) (script : list action)
  (w : world ec) (r : Z) (w' : world ec) : Prop :=
  exists reads o, plays hdr script w w' reads o /\ r = ending_code o.

(** A protocol with an output: the code as above; the output is the last
    byte read when the whole script was played and [on_failure]
    otherwise. *)
Definition read_played {ec} (hdr : ec_header) (script : list action)
  (on_failure : Z) (w : world ec) (r : Z * Z) (w' : world ec) : Prop :=
  exists reads o, plays hdr script w w' reads o /\
    fst r = ending_code o /\
    match o with
    | Completed => last reads = Some (snd r)
    | NotFound | TimedOut => snd r = on_failure
    end.

(** The two steps that open every protocol: the opcode to the command
    port, then the argument to the data port, each after [wait_ibf]. *)
Definition send (op arg : Z) : list action :=
  [WaitIBF; Outb op EC_COMMAND_PORT; WaitIBF; Outb arg EC_STATUS_PORT].

(** A command that is answered by one byte. *)
Definition fetch (op : Z) : list action :=
  [WaitIBF; Outb op EC_COMMAND_PORT; WaitOBF; Inb].

Definition read_ad_value_script (hdr : ec_header) (hwpin : Z) : list action :=
  send (EC_AD_INDEX_WRITE hdr) hwpin ++ [WaitOBF; InbEcho]
  ++ fetch (EC_AD_LSB_READ hdr) ++ fetch (EC_AD_MSB_READ hdr).

Definition gpio_read_script (hdr : ec_header) (op PinNumber : Z) : list action :=
  send (EC_GPIO_INDEX_WRITE hdr) PinNumber ++ [WaitOBF; InbEcho] ++ fetch op.

Definition gpio_write_script (hdr : ec_header) (op PinNumber value : Z)
  : list action :=
  send (EC_GPIO_INDEX_WRITE hdr) PinNumber ++ [WaitOBF; InbEcho]
  ++ send op value.

(** [read_ad_value]: the sample when the whole script was played, computed
    from the second and the third byte read; an error code otherwise. *)
Definition sample_played {ec} (hdr : ec_header) (hwpin multi : Z)
  (w : world ec) (r : Z) (w' : world ec) : Prop :=
  exists reads o, plays hdr (read_ad_value_script hdr hwpin) w w' reads o /\
    match o with
    | Completed =>
        exists e L H, reads = [e; L; H] /\ e <> 0xFF /\
          r = Z.land (Z.lor (Z.shiftl H 8) L) 0x3FF * multi * 100
    | NotFound => r = -1
    | TimedOut => r = - ETIMEDOUT
    end.

(** ** Rules for running the driver *)

Section Rules.

Context {ec : controller}.
Implicit Types w : world ec.

Lemma wp_ret {A} (a : A) w (Q : A -> world ec -> Prop) :
  Q a w -> wp (Ret a) w Q.
Proof. intros HQ. exists a, w. split; [reflexivity | exact HQ]. Qed.

Lemma wp_bind {A B} (m : M ec A) (k : A -> M ec B) w (Q : B -> world ec -> Prop) :
  wp m w (fun a w' => wp (k a) w' Q) -> wp (bind m k) w Q.
Proof.
  intros (a & w1 & Hm & b & w2 & Hk & HQ).
  exists b, w2. split; [| exact HQ].
  unfold bind. rewrite Hm. exact Hk.
Qed.

Lemma wp_mono {A} (m : M ec A) w (Q Q' : A -> world ec -> Prop) :
  wp m w Q -> (forall a w', Q a w' -> Q' a w') -> wp m w Q'.
Proof. intros (a & w' & Hm & HQ) H. exists a, w'. split; [exact Hm | apply H, HQ]. Qed.

Lemma wp_conj {A} (m : M ec A) w (P Q : A -> world ec -> Prop) :
  wp m w P -> wp m w Q -> wp m w (fun a w' => P a w' /\ Q a w').
Proof.
  intros (a & w1 & Hm & HP) (b & w2 & Hm' & HQ).
  rewrite Hm in Hm'. injection Hm' as <- <-.
  exists a, w1. split; [exact Hm | split; assumption].
Qed.

Lemma wp_or_goto {A} (m : M ec Z) (label : Z -> M ec A) (k : M ec A) w
  (Q : A -> world ec -> Prop) :
  wp m w (fun r w' => if r =? 0 then wp k w' Q else wp (label r) w' Q) ->
  wp (or_goto m label k) w Q.
Proof.
  intros H. unfold or_goto. apply wp_bind.
  eapply wp_mono; [exact H |]. intros r w' Hr. cbn beta in Hr.
  destruct (r =? 0); exact Hr.
Qed.

Lemma uchar_range v : 0 <= uchar v < 256.
Proof. unfold uchar. apply Z.mod_pos_bound. lia. Qed.

Lemma uchar_small v : 0 <= v < 256 -> uchar v = v.
Proof. intros H. unfold uchar. apply Z.mod_small, H. Qed.

Lemma wp_inb p w (Q : Z -> world ec -> Prop) :
  (forall v c, 0 <= v < 256 ->
     Q v (mkWorld c (lock_held w) (stray_unlocks w) (trace w ++ [EvIn p v]))) ->
  wp (inb p) w Q.
Proof.
  intros H. eexists _, _. split; [reflexivity |].
  apply H, uchar_range.
Qed.

Lemma wp_outb v p w (Q : unit -> world ec -> Prop) :
  (forall c, Q tt (mkWorld c (lock_held w) (stray_unlocks w)
                     (trace w ++ [EvOut (uchar v) p]))) ->
  wp (outb v p) w Q.
Proof. intros H. eexists _, _. split; [reflexivity | apply H]. Qed.

Lemma wp_udelay us w (Q : unit -> world ec -> Prop) :
  Q tt (mkWorld (ctl w) (lock_held w) (stray_unlocks w) (trace w ++ [EvDelay us])) ->
  wp (udelay us) w Q.
Proof. intros H. eexists _, _. split; [reflexivity | apply H]. Qed.

Lemma wp_mutex_lock w (Q : unit -> world ec -> Prop) :
  lock_held w = false ->
  Q tt (mkWorld (ctl w) true (stray_unlocks w) (trace w ++ [EvLock])) ->
  wp mutex_lock w Q.
Proof.
  intros Hfree H. eexists _, _. split; [| exact H].
  unfold mutex_lock. rewrite Hfree. reflexivity.
Qed.

Lemma wp_mutex_unlock w (Q : unit -> world ec -> Prop) :
  lock_held w = true ->
  Q tt (mkWorld (ctl w) false (stray_unlocks w) (trace w ++ [EvUnlock])) ->
  wp mutex_unlock w Q.
Proof.
  intros Hheld H. eexists _, _. split; [| exact H].
  unfold mutex_unlock. rewrite Hheld. reflexivity.
Qed.

Lemma wp_stray_unlock w (Q : unit -> world ec -> Prop) :
  lock_held w = false ->
  Q tt (mkWorld (ctl w) false (S (stray_unlocks w)) (trace w ++ [EvUnlock])) ->
  wp mutex_unlock w Q.
Proof.
  intros Hfree H. eexists _, _. split; [| exact H].
  unfold mutex_unlock. rewrite Hfree. reflexivity.
Qed.

End Rules.

(** ** Facts about traces *)

Section TraceFacts.

Implicit Types evs rest : list event.

Lemma status_reads_app a b : status_reads (a ++ b) = status_reads a ++ status_reads b.
Proof.
  induction a as [| [[] v | v p | us | |] a IH]; cbn; rewrite ?IH; reflexivity.
Qed.

Lemma data_traffic_app a b : data_traffic (a ++ b) = data_traffic a ++ data_traffic b.
Proof.
  induction a as [| [[] v | v [] | us | |] a IH]; cbn; rewrite ?IH; reflexivity.
Qed.

Lemma status_reads_data_traffic evs : status_reads (data_traffic evs) = status_reads evs.
Proof.
  induction evs as [| [[] v | v [] | us | |] a IH]; cbn; rewrite ?IH; reflexivity.
Qed.

Lemma handshake_app a b : handshake a -> handshake b -> handshake (a ++ b).
Proof.
  unfold handshake. intros Ha Hb. rewrite forallb_app, Ha, Hb. reflexivity.
Qed.

Lemma handshake_busy_polls us busy : handshake (busy_polls us busy).
Proof. induction busy as [| v busy IH]; [reflexivity | exact IH]. Qed.

Lemma handshake_cons e evs : handshake (e :: evs) -> is_handshake e = true /\ handshake evs.
Proof. unfold handshake. cbn. intros H. apply andb_true_iff in H. exact H. Qed.

(** A handshake wait is invisible to the readers of the data port and of
    the gate. *)
Ltac skip_handshake evs :=
  let e := fresh "e" in
  let IH := fresh "IH" in
  let H := fresh "H" in
  let He := fresh "He" in
  induction evs as [| e evs IH]; [reflexivity |];
  intros H; apply handshake_cons in H; destruct H as [He H];
  destruct e as [[] ? | ? ? | ? | |]; try discriminate He; cbn; auto.

Lemma skip_status_reads evs rest :
  handshake evs -> status_reads (evs ++ rest) = status_reads rest.
Proof. skip_handshake evs. Qed.

Lemma skip_data_traffic evs rest :
  handshake evs -> data_traffic (evs ++ rest) = data_traffic rest.
Proof. skip_handshake evs. Qed.

Lemma skip_data_read evs sel k rest :
  handshake evs -> data_read sel k (evs ++ rest) = data_read sel k rest.
Proof. skip_handshake evs. Qed.

Lemma skip_exchange evs rest :
  handshake evs -> exchange (evs ++ rest) = exchange rest.
Proof. skip_handshake evs. Qed.

Lemma skip_gate_body evs rest :
  handshake evs -> gate_body (evs ++ rest) = gate_body rest.
Proof. skip_handshake evs. Qed.

Lemma gate_cycle_counts evs :
  gate_cycle evs = true ->
  head evs = Some EvLock /\ last evs = Some EvUnlock /\
  lock_count evs = 1%nat /\ unlock_count evs = 1%nat.
Proof.
  destruct evs as [| [| | | |] body]; try discriminate. cbn [gate_cycle].
  intros H. split; [reflexivity |]. cbn [lock_count unlock_count].
  assert (last body = Some EvUnlock /\ lock_count body = O /\ unlock_count body = 1%nat)
    as (Hlast & Hl & Hu).
  { induction body as [| e body IH]; [discriminate |].
    destruct e as [p v | v p | us | |]; cbn in H |- *; try discriminate H.
    1-3: destruct (IH H) as (Hlast & Hl & Hu); repeat split; try assumption;
         destruct body; [discriminate | exact Hlast].
    destruct body; [| discriminate]. repeat split. }
  repeat split; try congruence.
  destruct body; [discriminate | exact Hlast].
Qed.

End TraceFacts.

(** ** Handshake primitives *)

Section Handshake.

Context (hdr : ec_header) {ec : controller}.
Implicit Types w : world ec.

Lemma wait_spec_step (keep_waiting : Z -> Prop) us n v c w r w' :
  keep_waiting v ->
  wait_spec keep_waiting us n
    (mkWorld c (lock_held w) (stray_unlocks w)
       ((trace w ++ [EvIn EC_COMMAND_PORT v]) ++ [EvDelay us])) r w' ->
  wait_spec keep_waiting us (S n) w r w'.
Proof.
  intros Hv (Hl & Hs & busy & Hbusy & H). cbn in Hl, Hs, H.
  split; [exact Hl |]. split; [exact Hs |].
  exists (v :: busy). split; [constructor; assumption |].
  destruct H as [(-> & Hlen & v' & Hv' & Htr) | (-> & Hlen & Htr)]; [left | right].
  - split; [reflexivity |]. split; [cbn; lia |].
    exists v'. split; [exact Hv' |].
    rewrite Htr. cbn. rewrite <- !app_assoc. reflexivity.
  - split; [reflexivity |]. split; [cbn; lia |].
    rewrite Htr. cbn. rewrite <- !app_assoc. reflexivity.
Qed.

Lemma wait_spec_stop (keep_waiting : Z -> Prop) us n v c w :
  ~ keep_waiting v ->
  wait_spec keep_waiting us (S n) w 0
    (mkWorld c (lock_held w) (stray_unlocks w) (trace w ++ [EvIn EC_COMMAND_PORT v])).
Proof.
  intros Hv. split; [reflexivity |]. split; [reflexivity |].
  exists []. split; [constructor |]. left.
  split; [reflexivity |]. split; [cbn; lia |].
  exists v. split; [exact Hv | reflexivity].
Qed.

Lemma wait_spec_timeout (keep_waiting : Z -> Prop) us w :
  wait_spec keep_waiting us 0 w (- ETIMEDOUT) w.
Proof.
  split; [reflexivity |]. split; [reflexivity |].
  exists []. split; [constructor |]. right.
  split; [reflexivity |]. split; [reflexivity |].
  cbn. rewrite app_nil_r. reflexivity.
Qed.

Lemma wait_ibf_loop_spec n : forall w,
  wp (wait_ibf_loop hdr n) w (wait_spec ibf_full (EC_UDELAY_TIME hdr) n w).
Proof.
  induction n as [| n IH]; intros w; cbn [wait_ibf_loop].
  - apply wp_ret, wait_spec_timeout.
  - apply wp_bind, wp_inb. intros v c _.
    destruct (Z.land v 2 =? 0) eqn:E.
    + apply wp_ret, wait_spec_stop. unfold ibf_full. lia.
    + apply wp_bind, wp_udelay. cbn [ctl lock_held stray_unlocks trace].
      eapply wp_mono; [apply IH |].
      intros r w' H. eapply wait_spec_step; [| exact H].
      unfold ibf_full. lia.
Qed.

Lemma wait_obf_loop_spec n : forall w,
  wp (wait_obf_loop hdr n) w (wait_spec obf_empty (EC_UDELAY_TIME hdr) n w).
Proof.
  induction n as [| n IH]; intros w; cbn [wait_obf_loop].
  - apply wp_ret, wait_spec_timeout.
  - apply wp_bind, wp_inb. intros v c _.
    destruct (Z.land v 1 =? 0) eqn:E; cbn [negb].
    + apply wp_bind, wp_udelay. cbn [ctl lock_held stray_unlocks trace].
      eapply wp_mono; [apply IH |].
      intros r w' H. eapply wait_spec_step; [| exact H].
      unfold obf_empty. lia.
    + apply wp_ret, wait_spec_stop. unfold obf_empty. lia.
Qed.

Lemma wait_spec_handshake (keep_waiting : Z -> Prop) us n w r w' :
  wait_spec keep_waiting us n w r w' ->
  exists c evs,
    w' = mkWorld c (lock_held w) (stray_unlocks w) (trace w ++ evs) /\
    handshake evs /\ (r = 0 \/ r = - ETIMEDOUT).
Proof.
  intros (Hl & Hs & busy & _ & H).
  destruct w' as [c' l' s' t']. cbn in Hl, Hs, H. subst l' s'.
  destruct H as [(-> & _ & v & _ & ->) | (-> & _ & ->)].
  - exists c', (busy_polls us busy ++ [EvIn EC_COMMAND_PORT v]).
    split; [reflexivity |]. split; [| left; reflexivity].
    apply handshake_app; [apply handshake_busy_polls | reflexivity].
  - exists c', (busy_polls us busy).
    split; [reflexivity |]. split; [| right; reflexivity].
    apply handshake_busy_polls.
Qed.

Lemma wp_wait_ibf w (Q : Z -> world ec -> Prop) :
  (forall c evs r, handshake evs -> r = 0 \/ r = - ETIMEDOUT ->
     Q r (mkWorld c (lock_held w) (stray_unlocks w) (trace w ++ evs))) ->
  wp (wait_ibf hdr) w Q.
Proof.
  intros H. eapply wp_mono; [apply wait_ibf_loop_spec |].
  intros r w' Hspec. apply wait_spec_handshake in Hspec.
  destruct Hspec as (c & evs & -> & Hh & Hr). apply H; assumption.
Qed.

Lemma wp_wait_obf w (Q : Z -> world ec -> Prop) :
  (forall c evs r, handshake evs -> r = 0 \/ r = - ETIMEDOUT ->
     Q r (mkWorld c (lock_held w) (stray_unlocks w) (trace w ++ evs))) ->
  wp (wait_obf hdr) w Q.
Proof.
  intros H. eapply wp_mono; [apply wait_obf_loop_spec |].
  intros r w' Hspec. apply wait_spec_handshake in Hspec.
  destruct Hspec as (c & evs & -> & Hh & Hr). apply H; assumption.
Qed.

Lemma wp_run_wait_ibf {A} (label : Z -> M ec A) (k : M ec A) w
  (Q : A -> world ec -> Prop) :
  (forall c evs, handshake evs ->
     wp k (mkWorld c (lock_held w) (stray_unlocks w) (trace w ++ evs)) Q) ->
  (forall c evs, handshake evs ->
     wp (label (- ETIMEDOUT))
       (mkWorld c (lock_held w) (stray_unlocks w) (trace w ++ evs)) Q) ->
  wp (or_goto (wait_ibf hdr) label k) w Q.
Proof.
  intros Hk Hl. apply wp_or_goto, wp_wait_ibf.
  intros c evs r Hh [-> | ->]; [apply Hk | apply Hl]; exact Hh.
Qed.

Lemma wp_run_wait_obf {A} (label : Z -> M ec A) (k : M ec A) w
  (Q : A -> world ec -> Prop) :
  (forall c evs, handshake evs ->
     wp k (mkWorld c (lock_held w) (stray_unlocks w) (trace w ++ evs)) Q) ->
  (forall c evs, handshake evs ->
     wp (label (- ETIMEDOUT))
       (mkWorld c (lock_held w) (stray_unlocks w) (trace w ++ evs)) Q) ->
  wp (or_goto (wait_obf hdr) label k) w Q.
Proof.
  intros Hk Hl. apply wp_or_goto, wp_wait_obf.
  intros c evs r Hh [-> | ->]; [apply Hk | apply Hl]; exact Hh.
Qed.

Lemma wait_spec_played (keep_waiting : Z -> Prop) w r w' :
  wait_spec keep_waiting (EC_UDELAY_TIME hdr)
    (Z.to_nat (EC_MAX_TIMEOUT_COUNT hdr)) w r w' ->
  exists c evs,
    w' = mkWorld c (lock_held w) (stray_unlocks w) (trace w ++ evs) /\
    ((r = 0 /\ wait_passes keep_waiting hdr evs)
     \/ (r = - ETIMEDOUT /\ wait_fails keep_waiting hdr evs)).
Proof.
  intros (Hl & Hs & busy & Hbusy & H).
  destruct w' as [c' l' s' t']. cbn in Hl, Hs, H. subst l' s'.
  destruct H as [(-> & Hlen & v & Hv & ->) | (-> & Hlen & ->)].
  - exists c', (busy_polls (EC_UDELAY_TIME hdr) busy ++ [EvIn EC_COMMAND_PORT v]).
    split; [reflexivity |]. left. split; [reflexivity |].
    exists busy, v. auto.
  - exists c', (busy_polls (EC_UDELAY_TIME hdr) busy).
    split; [reflexivity |]. right. split; [reflexivity |].
    exists busy. auto.
Qed.

Lemma wp_run_wait_ibf_played {A} (label : Z -> M ec A) (k : M ec A) w
  (Q : A -> world ec -> Prop) :
  (forall c evs, wait_passes ibf_full hdr evs ->
     wp k (mkWorld c (lock_held w) (stray_unlocks w) (trace w ++ evs)) Q) ->
  (forall c evs, wait_fails ibf_full hdr evs ->
     wp (label (- ETIMEDOUT))
       (mkWorld c (lock_held w) (stray_unlocks w) (trace w ++ evs)) Q) ->
  wp (or_goto (wait_ibf hdr) label k) w Q.
Proof.
  intros Hk Hl. apply wp_or_goto.
  eapply wp_mono; [apply wait_ibf_loop_spec |].
  intros r w' Hspec. apply wait_spec_played in Hspec.
  destruct Hspec as (c & evs & -> & [[-> H] | [-> H]]);
    [apply Hk | apply Hl]; exact H.
Qed.

Lemma wp_run_wait_obf_played {A} (label : Z -> M ec A) (k : M ec A) w
  (Q : A -> world ec -> Prop) :
  (forall c evs, wait_passes obf_empty hdr evs ->
     wp k (mkWorld c (lock_held w) (stray_unlocks w) (trace w ++ evs)) Q) ->
  (forall c evs, wait_fails obf_empty hdr evs ->
     wp (label (- ETIMEDOUT))
       (mkWorld c (lock_held w) (stray_unlocks w) (trace w ++ evs)) Q) ->
  wp (or_goto (wait_obf hdr) label k) w Q.
Proof.
  intros Hk Hl. apply wp_or_goto.
  eapply wp_mono; [apply wait_obf_loop_spec |].
  intros r w' Hspec. apply wait_spec_played in Hspec.
  destruct Hspec as (c & evs & -> & [[-> H] | [-> H]]);
    [apply Hk | apply Hl]; exact H.
Qed.

End Handshake.

(** C8.  [wait_ibf] polls the command port until the input-buffer-full bit
    (0x02) reads 0 and then returns 0 without a further poll; when the bit
    reads 1 on each of the [EC_MAX_TIMEOUT_COUNT] polls it returns
    [-ETIMEDOUT].  [wait_obf] does the same with the output-buffer-full bit
    (0x01), succeeding when it reads 1 and timing out when it reads 0 on
    every poll of the same budget. *)
Theorem wait_ibf_wait_obf_spec (hdr : ec_header) (ec : controller) (w : world ec) :
  wp (wait_ibf hdr) w
    (wait_spec ibf_full (EC_UDELAY_TIME hdr)
       (Z.to_nat (EC_MAX_TIMEOUT_COUNT hdr)) w)
  /\
  wp (wait_obf hdr) w
    (wait_spec obf_empty (EC_UDELAY_TIME hdr)
       (Z.to_nat (EC_MAX_TIMEOUT_COUNT hdr)) w).
Proof.
  split; [apply wait_ibf_loop_spec | apply wait_obf_loop_spec].
Qed.

(** ** Port protocols *)

(** One step of symbolic execution of a port protocol. *)
Ltac ec_step :=
  cbn [ctl lock_held stray_unlocks trace];
  lazymatch goal with
  | |- wp (or_goto (wait_ibf _) _ _) _ _ =>
      apply wp_run_wait_ibf; intros ? ? ?
  | |- wp (or_goto (wait_obf _) _ _) _ _ =>
      apply wp_run_wait_obf; intros ? ? ?
  | |- wp (bind _ _) _ _ => apply wp_bind
  | |- wp (inb _) _ _ => apply wp_inb; intros ? ? ?
  | |- wp (outb _ _) _ _ => apply wp_outb; intros ?
  | |- wp (udelay _) _ _ => apply wp_udelay
  | |- wp mutex_lock _ _ => apply wp_mutex_lock; [reflexivity |]
  | |- wp mutex_unlock _ _ => apply wp_mutex_unlock; [reflexivity |]
  | |- wp (Ret _) _ _ => apply wp_ret
  | |- wp (if ?c then _ else _) _ _ => destruct c eqn:?
  end.

(** Evaluate the trace readers over the handshake segments of a trace. *)
Ltac ec_read :=
  repeat first
    [ progress cbn [app status_reads data_traffic data_read gate_body gate_cycle
                      port_reads exchange Nat.mul Nat.add]
    | rewrite skip_status_reads by assumption
    | rewrite skip_data_traffic by assumption
    | rewrite skip_data_read by assumption
    | rewrite skip_exchange by assumption
    | rewrite skip_gate_body by assumption ].

(** The final world of a transaction that started in a world with trace
    [t]: supply its events and check the gate. *)
Ltac ec_transaction :=
  cbn [ctl lock_held stray_unlocks trace];
  rewrite <- ?app_assoc;
  eexists; split;
  [ split; [reflexivity |]; split; [ec_read; reflexivity |];
    split; reflexivity
  | ].

Ltac ec_aborts :=
  let s := fresh "s" in
  let post := fresh "post" in
  let H := fresh "H" in
  intros s post; ec_read; intros H;
  try discriminate H;
  injection H as <- -> <-;
  first [ lia | repeat split; reflexivity ].

Section Scripts.

Context (hdr : ec_header) {ec : controller}.

Lemma wait_passes_handshake keep_waiting evs :
  wait_passes keep_waiting hdr evs -> handshake evs.
Proof.
  intros (busy & v & _ & _ & _ & ->).
  apply handshake_app; [apply handshake_busy_polls | reflexivity].
Qed.

Lemma wait_fails_handshake keep_waiting evs :
  wait_fails keep_waiting hdr evs -> handshake evs.
Proof. intros (busy & _ & _ & ->). apply handshake_busy_polls. Qed.

(** The data-port reads of a script are the data-port reads of its
    events: the waits read the command port only. *)
Lemma performs_status_reads script evs reads o :
  performs hdr script evs reads o -> status_reads evs = reads.
Proof.
  induction 1 as [| rest polls Hw | rest polls evs reads o Hw _ IH
                  | rest polls Hw | rest polls evs reads o Hw _ IH
                  | v p rest evs reads o _ IH | v rest evs reads o _ IH
                  | rest | v rest evs reads o Hv _ IH].
  - reflexivity.
  - apply wait_fails_handshake in Hw. rewrite skip_status_reads by exact Hw.
    reflexivity.
  - apply wait_passes_handshake in Hw. rewrite skip_status_reads by exact Hw.
    exact IH.
  - apply wait_fails_handshake in Hw. rewrite skip_status_reads by exact Hw.
    reflexivity.
  - apply wait_passes_handshake in Hw. rewrite skip_status_reads by exact Hw.
    exact IH.
  - cbn [status_reads]. exact IH.
  - cbn [status_reads]. rewrite IH. reflexivity.
  - reflexivity.
  - cbn [status_reads]. rewrite IH. reflexivity.
Qed.

Lemma plays_intro script c c' s t body reads o :
  performs hdr script body reads o ->
  plays hdr script (mkWorld (ec := ec) c false s t)
    (mkWorld c' false s (t ++ EvLock :: body)) reads o.
Proof.
  intros H. split; [reflexivity |]. split; [reflexivity |].
  exists body. split; [reflexivity |]. split; [exact H |].
  eapply performs_status_reads, H.
Qed.

End Scripts.

(** Symbolic execution that keeps what each wait did. *)
Ltac ec_play :=
  cbn [ctl lock_held stray_unlocks trace];
  lazymatch goal with
  | |- wp (or_goto (wait_ibf _) _ _) _ _ =>
      apply wp_run_wait_ibf_played; intros ? ? ?
  | |- wp (or_goto (wait_obf _) _ _) _ _ =>
      apply wp_run_wait_obf_played; intros ? ? ?
  | |- wp (bind _ _) _ _ => apply wp_bind
  | |- wp (inb _) _ _ => apply wp_inb; intros ? ? ?
  | |- wp (outb _ _) _ _ => apply wp_outb; intros ?
  | |- wp mutex_lock _ _ => apply wp_mutex_lock; [reflexivity |]
  | |- wp mutex_unlock _ _ => apply wp_mutex_unlock; [reflexivity |]
  | |- wp (Ret _) _ _ => apply wp_ret
  | |- wp (if ?c then _ else _) _ _ => destruct c eqn:?
  end.

(** Match the events of a path with the script, action by action. *)
Ltac ec_performs :=
  repeat lazymatch goal with
    | |- performs _ [] _ _ _ => apply performs_all
    | H : wait_fails ibf_full _ ?p
      |- performs _ (WaitIBF :: _) (?p ++ _) _ _ =>
        exact (performs_ibf_fails _ _ _ H)
    | H : wait_passes ibf_full _ ?p
      |- performs _ (WaitIBF :: _) (?p ++ _) _ _ =>
        eapply performs_ibf_passes; [exact H |]
    | H : wait_fails obf_empty _ ?p
      |- performs _ (WaitOBF :: _) (?p ++ _) _ _ =>
        exact (performs_obf_fails _ _ _ H)
    | H : wait_passes obf_empty _ ?p
      |- performs _ (WaitOBF :: _) (?p ++ _) _ _ =>
        eapply performs_obf_passes; [exact H |]
    | |- performs _ (Outb _ _ :: _) _ _ _ => apply performs_outb
    | |- performs _ (Inb :: _) _ _ _ => apply performs_inb
    | |- performs _ (InbEcho :: _) [EvIn _ 255; EvUnlock] _ _ =>
        apply performs_not_found
    | H : ?v <> 255 |- performs _ (InbEcho :: _) (EvIn _ ?v :: _) _ _ =>
        eapply performs_echo; [exact H |]
    end.

(** The end of a path: the gate, the events against the script, and then
    what is left of the goal with the ending known. *)
Ltac ec_played :=
  cbn [ctl lock_held stray_unlocks trace]; rewrite <- ?app_assoc; cbn [app];
  repeat match goal with
         | H : (?v =? 255) = true |- _ => apply Z.eqb_eq in H; subst v
         | H : (_ =? 255) = false |- _ => apply Z.eqb_neq in H
         end;
  eexists _, _; split;
  [ apply plays_intro;
    unfold read_ad_value_script, gpio_read_script, gpio_write_script, send, fetch;
    cbn [app];
    ec_performs
  | cbn [fst snd ending_code] ].

Section PortProtocols.

Context (hdr : ec_header) {ec : controller}.
Implicit Types w : world ec.

Lemma land_255 v : 0 <= v < 256 -> Z.land v 0xff = v.
Proof.
  intros H. change 0xff with (Z.ones 8).
  rewrite Z.land_ones by lia. apply Z.mod_small. exact H.
Qed.

Lemma ad_raw_range MSB LSB : 0 <= ad_raw MSB LSB < 1024.
Proof.
  unfold ad_raw. change 0x03FF with (Z.ones 10).
  rewrite Z.land_ones by lia. apply Z.mod_pos_bound. lia.
Qed.

Lemma ad_scale_exact MSB LSB multi :
  int_of_u32 (u32 (u32 (u32 (Z.land (Z.lor (Z.shiftl MSB 8) LSB) 0x03FF)
                        * uchar multi) * 100))
  = ad_raw MSB LSB * uchar multi * 100.
Proof.
  fold (ad_raw MSB LSB).
  pose proof (ad_raw_range MSB LSB) as Hr.
  pose proof (uchar_range multi) as Hm.
  unfold u32, int_of_u32.
  rewrite (Z.mod_small (ad_raw MSB LSB)) by lia.
  rewrite (Z.mod_small (ad_raw MSB LSB * uchar multi)) by nia.
  rewrite (Z.mod_small (ad_raw MSB LSB * uchar multi * 100)) by nia.
  destruct (Z.ltb_spec (ad_raw MSB LSB * uchar multi * 100) (2 ^ 31)) as [_ | Hge];
    [reflexivity | nia].
Qed.

Lemma read_ad_value_ok hwpin multi w :
  lock_held w = false ->
  wp (read_ad_value hdr hwpin multi) w (read_ad_value_spec hdr hwpin multi w).
Proof.
  intros Hfree. destruct w as [c l s t]. cbn in Hfree. subst l.
  unfold read_ad_value, read_ad_value_spec. cbv zeta.
  repeat ec_step.
  all: ec_transaction.
  all: split; [ec_aborts |].
  all: intros e lsb msb; ec_read; intros Heq; try discriminate Heq.
  injection Heq as -> -> ->. split; [apply ad_scale_exact |].
  ec_read. reflexivity.
Qed.

Lemma read_gpio_status_ok PinNumber pvalue w :
  lock_held w = false ->
  wp (read_gpio_status hdr PinNumber pvalue) w
    (fun r w' => gpio_spec PinNumber w (fst r) w').
Proof.
  intros Hfree. destruct w as [c l s t]. cbn in Hfree. subst l.
  unfold read_gpio_status, gpio_spec. cbv zeta.
  repeat ec_step.
  all: ec_transaction; ec_aborts.
Qed.

Lemma write_gpio_status_ok PinNumber value w :
  lock_held w = false ->
  wp (write_gpio_status hdr PinNumber value) w (gpio_spec PinNumber w).
Proof.
  intros Hfree. destruct w as [c l s t]. cbn in Hfree. subst l.
  unfold write_gpio_status, gpio_spec. cbv zeta.
  repeat ec_step.
  all: ec_transaction; ec_aborts.
Qed.

Lemma read_gpio_dir_ok PinNumber pvalue w :
  lock_held w = false ->
  wp (read_gpio_dir hdr PinNumber pvalue) w
    (fun r w' => gpio_spec PinNumber w (fst r) w').
Proof.
  intros Hfree. destruct w as [c l s t]. cbn in Hfree. subst l.
  unfold read_gpio_dir, gpio_spec. cbv zeta.
  repeat ec_step.
  all: ec_transaction; ec_aborts.
Qed.

Lemma write_gpio_dir_ok PinNumber value w :
  lock_held w = false ->
  wp (write_gpio_dir hdr PinNumber value) w (gpio_spec PinNumber w).
Proof.
  intros Hfree. destruct w as [c l s t]. cbn in Hfree. subst l.
  unfold write_gpio_dir, gpio_spec. cbv zeta.
  repeat ec_step.
  all: ec_transaction; ec_aborts.
Qed.

Lemma write_hw_ram_ok addr data w :
  lock_held w = false ->
  wp (write_hw_ram hdr addr data) w (write_hw_ram_spec addr data w).
Proof.
  intros Hfree. destruct w as [c l s t]. cbn in Hfree. subst l.
  unfold write_hw_ram, write_hw_ram_spec. cbv zeta.
  repeat ec_step.
  all: ec_transaction.
  all: split; [ec_read; reflexivity |].
  1: left; split; [reflexivity | ec_read; reflexivity].
  all: right; reflexivity.
Qed.

Lemma read_hw_ram_ok addr data w :
  lock_held w = false ->
  wp (read_hw_ram hdr addr data) w (read_hw_ram_spec addr data w).
Proof.
  intros Hfree. destruct w as [c l s t]. cbn in Hfree. subst l.
  unfold read_hw_ram, read_hw_ram_spec. cbv zeta.
  repeat ec_step.
  all: ec_transaction.
  1: left; cbn [fst snd]; split; [reflexivity |]; split; [assumption |];
     ec_read; reflexivity.
  all: right; cbn [fst snd]; split; [reflexivity |]; split; [reflexivity |];
       ec_read; reflexivity.
Qed.

Lemma read_hw_ram_played addr data w :
  lock_held w = false ->
  wp (read_hw_ram hdr addr data) w
    (read_played hdr
       (send (EC_HW_RAM_READ hdr) addr ++ [WaitOBF; Inb]) data w).
Proof.
  intros Hfree. destruct w as [c l s t]. cbn in Hfree. subst l.
  unfold read_hw_ram, read_played. cbv zeta.
  repeat ec_play.
  all: ec_played; split; reflexivity.
Qed.

Lemma write_hw_ram_played addr data w :
  lock_held w = false ->
  wp (write_hw_ram hdr addr data) w
    (write_played hdr
       (send (EC_HW_RAM_WRITE hdr) addr ++ [WaitIBF; Outb data EC_STATUS_PORT]) w).
Proof.
  intros Hfree. destruct w as [c l s t]. cbn in Hfree. subst l.
  unfold write_hw_ram, write_played. cbv zeta.
  repeat ec_play.
  all: ec_played; reflexivity.
Qed.

Lemma read_ad_value_played hwpin multi w :
  lock_held w = false ->
  wp (read_ad_value hdr hwpin multi) w (sample_played hdr hwpin (uchar multi) w).
Proof.
  intros Hfree. destruct w as [c l s t]. cbn in Hfree. subst l.
  unfold read_ad_value, sample_played. cbv zeta.
  repeat ec_play.
  all: ec_played; try reflexivity.
  eexists _, _, _. split; [reflexivity |]. split; [assumption |].
  apply ad_scale_exact.
Qed.

Lemma read_gpio_status_played PinNumber pvalue w :
  lock_held w = false ->
  wp (read_gpio_status hdr PinNumber pvalue) w
    (read_played hdr (gpio_read_script hdr (EC_GPIO_STATUS_READ hdr) PinNumber)
       pvalue w).
Proof.
  intros Hfree. destruct w as [c l s t]. cbn in Hfree. subst l.
  unfold read_gpio_status, read_played. cbv zeta.
  repeat ec_play.
  all: ec_played; split; reflexivity.
Qed.

Lemma read_gpio_dir_played PinNumber pvalue w :
  lock_held w = false ->
  wp (read_gpio_dir hdr PinNumber pvalue) w
    (read_played hdr (gpio_read_script hdr (EC_GPIO_DIR_READ hdr) PinNumber)
       pvalue w).
Proof.
  intros Hfree. destruct w as [c l s t]. cbn in Hfree. subst l.
  unfold read_gpio_dir, read_played. cbv zeta.
  repeat ec_play.
  all: ec_played; split; reflexivity.
Qed.

Lemma write_gpio_status_played PinNumber value w :
  lock_held w = false ->
  wp (write_gpio_status hdr PinNumber value) w
    (write_played hdr
       (gpio_write_script hdr (EC_GPIO_STATUS_WRITE hdr) PinNumber value) w).
Proof.
  intros Hfree. destruct w as [c l s t]. cbn in Hfree. subst l.
  unfold write_gpio_status, write_played. cbv zeta.
  repeat ec_play.
  all: ec_played; reflexivity.
Qed.

Lemma write_gpio_dir_played PinNumber value w :
  lock_held w = false ->
  wp (write_gpio_dir hdr PinNumber value) w
    (write_played hdr
       (gpio_write_script hdr (EC_GPIO_DIR_WRITE hdr) PinNumber value) w).
Proof.
  intros Hfree. destruct w as [c l s t]. cbn in Hfree. subst l.
  unfold write_gpio_dir, write_played. cbv zeta.
  repeat ec_play.
  all: ec_played; reflexivity.
Qed.

End PortProtocols.

(** ** Dynamic control table *)

Section DynamicTable.

Context (hdr : ec_header) {ec : controller}.
Implicit Types w : world ec.
Implicit Types dym_tbl : list Dynamic_Tab.

Lemma alter_fields_insert d p i dym_tbl :
  alter (set_HWPinNumber p) i (alter (set_DeviceID d) i dym_tbl)
  = <[i := mkDynamic_Tab d p]> dym_tbl.
Proof.
  revert i. induction dym_tbl as [| x l IH]; intros [| i]; cbn; try reflexivity.
  f_equal. apply IH.
Qed.

Lemma dym_tbl_clear_cons n i x dym_tbl :
  dym_tbl_clear n (S i) (x :: dym_tbl) = x :: dym_tbl_clear n i dym_tbl.
Proof.
  revert i x dym_tbl. induction n as [| n IH]; intros i x l; [reflexivity |].
  cbn [dym_tbl_clear]. rewrite !alter_fields_insert. cbn. apply IH.
Qed.

Lemma dym_tbl_clear_all n dym_tbl :
  length dym_tbl = n -> dym_tbl_clear n 0 dym_tbl = replicate n undefined_entry.
Proof.
  revert dym_tbl. induction n as [| n IH]; intros [| x l] Hlen; try discriminate Hlen.
  - reflexivity.
  - cbn [dym_tbl_clear]. rewrite alter_fields_insert. cbn.
    rewrite dym_tbl_clear_cons. f_equal. apply IH. cbn in Hlen. lia.
Qed.

Lemma store_items_cons i items x dym_tbl :
  store_items (S i) items (x :: dym_tbl) = x :: store_items i items dym_tbl.
Proof.
  revert i x dym_tbl. induction items as [| it items IH]; intros i x l; [reflexivity |].
  cbn. apply IH.
Qed.

Lemma store_items_replicate items n :
  (length items <= n)%nat ->
  store_items 0 items (replicate n undefined_entry)
  = map item_entry items ++ replicate (n - length items) undefined_entry.
Proof.
  revert n. induction items as [| it items IH]; intros n Hlen.
  - cbn. rewrite Nat.sub_0_r. reflexivity.
  - destruct n as [| n]; [cbn in Hlen; lia |].
    cbn. rewrite store_items_cons. f_equal. apply IH. cbn in Hlen. lia.
Qed.

Lemma dym_tbl_scan_ok n : forall i dym_tbl w,
  lock_held w = true ->
  wp (dym_tbl_scan hdr n i dym_tbl) w (dym_tbl_scan_spec n i dym_tbl w).
Proof.
  induction n as [| n IH]; intros i tbl w Hheld;
    destruct w as [c l s t]; cbn in Hheld; subst l;
    cbn [dym_tbl_scan]; cbv zeta; unfold dym_tbl_scan_spec.
  - repeat ec_step. split; [reflexivity |]. split; [reflexivity |].
    eexists. split; [reflexivity |]. split; [reflexivity |].
    intros sel0 K s' post. cbn. discriminate.
  - repeat ec_step.
    all: lazymatch goal with
         | |- wp _ _ _ => idtac
         | |- _ =>
             cbn [ctl lock_held stray_unlocks trace]; rewrite <- ?app_assoc;
             split; [reflexivity |]; split; [reflexivity |];
             eexists; split; [reflexivity |]; split; [ec_read; reflexivity |];
             intros sel0 K s' post; destruct K as [| K]; ec_read;
             intros Hrd; try discriminate Hrd;
             injection Hrd as <- -> <-; try (exfalso; lia)
         end.
    + (* the echo of item [i] is 0xFF *)
      rewrite Nat.add_0_r.
      split; [reflexivity |]. split; [reflexivity |]. split; [reflexivity |].
      split; [lia |]. exists []. split; [reflexivity |]. split; reflexivity.
    + (* item [i] is defined: the scan goes on *)
      eapply wp_mono; [apply IH; reflexivity |].
      intros [r tbl'] w' (Hl & Hs & evs' & Htr & Hg & Hab).
      cbn [ctl lock_held stray_unlocks trace] in Hl, Hs, Htr.
      split; [exact Hl |]. split; [exact Hs |].
      rewrite Htr. rewrite <- ?app_assoc.
      eexists. split; [reflexivity |]. split; [ec_read; exact Hg |].
      intros sel0 K s' post. destruct K as [| K]; ec_read; intros Hrd.
      * injection Hrd as <- -> <-. exfalso. lia.
      * destruct (Hab _ _ _ _ Hrd) as (Hs' & Hr & Hp & HK & items & Hlen & Hreads & Htbl).
        split; [rewrite Hs'; do 3 f_equal; lia |].
        split; [exact Hr |]. split; [exact Hp |]. split; [lia |].
        exists ((v, v0, v1) :: items).
        split; [cbn; lia |]. split.
        -- ec_read. rewrite Hreads. reflexivity.
        -- rewrite Htbl. cbn [store_items item_entry fst snd].
           rewrite alter_fields_insert, !land_255 by assumption. reflexivity.
Qed.

Lemma adv_get_dynamic_tab_ok dym_tbl w :
  lock_held w = false ->
  wp (adv_get_dynamic_tab hdr dym_tbl) w
    (enumeration_spec hdr
       (fun items =>
          store_items 0 items
            (dym_tbl_clear (Z.to_nat (EC_MAX_TBL_NUM hdr)) 0 dym_tbl)) w).
Proof.
  intros Hfree. destruct w as [c l s t]. cbn in Hfree. subst l.
  unfold adv_get_dynamic_tab. ec_step. ec_step.
  eapply wp_mono; [apply dym_tbl_scan_ok; reflexivity |].
  intros [r tbl'] w' (Hl & Hs & evs & Htr & Hg & Hab).
  cbn [ctl lock_held stray_unlocks trace] in Hl, Hs, Htr.
  exists (EvLock :: evs). split.
  { split; [rewrite Htr, <- app_assoc; reflexivity |].
    split; [exact Hg |]. split; assumption. }
  intros K s' post Hrd. cbn [data_read] in Hrd.
  exact (Hab _ _ _ _ Hrd).
Qed.

End DynamicTable.

(** ** SMBus pass-through *)

Section SMBus.

Context (hdr : ec_header) {ec : controller}.
Implicit Types w : world ec.

Lemma transaction_world w w' evs :
  transaction w w' evs ->
  w' = mkWorld (ctl w') false (stray_unlocks w) (trace w ++ evs).
Proof.
  intros (Htr & _ & Hl & Hs). destruct w' as [c l s t].
  cbn in Htr, Hl, Hs |- *. subst. reflexivity.
Qed.

Lemma wp_write_hw_ram addr data w (Q : Z -> world ec -> Prop) :
  lock_held w = false ->
  (forall c evs r, status_reads evs = [] -> r = 0 \/ r = - ETIMEDOUT ->
     Q r (mkWorld c false (stray_unlocks w) (trace w ++ evs))) ->
  wp (write_hw_ram hdr addr data) w Q.
Proof.
  intros Hfree H. eapply wp_mono; [apply write_hw_ram_ok, Hfree |].
  intros r w' (evs & Htx & Hreads & Hr).
  rewrite (transaction_world _ _ _ Htx). apply H; [exact Hreads |].
  destruct Hr as [[-> _] | ->]; [left | right]; reflexivity.
Qed.

Lemma wp_run_write_hw_ram {A} addr data (label : Z -> M ec A) (k : M ec A) w
  (Q : A -> world ec -> Prop) :
  lock_held w = false ->
  (forall c evs, status_reads evs = [] ->
     wp k (mkWorld c false (stray_unlocks w) (trace w ++ evs)) Q) ->
  (forall c evs, status_reads evs = [] ->
     wp (label (- ETIMEDOUT))
       (mkWorld c false (stray_unlocks w) (trace w ++ evs)) Q) ->
  wp (or_goto (write_hw_ram hdr addr data) label k) w Q.
Proof.
  intros Hfree Hk Hl. apply wp_or_goto, wp_write_hw_ram; [exact Hfree |].
  intros c evs r Hreads [-> | ->]; [apply Hk | apply Hl]; exact Hreads.
Qed.

Lemma wp_read_hw_ram addr data w (Q : Z * Z -> world ec -> Prop) :
  lock_held w = false ->
  (forall c evs v, 0 <= v < 256 -> status_reads evs = [v] ->
     data_traffic evs = [EvOut (uchar addr) EC_STATUS_PORT; EvIn EC_STATUS_PORT v] ->
     Q (0, v) (mkWorld c false (stray_unlocks w) (trace w ++ evs))) ->
  (forall c evs, status_reads evs = [] ->
     Q (- ETIMEDOUT, data) (mkWorld c false (stray_unlocks w) (trace w ++ evs))) ->
  wp (read_hw_ram hdr addr data) w Q.
Proof.
  intros Hfree Hok Hto. eapply wp_mono; [apply read_hw_ram_ok, Hfree |].
  intros [r v] w' (evs & Htx & Hr). cbn [fst snd] in Hr.
  rewrite (transaction_world _ _ _ Htx).
  destruct Hr as [(-> & Hv & Hdt) | (-> & -> & Hreads)].
  - apply Hok; [exact Hv | | exact Hdt].
    rewrite <- status_reads_data_traffic, Hdt. reflexivity.
  - apply Hto. exact Hreads.
Qed.

Lemma smbus_protocol_poll_ok retry : forall w,
  lock_held w = false ->
  wp (smbus_protocol_poll hdr retry) w (poll_spec w).
Proof.
  induction retry as [| retry IH]; intros w Hfree;
    destruct w as [c l s t]; cbn in Hfree; subst l;
    cbn [smbus_protocol_poll]; apply wp_bind.
  all: apply wp_read_hw_ram; [reflexivity | |];
    cbn [stray_unlocks trace]; intros; cbv beta iota.
  all: change (0 =? 0) with true; change (- ETIMEDOUT =? 0) with false;
    change (255 =? 0) with false; cbv iota.
  - apply wp_ret. split; [reflexivity |]. split; [reflexivity |].
    eexists. split; [reflexivity |]. left. split; [reflexivity |]. eauto.
  - apply wp_bind, wp_udelay, wp_ret. cbn [ctl lock_held stray_unlocks trace].
    split; [reflexivity |]. split; [reflexivity |].
    rewrite <- app_assoc. eexists. split; [reflexivity |].
    right. split; [reflexivity |]. rewrite status_reads_app, H. reflexivity.
  - apply wp_ret. split; [reflexivity |]. split; [reflexivity |].
    eexists. split; [reflexivity |]. left. split; [reflexivity |]. eauto.
  - apply wp_bind, wp_udelay. cbn [ctl lock_held stray_unlocks trace].
    eapply wp_mono; [apply IH; reflexivity |].
    intros r w' (Hl & Hs & evs' & Htr & Hr).
    cbn [ctl lock_held stray_unlocks trace] in Hl, Hs, Htr.
    split; [exact Hl |]. split; [exact Hs |].
    rewrite Htr, <- !app_assoc. eexists. split; [reflexivity |].
    rewrite !status_reads_app, H. exact Hr.
Qed.

Lemma wp_run_poll {A} (label : Z -> M ec A) (k : M ec A) w
  (Q : A -> world ec -> Prop) :
  lock_held w = false ->
  (forall c evs p, status_reads evs = [p] ->
     wp k (mkWorld c false (stray_unlocks w) (trace w ++ evs)) Q) ->
  (forall c evs, status_reads evs = [] ->
     wp (label (- ETIMEDOUT))
       (mkWorld c false (stray_unlocks w) (trace w ++ evs)) Q) ->
  wp (or_goto (wait_smbus_protocol_finish hdr) label k) w Q.
Proof.
  intros Hfree Hk Hl. apply wp_or_goto.
  eapply wp_mono; [apply smbus_protocol_poll_ok, Hfree |].
  intros r w' (Hlk & Hs & evs & Htr & Hr).
  destruct w' as [c' l' s' t']. cbn in Hlk, Hs, Htr. subst.
  destruct Hr as [(-> & p & Hp) | (-> & Hp)].
  - eapply Hk, Hp.
  - apply Hl, Hp.
Qed.

Lemma lor_shiftl_byte m l :
  0 <= m < 256 -> 0 <= l < 256 -> Z.lor (Z.shiftl m 8) l = m * 256 + l.
Proof.
  intros Hm Hl. rewrite Z.shiftl_mul_pow2 by lia. change (2 ^ 8) with 256.
  rewrite <- Z.lxor_lor, <- Z.add_nocarry_lxor; try reflexivity.
  all: apply Z.bits_inj'; intros n Hn; rewrite Z.land_spec, Z.bits_0.
  all: destruct (Z.lt_ge_cases n 8) as [Hlt | Hge].
  all: try (change 256 with (2 ^ 8); rewrite Z.mul_pow2_bits_low by lia; reflexivity).
  all: rewrite <- (Z.mod_small l (2 ^ 8)) by lia.
  all: rewrite Z.mod_pow2_bits_high by lia; apply andb_false_r.
Qed.

Lemma wp_deref {A B} (a : A) (k : A -> M ec B) w (Q : B -> world ec -> Prop) :
  wp (k a) w Q -> wp (bind (deref (Some a)) k) w Q.
Proof. intros H. exact H. Qed.

End SMBus.

(** One step of symbolic execution of an SMBus transaction. *)
Ltac smbus_step :=
  cbn [ctl lock_held stray_unlocks trace];
  lazymatch goal with
  | |- wp (or_goto (write_hw_ram _ _ _) _ _) _ _ =>
      apply wp_run_write_hw_ram; [reflexivity | intros ? ? ? | intros ? ? ?]
  | |- wp (or_goto (wait_smbus_protocol_finish _) _ _) _ _ =>
      apply wp_run_poll; [reflexivity | intros ? ? ? ? | intros ? ? ?]
  | |- wp (bind (read_hw_ram _ _ _) _) _ _ =>
      apply wp_bind, wp_read_hw_ram;
      [reflexivity | intros ? ? ? ? ? ? | intros ? ? ?];
      cbv beta iota;
      change (0 =? 0) with true; change (- ETIMEDOUT =? 0) with false;
      cbn [negb]; cbv iota
  | |- wp (bind (deref (Some _)) _) _ _ => apply wp_deref
  | |- wp (bind mutex_unlock _) _ _ => apply wp_bind, wp_stray_unlock; [reflexivity |]
  | |- wp (Ret _) _ _ => apply wp_ret
  | |- wp (if ?c then _ else _) _ _ => destruct c eqn:?
  end.

(** Split the data-port reads of a transaction over its HW RAM accesses. *)
Ltac smbus_reads :=
  rewrite ?status_reads_app;
  repeat match goal with
         | H : status_reads ?evs = _ |- _ => rewrite H; clear H
         end;
  cbn [app].

Section SMBusTransactions.

Context (hdr : ec_header) {ec : controller}.
Implicit Types w : world ec.

Lemma smbus_read_word_ok req w :
  lock_held w = false ->
  wp (smbus_read_word hdr (Some req)) w (smbus_read_word_spec hdr req w).
Proof.
  intros Hfree. destruct w as [c l s t]. cbn in Hfree. subst l.
  unfold smbus_read_word, smbus_read_word_spec. cbv zeta.
  repeat smbus_step.
  all: cbn [ctl lock_held stray_unlocks trace fst snd]; rewrite <- ?app_assoc.
  all: split; [reflexivity |]; split; [reflexivity |].
  all: eexists; split; [reflexivity |].
  all: split;
    [ intros p' s' MSB LSB
    | intros (p' & s' & Heq & Hs'); revert Heq ].
  all: rewrite ?status_reads_app;
    repeat match goal with
           | H : status_reads ?evs = _ |- _ => rewrite H
           end;
    cbn [app]; intros Heq; try discriminate Heq.
  - (* the status check fails *) reflexivity.
  - (* both data cells are fetched *)
    injection Heq as <- <- <- <-.
    split; [lia |]. split; [reflexivity |].
    rewrite lor_shiftl_byte by assumption.
    split; [unfold ushort; rewrite Z.mod_small by lia; reflexivity |].
    split; [lia |].
    rewrite !data_traffic_app.
    repeat match goal with
           | H : data_traffic ?evs = _ |- _ => rewrite H; clear H
           end.
    rewrite !app_assoc, <- app_assoc. eexists. reflexivity.
  - (* the second data cell times out *)
    injection Heq as <- <-. exfalso. lia.
Qed.

Lemma smbus_read_byte_ok req w :
  lock_held w = false ->
  wp (smbus_read_byte hdr (Some req)) w (smbus_read_byte_spec req w).
Proof.
  intros Hfree. destruct w as [c l s t]. cbn in Hfree. subst l.
  unfold smbus_read_byte, smbus_read_byte_spec. cbv zeta.
  repeat smbus_step.
  all: cbn [ctl lock_held stray_unlocks trace fst snd]; rewrite <- ?app_assoc.
  all: split; [reflexivity |]; split; [reflexivity |].
  all: eexists; split; [reflexivity |].
  all: split;
    [ intros p' s' d'
    | intros (p' & s' & Heq & Hs'); revert Heq ].
  all: rewrite ?status_reads_app;
    repeat match goal with
           | H : status_reads ?evs = _ |- _ => rewrite H
           end;
    cbn [app]; intros Heq; try discriminate Heq.
  - reflexivity.
  - injection Heq as <- <- <-. split; [lia |].
    rewrite land_255 by assumption. reflexivity.
  - injection Heq as <- <-. exfalso. lia.
Qed.

Lemma smbus_write_byte_ok req w :
  lock_held w = false ->
  wp (smbus_write_byte hdr (Some req)) w (smbus_write_byte_spec w).
Proof.
  intros Hfree. destruct w as [c l s t]. cbn in Hfree. subst l.
  unfold smbus_write_byte, smbus_write_byte_spec. cbv zeta.
  repeat smbus_step.
  all: cbn [ctl lock_held stray_unlocks trace fst snd]; rewrite <- ?app_assoc.
  all: split; [reflexivity |]; split; [reflexivity |].
  all: eexists; split; [reflexivity |].
  all: intros (p' & s' & Heq & Hs'); revert Heq.
  all: rewrite ?status_reads_app;
    repeat match goal with
           | H : status_reads ?evs = _ |- _ => rewrite H
           end;
    cbn [app]; intros Heq; try discriminate Heq.
  - reflexivity.
  - injection Heq as <- <-. exfalso. lia.
Qed.

End SMBusTransactions.

(** ** The gate *)

(** Every port protocol takes the gate once, before its first port access,
    and releases it once, as its last action, on every path; the gate is
    free when the call returns. *)
Lemma gated_operations_release (hdr : ec_header) (ec : controller) (w : world ec) :
  lock_held w = false ->
  (forall addr data,
     wp (read_hw_ram hdr addr data) w (fun _ w' => exists evs, transaction w w' evs)) /\
  (forall addr data,
     wp (write_hw_ram hdr addr data) w (fun _ w' => exists evs, transaction w w' evs)) /\
  (forall hwpin multi,
     wp (read_ad_value hdr hwpin multi) w (fun _ w' => exists evs, transaction w w' evs)) /\
  (forall PinNumber pvalue,
     wp (read_gpio_status hdr PinNumber pvalue) w
       (fun _ w' => exists evs, transaction w w' evs)) /\
  (forall PinNumber value,
     wp (write_gpio_status hdr PinNumber value) w
       (fun _ w' => exists evs, transaction w w' evs)) /\
  (forall PinNumber pvalue,
     wp (read_gpio_dir hdr PinNumber pvalue) w
       (fun _ w' => exists evs, transaction w w' evs)) /\
  (forall PinNumber value,
     wp (write_gpio_dir hdr PinNumber value) w
       (fun _ w' => exists evs, transaction w w' evs)) /\
  (forall dym_tbl,
     wp (adv_get_dynamic_tab hdr dym_tbl) w
       (fun _ w' => exists evs, transaction w w' evs)).
Proof.
  intros Hfree. repeat split; intros.
  - eapply wp_mono; [apply read_hw_ram_ok, Hfree |].
    intros r w' (evs & Htx & _). eauto.
  - eapply wp_mono; [apply write_hw_ram_ok, Hfree |].
    intros r w' (evs & Htx & _). eauto.
  - eapply wp_mono; [apply read_ad_value_ok, Hfree |].
    intros r w' (evs & Htx & _). eauto.
  - eapply wp_mono; [apply read_gpio_status_ok, Hfree |].
    intros r w' (evs & Htx & _). eauto.
  - eapply wp_mono; [apply write_gpio_status_ok, Hfree |].
    intros r w' (evs & Htx & _). eauto.
  - eapply wp_mono; [apply read_gpio_dir_ok, Hfree |].
    intros r w' (evs & Htx & _). eauto.
  - eapply wp_mono; [apply write_gpio_dir_ok, Hfree |].
    intros r w' (evs & Htx & _). eauto.
  - eapply wp_mono; [apply adv_get_dynamic_tab_ok, Hfree |].
    intros r w' (evs & Htx & _). eauto.
Qed.

(** A controller whose input buffer stays full for the whole budget of a
    wait and then drains: the first read times out and leaves the gate
    free, and the next read succeeds. *)
Example gate_free_after_timeout :
  let w0 := scripted_boot (mkScript (repeat 0x02 5000) 0x01 [0x5A] 0xFF) in
  let first := read_hw_ram sample_header 0x10 0 w0 in
  returned first = Some (- ETIMEDOUT, 0) /\
  lock_held (final first) = false /\
  returned (read_hw_ram sample_header 0x10 0 (final first)) = Some (0, 0x5A).
Proof. vm_compute. repeat split. Qed.

(** ** Sample runs *)

(** Byte read of register 0x05 of the device at 0x98 on channel 2, with
    status 0x80 and data cell 0x7A. *)
Example smbus_read_byte_sample :
  returned (smbus_read_byte sample_header
              (Some (EC_SMBUS_READ_BYTE.mk 2 0x98 0x05 0))
              (scripted_boot (ready_script [0x00; 0x80; 0x7A])))
  = Some (0, Some (EC_SMBUS_READ_BYTE.mk 2 0x98 0x05 0x7A)).
Proof. vm_compute. reflexivity. Qed.

(** With a budget of one poll per wait and an input buffer that never
    drains, the completion poll gives up after 1001 attempts to read the
    protocol cell. *)
Example poll_gives_up_after_1001_reads :
  let o := wait_smbus_protocol_finish (with_timeout_count 1 sample_header)
             (scripted_boot stuck_script) in
  returned o = Some (- ETIMEDOUT) /\ lock_count (trace (final o)) = 1001%nat.
Proof. vm_compute. split; reflexivity. Qed.

(** ** The specification, claim by claim *)

(** C3.  In every indexed protocol with a "not found" sentinel, when the
    controller answers 0xFF to the selection of the pin or item, the
    operation fails (with -1 for the AD and GPIO protocols, with [-EINVAL]
    for the table enumeration) and reads no port after that answer.  For
    the AD and GPIO protocols the answer is the first data-port read; for
    the enumeration the answer to item [K] is data-port read number [3 K]. *)
Theorem not_found_sentinel_aborts (hdr : ec_header) (ec : controller) (w : world ec) :
  lock_held w = false ->
  (forall hwpin multi,
     wp (read_ad_value hdr hwpin multi) w (answers_not_found hwpin 0 (-1) w)) /\
  (forall PinNumber pvalue,
     wp (read_gpio_status hdr PinNumber pvalue) w
       (fun r => answers_not_found PinNumber 0 (-1) w (fst r))) /\
  (forall PinNumber value,
     wp (write_gpio_status hdr PinNumber value) w
       (answers_not_found PinNumber 0 (-1) w)) /\
  (forall PinNumber pvalue,
     wp (read_gpio_dir hdr PinNumber pvalue) w
       (fun r => answers_not_found PinNumber 0 (-1) w (fst r))) /\
  (forall PinNumber value,
     wp (write_gpio_dir hdr PinNumber value) w
       (answers_not_found PinNumber 0 (-1) w)) /\
  (forall dym_tbl,
     wp (adv_get_dynamic_tab hdr dym_tbl) w
       (fun r w' =>
          forall K : nat,
            answers_not_found (Z.of_nat K) (K * 3) (- EINVAL) w (fst r) w')).
Proof.
  intros Hfree. repeat split; intros.
  - eapply wp_mono; [apply read_ad_value_ok, Hfree |].
    intros r w' (evs & (Htr & _) & Hab & _). exists evs. split; assumption.
  - eapply wp_mono; [apply read_gpio_status_ok, Hfree |].
    intros r w' (evs & (Htr & _) & Hab). exists evs. split; assumption.
  - eapply wp_mono; [apply write_gpio_status_ok, Hfree |].
    intros r w' (evs & (Htr & _) & Hab). exists evs. split; assumption.
  - eapply wp_mono; [apply read_gpio_dir_ok, Hfree |].
    intros r w' (evs & (Htr & _) & Hab). exists evs. split; assumption.
  - eapply wp_mono; [apply write_gpio_dir_ok, Hfree |].
    intros r w' (evs & (Htr & _) & Hab). exists evs. split; assumption.
  - eapply wp_mono; [apply adv_get_dynamic_tab_ok, Hfree |].
    intros r w' (evs & (Htr & _) & Hab) K. exists evs. split; [exact Htr |].
    intros s post Hrd.
    destruct (Hab K s post Hrd) as (Hs & Hr & Hp & _).
    repeat split; assumption.
Qed.

Lemma not_found_sentinel_aborts_witness :
  lock_held (scripted_boot (ready_script [0xFF])) = false /\
  returned (read_ad_value sample_header 3 1 (scripted_boot (ready_script [0xFF])))
  = Some (-1).
Proof.
  split; [reflexivity |].
  destruct (proj1 (not_found_sentinel_aborts sample_header scripted
                     (scripted_boot (ready_script [0xFF])) eq_refl) 3 1)
    as (r & w' & Hrun & evs & Htr & Hab).
  rewrite Hrun. cbn [returned]. f_equal.
  assert (Hw : w' = final (read_ad_value sample_header 3 1
                             (scripted_boot (ready_script [0xFF]))))
    by (rewrite Hrun; reflexivity).
  rewrite Hw in Htr. vm_compute in Htr. subst evs.
  destruct (Hab _ _ eq_refl) as (_ & Hr & _). exact Hr.
Defined.

(** C4.  An AD read of pin [hwpin] with multiplier [multi] takes the gate,
    selects the pin and reads the echo, sends the LSB command and reads the
    low byte [L], sends the MSB command and reads the high byte [H], each
    step after its handshake wait, and releases the gate.  It ends in one of
    three ways.  When a wait fails it stops there with [-ETIMEDOUT]; when
    the echo is 0xFF it stops with -1; otherwise, when every wait passes,
    the read is successful: it has read the echo, [L] and [H] and returns
    [((H << 8) | L) & 0x3FF] multiplied by [multi] and by 100.  So a result
    that is not negative comes from exactly three data-port reads and is
    that product, a run with three data-port reads is a successful one, and
    with L = 0x34, H = 0x01 and multiplier 1 the result is 30800. *)
Theorem read_ad_value_scaled (hdr : ec_header) (ec : controller) (w : world ec)
  (hwpin multi : Z) :
  lock_held w = false ->
  0 <= multi < 256 ->
  wp (read_ad_value hdr hwpin multi) w
    (fun r w' =>
       sample_played hdr hwpin multi w r w' /\
       exists evs, trace w' = trace w ++ evs /\
         (0 <= r ->
          exists e L H, status_reads evs = [e; L; H] /\ e <> 0xFF /\
            r = Z.land (Z.lor (Z.shiftl H 8) L) 0x3FF * multi * 100) /\
         (forall e L H, status_reads evs = [e; L; H] ->
            r = Z.land (Z.lor (Z.shiftl H 8) L) 0x3FF * multi * 100 /\
            exchange evs =
              [EvOut (uchar (EC_AD_INDEX_WRITE hdr)) EC_COMMAND_PORT;
               EvOut (uchar hwpin) EC_STATUS_PORT;
               EvIn EC_STATUS_PORT e;
               EvOut (uchar (EC_AD_LSB_READ hdr)) EC_COMMAND_PORT;
               EvIn EC_STATUS_PORT L;
               EvOut (uchar (EC_AD_MSB_READ hdr)) EC_COMMAND_PORT;
               EvIn EC_STATUS_PORT H]) /\
         (multi = 1 ->
          forall e, status_reads evs = [e; 0x34; 0x01] -> r = 30800)).
Proof.
  intros Hfree Hmulti.
  eapply wp_mono.
  { apply wp_conj;
      [apply read_ad_value_played, Hfree | apply read_ad_value_ok, Hfree]. }
  intros r w' [Hplayed (evs & (Htr & _) & _ & Hval)].
  rewrite (uchar_small multi Hmulti) in Hplayed, Hval.
  split; [exact Hplayed |].
  exists evs. split; [exact Htr |]. split; [| split].
  - intros Hr.
    destruct Hplayed as (reads & o & (_ & _ & body & Htr' & _ & Hreads) & Ho).
    rewrite Htr in Htr'. apply app_inv_head in Htr'. subst evs.
    cbn [status_reads]. rewrite Hreads.
    destruct o; [exact Ho | lia | unfold ETIMEDOUT in Ho; lia].
  - intros e L H Hreads. apply Hval, Hreads.
  - intros -> e Hreads. destruct (Hval _ _ _ Hreads) as [-> _]. reflexivity.
Qed.

Lemma read_ad_value_scaled_witness :
  lock_held (scripted_boot (ready_script [3; 0x34; 0x01])) = false /\
  0 <= 1 < 256 /\
  returned (read_ad_value sample_header 3 1 (scripted_boot (ready_script [3; 0x34; 0x01])))
  = Some 30800.
Proof.
  split; [reflexivity |]. split; [lia |].
  destruct (read_ad_value_scaled sample_header scripted
              (scripted_boot (ready_script [3; 0x34; 0x01])) 3 1 eq_refl
              (conj (Z.le_0_1) eq_refl))
    as (r & w' & Hrun & _ & evs & Htr & _ & _ & Hsample).
  rewrite Hrun. cbn [returned]. f_equal.
  apply (Hsample eq_refl 3).
  vm_compute in Hrun. injection Hrun as _ Hw. subst w'.
  cbn in Htr. subst evs. reflexivity.
Defined.



(** ** The echoing controller *)

Section EchoRam.

Context (hdr : ec_header).
Hypothesis budget : 0 < EC_MAX_TIMEOUT_COUNT hdr.
Hypothesis opcodes : uchar (EC_HW_RAM_READ hdr) <> uchar (EC_HW_RAM_WRITE hdr).
Implicit Types w : world (echo_ram hdr).

Lemma budget_succ : exists n, Z.to_nat (EC_MAX_TIMEOUT_COUNT hdr) = S n.
Proof. exists (Nat.pred (Z.to_nat (EC_MAX_TIMEOUT_COUNT hdr))). lia. Qed.

(** The input buffer of the echoing controller is never full. *)
Lemma echo_wait_ibf w :
  exists v,
    wait_ibf hdr w
    = Returns 0 (mkWorld (ctl w) (lock_held w) (stray_unlocks w)
                   (trace w ++ [EvIn EC_COMMAND_PORT v])).
Proof.
  unfold wait_ibf. destruct budget_succ as [n ->].
  destruct w as [[cells ph [o |]] l s t]; eexists; reflexivity.
Qed.

(** Its output buffer is full once a read has been addressed. *)
Lemma echo_wait_obf w o :
  ram_obuf (ctl w) = Some o ->
  exists v,
    wait_obf hdr w
    = Returns 0 (mkWorld (ctl w) (lock_held w) (stray_unlocks w)
                   (trace w ++ [EvIn EC_COMMAND_PORT v])).
Proof.
  unfold wait_obf. destruct budget_succ as [n ->].
  destruct w as [[cells ph ob] l s t]. cbn. intros ->.
  eexists; reflexivity.
Qed.

Lemma echo_write_hw_ram addr data w :
  lock_held w = false ->
  exists t',
    write_hw_ram hdr addr data w
    = Returns 0
        (mkWorld (ec := echo_ram hdr)
           (mkRam (fun x => if x =? uchar addr then uchar data
                            else ram_cells (ctl w) x)
              RamIdle (ram_obuf (ctl w)))
           false (stray_unlocks w) t').
Proof.
  destruct w as [[cells ph ob] l s t]. cbn. intros ->.
  unfold write_hw_ram, or_goto, bind, mutex_lock, mutex_unlock, outb, Ret.
  cbn [ctl lock_held stray_unlocks trace].
  repeat match goal with
         | |- context [wait_ibf hdr ?w0] =>
             let v := fresh "v" in
             let E := fresh "E" in
             destruct (echo_wait_ibf w0) as [v E]; rewrite E; clear E;
             cbn [ctl lock_held stray_unlocks trace Z.eqb]
         end.
  cbn [ctl_outb echo_ram ram_outb ram_cells ram_phase_of ram_obuf].
  rewrite (proj2 (Z.eqb_neq _ _)) by (intros E; apply opcodes; symmetry; exact E).
  rewrite Z.eqb_refl.
  cbn [ram_phase_of ram_cells ram_obuf]. eexists. reflexivity.
Qed.

Lemma echo_read_hw_ram addr data w :
  lock_held w = false ->
  exists c' t',
    read_hw_ram hdr addr data w
    = Returns (0, uchar (ram_cells (ctl w) (uchar addr)))
        (mkWorld (ec := echo_ram hdr) c' false (stray_unlocks w) t').
Proof.
  destruct w as [[cells ph ob] l s t]. cbn. intros ->.
  unfold read_hw_ram, or_goto, bind, mutex_lock, mutex_unlock, outb, Ret.
  cbn [ctl lock_held stray_unlocks trace].
  repeat match goal with
         | |- context [wait_ibf hdr ?w0] =>
             let v := fresh "v" in
             let E := fresh "E" in
             destruct (echo_wait_ibf w0) as [v E]; rewrite E; clear E;
             cbn [ctl lock_held stray_unlocks trace Z.eqb]
         end.
  cbn [ctl_outb echo_ram ram_outb ram_cells ram_phase_of ram_obuf].
  rewrite Z.eqb_refl. cbn [ram_phase_of ram_cells ram_obuf].
  match goal with
  | |- context [wait_obf hdr ?w0] =>
      destruct (echo_wait_obf w0 _ eq_refl) as [v' E]; rewrite E; clear E
  end.
  cbn. eexists _, _. reflexivity.
Qed.

End EchoRam.

(** C6.  On a controller that stores what is written to its RAM,
    [write_hw_ram A V] followed by [read_hw_ram A] succeeds and reads [V]
    back, whatever the controller held before. *)
Theorem hw_ram_round_trip (hdr : ec_header) (w : world (echo_ram hdr)) (A V data : Z) :
  0 < EC_MAX_TIMEOUT_COUNT hdr ->
  uchar (EC_HW_RAM_READ hdr) <> uchar (EC_HW_RAM_WRITE hdr) ->
  lock_held w = false ->
  0 <= A < 256 ->
  0 <= V < 256 ->
  wp (write_hw_ram hdr A V) w
    (fun r w1 =>
       r = 0 /\
       wp (read_hw_ram hdr A data) w1
         (fun r' w2 => r' = (0, V) /\ lock_held w2 = false)).
Proof.
  intros Hbudget Hop Hfree HA HV.
  destruct (echo_write_hw_ram hdr Hbudget Hop A V w Hfree) as [t1 Hwrite].
  eexists _, _. split; [exact Hwrite |]. split; [reflexivity |].
  match goal with
  | |- wp _ ?w1 _ =>
      destruct (echo_read_hw_ram hdr Hbudget A data w1 eq_refl) as (c2 & t2 & Hread)
  end.
  eexists _, _. split; [exact Hread |]. split; [| reflexivity].
  cbn [ctl ram_cells]. rewrite Z.eqb_refl, !(uchar_small V HV). reflexivity.
Qed.

Lemma hw_ram_round_trip_witness :
  0 < EC_MAX_TIMEOUT_COUNT sample_header /\
  uchar (EC_HW_RAM_READ sample_header) <> uchar (EC_HW_RAM_WRITE sample_header) /\
  lock_held (boot (ec := echo_ram sample_header) (mkRam (fun _ => 0) RamIdle None))
  = false /\
  0 <= 0x10 < 256 /\ 0 <= 0x5A < 256 /\
  wp (write_hw_ram sample_header 0x10 0x5A)
    (boot (ec := echo_ram sample_header) (mkRam (fun _ => 0) RamIdle None))
    (fun r w1 =>
       r = 0 /\
       wp (read_hw_ram sample_header 0x10 0) w1
         (fun r' w2 => r' = (0, 0x5A) /\ lock_held w2 = false)).
Proof.
  split; [reflexivity |]. split; [discriminate |]. split; [reflexivity |].
  split; [lia |]. split; [lia |].
  apply (hw_ram_round_trip sample_header
           (boot (ec := echo_ram sample_header) (mkRam (fun _ => 0) RamIdle None))
           0x10 0x5A 0).
  - reflexivity.
  - discriminate.
  - reflexivity.
  - lia.
  - lia.
Defined.

(** A word read that gets as far as fetching both data cells has read
    0x80 from the status cell and returns 0; it fetches the cell at data
    offset 0 first and takes it as the most significant byte, then the cell
    at offset 1 as the least significant byte, and stores [(MSB << 8) | LSB],
    a 16-bit value.  With MSB 0x01 and LSB 0x34 the word is 0x0134. *)
Lemma smbus_read_word_both_cells (hdr : ec_header) (ec : controller)
  (w : world ec) (req : EC_SMBUS_WORD_DATA.t) :
  lock_held w = false ->
  wp (smbus_read_word hdr (Some req)) w
    (fun r w' =>
       exists evs, trace w' = trace w ++ evs /\
         word_read_big_endian hdr req r evs /\
         (forall p s, status_reads evs = [p; s; 0x01; 0x34] ->
            snd r = Some (EC_SMBUS_WORD_DATA.set_Value 0x0134 req))).
Proof.
  intros Hfree.
  eapply wp_mono; [apply smbus_read_word_ok, Hfree |].
  intros r w' (_ & _ & evs & Htr & Hword & _).
  exists evs. split; [exact Htr |]. split; [exact Hword |].
  intros p s Hreads. destruct (Hword _ _ _ _ Hreads) as (_ & _ & Hval & _).
  exact Hval.
Qed.

(** C10.  [smbus_read_byte] checks its request pointer and returns
    [-EINVAL] for a null one, touching nothing.  [smbus_read_word] and
    [smbus_write_byte] dereference theirs at once, so a null request is
    fatal; with a request and a free gate each of the three returns. *)
Theorem smbus_null_request (hdr : ec_header) (ec : controller) (w : world ec) :
  smbus_read_byte hdr None w = Returns (- EINVAL, None) w /\
  smbus_read_word hdr None w = Oops w /\
  smbus_write_byte hdr None w = Oops w /\
  (lock_held w = false ->
   (forall req, exists r w', smbus_read_byte hdr (Some req) w = Returns r w') /\
   (forall req, exists r w', smbus_read_word hdr (Some req) w = Returns r w') /\
   (forall req, exists r w', smbus_write_byte hdr (Some req) w = Returns r w')).
Proof.
  split; [reflexivity |]. split; [reflexivity |]. split; [reflexivity |].
  intros Hfree. repeat split; intros req.
  - destruct (smbus_read_byte_ok hdr req w Hfree) as (r & w' & Hrun & _). eauto.
  - destruct (smbus_read_word_ok hdr req w Hfree) as (r & w' & Hrun & _). eauto.
  - destruct (smbus_write_byte_ok hdr req w Hfree) as (r & w' & Hrun & _). eauto.
Qed.

Lemma smbus_null_request_witness :
  lock_held (scripted_boot (ready_script [0x00; 0x80; 0x7A])) = false /\
  smbus_read_word sample_header None (scripted_boot (ready_script [0x00; 0x80; 0x7A]))
  = Oops (scripted_boot (ready_script [0x00; 0x80; 0x7A])) /\
  exists r w',
    smbus_read_byte sample_header (Some (EC_SMBUS_READ_BYTE.mk 2 0x98 0x05 0))
      (scripted_boot (ready_script [0x00; 0x80; 0x7A]))
    = Returns r w'.
Proof.
  split; [reflexivity |].
  destruct (smbus_null_request sample_header scripted
              (scripted_boot (ready_script [0x00; 0x80; 0x7A])))
    as (_ & Hword & _ & Hreturns).
  split; [exact Hword |].
  destruct (Hreturns eq_refl) as (Hbyte & _ & _).
  apply Hbyte.
Defined.

(** ** Where the driver departs from the specification *)

(** C1.  The status check of the SMBus transactions jumps to the error label
    with [ret] still 0 from the successful read of the status cell.  Here
    the controller is always ready, the protocol cell reads 0 and the status
    cell reads 0x10: each of the three calls returns 0, the two reads leave
    the request object as it was, and no data cell is fetched (the 0x7A
    that the controller holds next is not read). *)
Theorem smbus_status_error_returns_success :
  let w0 := scripted_boot (ready_script [0x00; 0x10; 0x7A]) in
  let rb := smbus_read_byte sample_header
              (Some (EC_SMBUS_READ_BYTE.mk 2 0x98 0x05 0)) w0 in
  let rw := smbus_read_word sample_header
              (Some (EC_SMBUS_WORD_DATA.mk 2 0x98 0x05 0)) w0 in
  let wb := smbus_write_byte sample_header
              (Some (EC_SMBUS_WRITE_BYTE.mk 2 0x98 0x05 0x55)) w0 in
  (returned rb = Some (0, Some (EC_SMBUS_READ_BYTE.mk 2 0x98 0x05 0)) /\
   status_reads (trace (final rb)) = [0x00; 0x10]) /\
  (returned rw = Some (0, Some (EC_SMBUS_WORD_DATA.mk 2 0x98 0x05 0)) /\
   status_reads (trace (final rw)) = [0x00; 0x10]) /\
  (returned wb = Some 0 /\
   status_reads (trace (final wb)) = [0x00; 0x10]).
Proof. vm_compute. repeat split. Qed.

(** C2.  The completion poll returns 0 as soon as a read of the protocol
    cell succeeds, whatever the cell holds.  Here the controller is always
    ready and its protocol cell always reads 0x07: the poll returns 0 after
    a single read. *)
Theorem wait_smbus_protocol_finish_ignores_cell :
  let w0 := scripted_boot (mkScript [] 0x01 [] 0x07) in
  returned (wait_smbus_protocol_finish sample_header w0) = Some 0 /\
  status_reads (trace (final (wait_smbus_protocol_finish sample_header w0))) = [0x07].
Proof. vm_compute. split; reflexivity. Qed.

(** C7.  [smbus_write_byte] never takes the gate itself, and every HW RAM
    access it makes has released the gate again when it returns; yet it
    calls [mutex_unlock] before each of its returns.  Here, on an
    always-ready controller that reports status 0x80, and on a controller
    whose input buffer never drains, the call ends with one release of a
    gate that was not held: the trace has one release more than it has
    acquisitions. *)
Theorem smbus_write_byte_stray_unlock :
  let req := Some (EC_SMBUS_WRITE_BYTE.mk 2 0x98 0x05 0x55) in
  let ok := smbus_write_byte sample_header req
              (scripted_boot (ready_script [0x00; 0x80])) in
  let ko := smbus_write_byte sample_header req (scripted_boot stuck_script) in
  (returned ok = Some 0 /\
   stray_unlocks (final ok) = 1%nat /\
   lock_count (trace (final ok)) = 7%nat /\
   unlock_count (trace (final ok)) = 8%nat) /\
  (returned ko = Some (- ETIMEDOUT) /\
   stray_unlocks (final ko) = 1%nat /\
   lock_count (trace (final ko)) = 1%nat /\
   unlock_count (trace (final ko)) = 2%nat).
Proof. vm_compute. repeat split. Qed.

(** C9.  [smbus_read_word] returns 0 not only after it has fetched the two
    data cells, but also when the status cell reads something other than
    0x80 (the status check of C1 leaves [ret] at 0), and then it fetches no
    data cell and leaves the word of the request as it was.  Here the
    controller keeps a RAM whose cell at data offset 0 holds 0x01 and whose
    cell at offset 1 holds 0x34, and the request holds the word 0xBEEF from
    before.  With status 0x80 the call returns 0 and the word 0x0134,
    fetching offset 0 and then offset 1.  With status 0x10 the call returns
    0 as well, having read the protocol and the status cell only, and the
    word it hands back is the old 0xBEEF. *)
Theorem smbus_read_word_success_without_fetch :
  let cells (status : Z) : Z -> Z :=
    fun a => if a =? 0x01 then status
             else if a =? 0x04 then 0x01
             else if a =? 0x05 then 0x34
             else 0 in
  let req := Some (EC_SMBUS_WORD_DATA.mk 2 0x98 0x05 0xBEEF) in
  let ok := smbus_read_word sample_header req
              (echo_boot sample_header (cells 0x80)) in
  let ko := smbus_read_word sample_header req
              (echo_boot sample_header (cells 0x10)) in
  (returned ok = Some (0, Some (EC_SMBUS_WORD_DATA.mk 2 0x98 0x05 0x0134)) /\
   data_traffic (trace (final ok)) =
     smbus_setup sample_header 2 0x98 0x05 None 0x09
     ++ [EvOut 0x00 EC_STATUS_PORT; EvIn EC_STATUS_PORT 0x09;
         EvOut 0x01 EC_STATUS_PORT; EvIn EC_STATUS_PORT 0x80;
         EvOut 0x04 EC_STATUS_PORT; EvIn EC_STATUS_PORT 0x01;
         EvOut 0x05 EC_STATUS_PORT; EvIn EC_STATUS_PORT 0x34]) /\
  (returned ko = Some (0, Some (EC_SMBUS_WORD_DATA.mk 2 0x98 0x05 0xBEEF)) /\
   data_traffic (trace (final ko)) =
     smbus_setup sample_header 2 0x98 0x05 None 0x09
     ++ [EvOut 0x00 EC_STATUS_PORT; EvIn EC_STATUS_PORT 0x09;
         EvOut 0x01 EC_STATUS_PORT; EvIn EC_STATUS_PORT 0x10]).
Proof. vm_compute. repeat split. Qed.

(** ** Further protocols *)

(** The outcome of a write-only protocol, at the end of a path. *)
Ltac ec_written :=
  split; [ec_read; reflexivity |];
  first
    [ left; split; [reflexivity |]; ec_read; reflexivity
    | right; split; [reflexivity |]; unfold cut_short; ec_read;
      eexists; (split; [| cbn [app]; reflexivity]); discriminate ].

(** The outcome of a protocol that reads one byte. *)
Ltac ec_fetched :=
  cbn [fst snd];
  first
    [ left; split; [reflexivity |]; split; [assumption |];
      ec_read; reflexivity
    | right; split; [reflexivity |]; split; [reflexivity |];
      split; [ec_read; reflexivity |];
      unfold prefix; ec_read; eexists; cbn [app]; reflexivity ].

Section MoreProtocolsOk.

Context (hdr : ec_header) (more : ec_header_more) {ec : controller}.
Implicit Types w : world ec.

Lemma read_hw_ram_exchange addr data w :
  lock_held w = false ->
  wp (read_hw_ram hdr addr data) w
    (read_protocol
       [EvOut (uchar (EC_HW_RAM_READ hdr)) EC_COMMAND_PORT;
        EvOut (uchar addr) EC_STATUS_PORT] data w).
Proof.
  intros Hfree. destruct w as [c l s t]. cbn in Hfree. subst l.
  unfold read_hw_ram, read_protocol. cbv zeta.
  repeat ec_step.
  all: ec_transaction; ec_fetched.
Qed.

Lemma write_hw_ram_exchange addr data w :
  lock_held w = false ->
  wp (write_hw_ram hdr addr data) w
    (write_protocol
       [EvOut (uchar (EC_HW_RAM_WRITE hdr)) EC_COMMAND_PORT;
        EvOut (uchar addr) EC_STATUS_PORT;
        EvOut (uchar data) EC_STATUS_PORT] w).
Proof.
  intros Hfree. destruct w as [c l s t]. cbn in Hfree. subst l.
  unfold write_hw_ram, write_protocol. cbv zeta.
  repeat ec_step.
  all: ec_transaction; ec_written.
Qed.

Lemma write_hw_extend_ram_exchange addr data w :
  lock_held w = false ->
  wp (write_hw_extend_ram hdr more addr data) w
    (write_protocol
       [EvOut (uchar (EC_HW_EXTEND_RAM_WRITE more)) EC_COMMAND_PORT;
        EvOut (uchar addr) EC_STATUS_PORT;
        EvOut (uchar data) EC_STATUS_PORT] w).
Proof.
  intros Hfree. destruct w as [c l s t]. cbn in Hfree. subst l.
  unfold write_hw_extend_ram, write_protocol. cbv zeta.
  repeat ec_step.
  all: ec_transaction; ec_written.
Qed.

Lemma write_hwram_command_exchange data w :
  lock_held w = false ->
  wp (write_hwram_command hdr data) w
    (write_protocol [EvOut (uchar data) EC_COMMAND_PORT] w).
Proof.
  intros Hfree. destruct w as [c l s t]. cbn in Hfree. subst l.
  unfold write_hwram_command, write_protocol. cbv zeta.
  repeat ec_step.
  all: ec_transaction; ec_written.
Qed.

Lemma read_acpi_value_exchange addr pvalue w :
  lock_held w = false ->
  wp (read_acpi_value hdr more addr pvalue) w
    (read_protocol
       [EvOut (uchar (EC_ACPI_RAM_READ more)) EC_COMMAND_PORT;
        EvOut (uchar addr) EC_STATUS_PORT] pvalue w).
Proof.
  intros Hfree. destruct w as [c l s t]. cbn in Hfree. subst l.
  unfold read_acpi_value, read_protocol. cbv zeta.
  repeat ec_step.
  all: ec_transaction; ec_fetched.
Qed.

Lemma write_acpi_value_exchange addr value w :
  lock_held w = false ->
  wp (write_acpi_value hdr more addr value) w
    (write_protocol
       [EvOut (uchar (EC_ACPI_DATA_WRITE more)) EC_COMMAND_PORT;
        EvOut (uchar addr) EC_STATUS_PORT;
        EvOut (uchar value) EC_STATUS_PORT] w).
Proof.
  intros Hfree. destruct w as [c l s t]. cbn in Hfree. subst l.
  unfold write_acpi_value, write_protocol. cbv zeta.
  repeat ec_step.
  all: ec_transaction; ec_written.
Qed.

Lemma read_onekey_status_exchange addr pdata w :
  lock_held w = false ->
  wp (read_onekey_status hdr more addr pdata) w
    (read_protocol
       [EvOut (uchar (EC_ONE_KEY_FLAG more)) EC_COMMAND_PORT;
        EvOut (uchar addr) EC_STATUS_PORT] 0 w).
Proof.
  intros Hfree. destruct w as [c l s t]. cbn in Hfree. subst l.
  unfold read_onekey_status, read_protocol. cbv zeta.
  repeat ec_step.
  all: ec_transaction; ec_fetched.
Qed.

Lemma write_onekey_status_exchange addr w :
  lock_held w = false ->
  wp (write_onekey_status hdr more addr) w
    (write_protocol
       [EvOut (uchar (EC_ONE_KEY_FLAG more)) EC_COMMAND_PORT;
        EvOut (uchar addr) EC_STATUS_PORT] w).
Proof.
  intros Hfree. destruct w as [c l s t]. cbn in Hfree. subst l.
  unfold write_onekey_status, write_protocol. cbv zeta.
  repeat ec_step.
  all: ec_transaction; ec_written.
Qed.

Lemma ec_oem_get_status_exchange addr pdata w :
  lock_held w = false ->
  wp (ec_oem_get_status hdr more addr pdata) w
    (read_protocol
       [EvOut (uchar (EC_ASG_OEM more)) EC_COMMAND_PORT;
        EvOut (uchar (EC_ASG_OEM_READ more)) EC_STATUS_PORT;
        EvOut (uchar addr) EC_STATUS_PORT] 0 w).
Proof.
  intros Hfree. destruct w as [c l s t]. cbn in Hfree. subst l.
  unfold ec_oem_get_status, read_protocol. cbv zeta.
  repeat ec_step.
  all: ec_transaction; ec_fetched.
Qed.

Lemma ec_oem_set_status_exchange addr pdata w :
  lock_held w = false ->
  wp (ec_oem_set_status hdr more addr pdata) w
    (write_protocol
       [EvOut (uchar (EC_ASG_OEM more)) EC_COMMAND_PORT;
        EvOut (uchar (EC_ASG_OEM_WRITE more)) EC_STATUS_PORT;
        EvOut (uchar addr) EC_STATUS_PORT;
        EvOut (uchar pdata) EC_STATUS_PORT] w).
Proof.
  intros Hfree. destruct w as [c l s t]. cbn in Hfree. subst l.
  unfold ec_oem_set_status, write_protocol. cbv zeta.
  repeat ec_step.
  all: ec_transaction; ec_written.
Qed.

Lemma write_hw_extend_ram_played addr data w :
  lock_held w = false ->
  wp (write_hw_extend_ram hdr more addr data) w
    (write_played hdr
       (send (EC_HW_EXTEND_RAM_WRITE more) addr
          ++ [WaitIBF; Outb data EC_STATUS_PORT]) w).
Proof.
  intros Hfree. destruct w as [c l s t]. cbn in Hfree. subst l.
  unfold write_hw_extend_ram, write_played. cbv zeta.
  repeat ec_play.
  all: ec_played; reflexivity.
Qed.

Lemma write_hwram_command_played data w :
  lock_held w = false ->
  wp (write_hwram_command hdr data) w
    (write_played hdr [WaitIBF; Outb data EC_COMMAND_PORT] w).
Proof.
  intros Hfree. destruct w as [c l s t]. cbn in Hfree. subst l.
  unfold write_hwram_command, write_played. cbv zeta.
  repeat ec_play.
  all: ec_played; reflexivity.
Qed.

Lemma read_acpi_value_played addr pvalue w :
  lock_held w = false ->
  wp (read_acpi_value hdr more addr pvalue) w
    (read_played hdr
       (send (EC_ACPI_RAM_READ more) addr ++ [WaitOBF; Inb]) pvalue w).
Proof.
  intros Hfree. destruct w as [c l s t]. cbn in Hfree. subst l.
  unfold read_acpi_value, read_played. cbv zeta.
  repeat ec_play.
  all: ec_played; split; reflexivity.
Qed.

Lemma write_acpi_value_played addr value w :
  lock_held w = false ->
  wp (write_acpi_value hdr more addr value) w
    (write_played hdr
       (send (EC_ACPI_DATA_WRITE more) addr
          ++ [WaitIBF; Outb value EC_STATUS_PORT]) w).
Proof.
  intros Hfree. destruct w as [c l s t]. cbn in Hfree. subst l.
  unfold write_acpi_value, write_played. cbv zeta.
  repeat ec_play.
  all: ec_played; reflexivity.
Qed.

Lemma read_onekey_status_played addr pdata w :
  lock_held w = false ->
  wp (read_onekey_status hdr more addr pdata) w
    (read_played hdr
       (send (EC_ONE_KEY_FLAG more) addr ++ [WaitOBF; Inb]) 0 w).
Proof.
  intros Hfree. destruct w as [c l s t]. cbn in Hfree. subst l.
  unfold read_onekey_status, read_played. cbv zeta.
  repeat ec_play.
  all: ec_played; split; reflexivity.
Qed.

Lemma write_onekey_status_played addr w :
  lock_held w = false ->
  wp (write_onekey_status hdr more addr) w
    (write_played hdr (send (EC_ONE_KEY_FLAG more) addr) w).
Proof.
  intros Hfree. destruct w as [c l s t]. cbn in Hfree. subst l.
  unfold write_onekey_status, write_played. cbv zeta.
  repeat ec_play.
  all: ec_played; reflexivity.
Qed.

Lemma ec_oem_get_status_played addr pdata w :
  lock_held w = false ->
  wp (ec_oem_get_status hdr more addr pdata) w
    (read_played hdr
       (send (EC_ASG_OEM more) (EC_ASG_OEM_READ more)
          ++ [WaitIBF; Outb addr EC_STATUS_PORT; WaitOBF; Inb]) 0 w).
Proof.
  intros Hfree. destruct w as [c l s t]. cbn in Hfree. subst l.
  unfold ec_oem_get_status, read_played. cbv zeta.
  repeat ec_play.
  all: ec_played; split; reflexivity.
Qed.

Lemma ec_oem_set_status_played addr pdata w :
  lock_held w = false ->
  wp (ec_oem_set_status hdr more addr pdata) w
    (write_played hdr
       (send (EC_ASG_OEM more) (EC_ASG_OEM_WRITE more)
          ++ [WaitIBF; Outb addr EC_STATUS_PORT;
              WaitIBF; Outb pdata EC_STATUS_PORT]) w).
Proof.
  intros Hfree. destruct w as [c l s t]. cbn in Hfree. subst l.
  unfold ec_oem_set_status, write_played. cbv zeta.
  repeat ec_play.
  all: ec_played; reflexivity.
Qed.

End MoreProtocolsOk.

(** ** GPIO and AD in full *)

(** The outcome of a GPIO access, at the end of a path. *)
Ltac ec_gpio :=
  cbn [fst snd]; unfold gpio_select;
  first
    [ (* the pin was accepted and the access completed *)
      left; split; [reflexivity |];
      try (split; [assumption |]);
      eexists; split; [| ec_read; reflexivity]; lia
    | (* the controller answered 0xFF *)
      right; left; split; [reflexivity |];
      try (split; [reflexivity |]);
      ec_read;
      match goal with
      | H : (?v =? 255) = true |- _ => apply Z.eqb_eq in H; subst v
      end;
      reflexivity
    | (* a wait failed *)
      right; right; split; [reflexivity |];
      try (split; [reflexivity |]);
      unfold prefix; ec_read;
      first [ exists 0; split; [discriminate |]; eexists; cbn [app]; reflexivity
            | eexists; split; [eapply Z.eqb_neq; eassumption |];
              eexists; cbn [app]; reflexivity ] ].

Section IndexedProtocolsOk.

Context (hdr : ec_header) {ec : controller}.
Implicit Types w : world ec.

Lemma read_gpio_status_exchange PinNumber pvalue w :
  lock_held w = false ->
  wp (read_gpio_status hdr PinNumber pvalue) w
    (gpio_read_protocol hdr (EC_GPIO_STATUS_READ hdr) PinNumber pvalue w).
Proof.
  intros Hfree. destruct w as [c l s t]. cbn in Hfree. subst l.
  unfold read_gpio_status, gpio_read_protocol. cbv zeta.
  repeat ec_step.
  all: ec_transaction; ec_gpio.
Qed.

Lemma read_gpio_dir_exchange PinNumber pvalue w :
  lock_held w = false ->
  wp (read_gpio_dir hdr PinNumber pvalue) w
    (gpio_read_protocol hdr (EC_GPIO_DIR_READ hdr) PinNumber pvalue w).
Proof.
  intros Hfree. destruct w as [c l s t]. cbn in Hfree. subst l.
  unfold read_gpio_dir, gpio_read_protocol. cbv zeta.
  repeat ec_step.
  all: ec_transaction; ec_gpio.
Qed.

Lemma write_gpio_status_exchange PinNumber value w :
  lock_held w = false ->
  wp (write_gpio_status hdr PinNumber value) w
    (gpio_write_protocol hdr (EC_GPIO_STATUS_WRITE hdr) PinNumber value w).
Proof.
  intros Hfree. destruct w as [c l s t]. cbn in Hfree. subst l.
  unfold write_gpio_status, gpio_write_protocol. cbv zeta.
  repeat ec_step.
  all: ec_transaction; ec_gpio.
Qed.

Lemma write_gpio_dir_exchange PinNumber value w :
  lock_held w = false ->
  wp (write_gpio_dir hdr PinNumber value) w
    (gpio_write_protocol hdr (EC_GPIO_DIR_WRITE hdr) PinNumber value w).
Proof.
  intros Hfree. destruct w as [c l s t]. cbn in Hfree. subst l.
  unfold write_gpio_dir, gpio_write_protocol. cbv zeta.
  repeat ec_step.
  all: ec_transaction; ec_gpio.
Qed.

Lemma ad_sample_range MSB LSB multi :
  0 <= ad_raw MSB LSB * uchar multi * 100 <= 1023 * 255 * 100.
Proof.
  pose proof (ad_raw_range MSB LSB). pose proof (uchar_range multi). nia.
Qed.

Lemma read_ad_value_result hwpin multi w :
  lock_held w = false ->
  wp (read_ad_value hdr hwpin multi) w (ad_result w).
Proof.
  intros Hfree. destruct w as [c l s t]. cbn in Hfree. subst l.
  unfold read_ad_value, ad_result. cbv zeta.
  repeat ec_step.
  all: cbn [ctl lock_held stray_unlocks trace]; rewrite <- ?app_assoc;
    eexists; split; [reflexivity |]; ec_read.
  all: first
    [ left; split; [reflexivity |]; split; [cbn [length]; lia |];
      cbn [head];
      first [ discriminate
            | intros Hff; injection Hff as Hff;
              match goal with
              | H : (?v =? 255) = false |- _ => apply Z.eqb_neq in H; contradiction
              end ]
    | right; left; split; [reflexivity |];
      match goal with
      | H : (?v =? 255) = true |- _ => apply Z.eqb_eq in H; subst v
      end; reflexivity
    | right; right; split; [| reflexivity];
      rewrite ad_scale_exact; apply ad_sample_range ].
Qed.

End IndexedProtocolsOk.

(** ** A controller that never gets ready *)

Section NeverReady.

Context (hdr : ec_header) (more : ec_header_more) {ec : controller}.
Hypothesis stuck : never_ready hdr ec.
Implicit Types w : world ec.

Lemma jammed_wait_ibf_loop n : jammed ec -> forall w,
  exists c evs,
    wait_ibf_loop hdr n w
    = Returns (- ETIMEDOUT)
        (mkWorld c (lock_held w) (stray_unlocks w) (trace w ++ evs))
    /\ handshake evs.
Proof.
  intros Hjam. induction n as [| n IH]; intros w.
  - exists (ctl w), []. split; [| reflexivity].
    cbn. unfold Ret. rewrite app_nil_r. destruct w; reflexivity.
  - cbn [wait_ibf_loop]. unfold bind at 1. unfold inb at 1.
    pose proof (Hjam (ctl w)) as Hfull. unfold ibf_full in Hfull.
    apply Z.eqb_neq in Hfull. rewrite Hfull.
    unfold bind at 1. unfold udelay at 1. unfold log.
    cbn [ctl lock_held stray_unlocks trace].
    match goal with
    | |- context [wait_ibf_loop hdr n ?w1] =>
        destruct (IH w1) as (c & evs & Hrun & Hh)
    end.
    rewrite Hrun. cbn [ctl lock_held stray_unlocks trace].
    eexists c, (_ :: _ :: evs). split.
    + rewrite <- !app_assoc. reflexivity.
    + exact Hh.
Qed.

Lemma stuck_wait_ibf w :
  exists c evs,
    wait_ibf hdr w
    = Returns (- ETIMEDOUT)
        (mkWorld c (lock_held w) (stray_unlocks w) (trace w ++ evs))
    /\ handshake evs.
Proof.
  destruct stuck as [Hbudget | Hjam].
  - unfold wait_ibf. replace (Z.to_nat (EC_MAX_TIMEOUT_COUNT hdr)) with O by lia.
    exists (ctl w), []. split; [| reflexivity].
    cbn. unfold Ret. rewrite app_nil_r. destruct w; reflexivity.
  - apply jammed_wait_ibf_loop, Hjam.
Qed.

Lemma wp_run_wait_ibf_stuck {A} (label : Z -> M ec A) (k : M ec A) w
  (Q : A -> world ec -> Prop) :
  (forall c evs, handshake evs ->
     wp (label (- ETIMEDOUT))
       (mkWorld c (lock_held w) (stray_unlocks w) (trace w ++ evs)) Q) ->
  wp (or_goto (wait_ibf hdr) label k) w Q.
Proof.
  intros Hl. apply wp_or_goto.
  destruct (stuck_wait_ibf w) as (c & evs & Hrun & Hh).
  eexists _, _. split; [exact Hrun |]. apply Hl, Hh.
Qed.

End NeverReady.

(** One step of a call on a controller that never gets ready. *)
Ltac stuck_step H :=
  cbn [ctl lock_held stray_unlocks trace];
  lazymatch goal with
  | |- wp (or_goto (wait_ibf _) _ _) _ _ =>
      apply (wp_run_wait_ibf_stuck _ H); intros ? ? ?
  | |- wp (bind _ _) _ _ => apply wp_bind
  | |- wp mutex_lock _ _ => apply wp_mutex_lock; [reflexivity |]
  | |- wp mutex_unlock _ _ => apply wp_mutex_unlock; [reflexivity |]
  | |- wp (Ret _) _ _ => apply wp_ret
  end.

Ltac stuck_run H :=
  repeat stuck_step H;
  cbn [ctl lock_held stray_unlocks trace fst snd]; rewrite <- ?app_assoc;
  split; [reflexivity |]; split; [reflexivity |];
  eexists; split; [reflexivity |]; ec_read; reflexivity.

Section NeverReadyOk.

Context (hdr : ec_header) (more : ec_header_more) {ec : controller}.
Hypothesis stuck : never_ready hdr ec.
Implicit Types w : world ec.

Lemma stuck_write_hw_ram addr data w :
  lock_held w = false -> wp (write_hw_ram hdr addr data) w (gives_up w).
Proof.
  intros Hfree. destruct w as [c l s t]. cbn in Hfree. subst l.
  unfold write_hw_ram, gives_up. cbv zeta. stuck_run stuck.
Qed.

Lemma stuck_read_hw_ram addr data w :
  lock_held w = false ->
  wp (read_hw_ram hdr addr data) w
    (fun r w' => gives_up w (fst r) w' /\ snd r = data /\
                 stray_unlocks w' = stray_unlocks w).
Proof.
  intros Hfree. destruct w as [c l s t]. cbn in Hfree. subst l.
  unfold read_hw_ram, gives_up. cbv zeta. repeat stuck_step stuck.
  cbn [ctl lock_held stray_unlocks trace fst snd]; rewrite <- ?app_assoc.
  repeat split. eexists; split; [reflexivity |]; ec_read; reflexivity.
Qed.

End NeverReadyOk.

(** ** Properties of the further protocols *)

(** X1.  Each of the eight remaining port protocols takes the gate once,
    before its first port access, and releases it once, as its last action,
    on every path, timeouts included. *)
Theorem more_gated_operations_release (hdr : ec_header) (more : ec_header_more)
  (ec : controller) (w : world ec) :
  lock_held w = false ->
  (forall addr pvalue,
     wp (read_acpi_value hdr more addr pvalue) w
       (fun _ w' => exists evs, transaction w w' evs)) /\
  (forall addr value,
     wp (write_acpi_value hdr more addr value) w
       (fun _ w' => exists evs, transaction w w' evs)) /\
  (forall addr data,
     wp (write_hw_extend_ram hdr more addr data) w
       (fun _ w' => exists evs, transaction w w' evs)) /\
  (forall data,
     wp (write_hwram_command hdr data) w
       (fun _ w' => exists evs, transaction w w' evs)) /\
  (forall addr pdata,
     wp (read_onekey_status hdr more addr pdata) w
       (fun _ w' => exists evs, transaction w w' evs)) /\
  (forall addr,
     wp (write_onekey_status hdr more addr) w
       (fun _ w' => exists evs, transaction w w' evs)) /\
  (forall addr pdata,
     wp (ec_oem_get_status hdr more addr pdata) w
       (fun _ w' => exists evs, transaction w w' evs)) /\
  (forall addr pdata,
     wp (ec_oem_set_status hdr more addr pdata) w
       (fun _ w' => exists evs, transaction w w' evs)).
Proof.
  intros Hfree. repeat split; intros.
  - eapply wp_mono; [apply read_acpi_value_exchange, Hfree |].
    intros r w' (evs & Htx & _). eauto.
  - eapply wp_mono; [apply write_acpi_value_exchange, Hfree |].
    intros r w' (evs & Htx & _). eauto.
  - eapply wp_mono; [apply write_hw_extend_ram_exchange, Hfree |].
    intros r w' (evs & Htx & _). eauto.
  - eapply wp_mono; [apply write_hwram_command_exchange, Hfree |].
    intros r w' (evs & Htx & _). eauto.
  - eapply wp_mono; [apply read_onekey_status_exchange, Hfree |].
    intros r w' (evs & Htx & _). eauto.
  - eapply wp_mono; [apply write_onekey_status_exchange, Hfree |].
    intros r w' (evs & Htx & _). eauto.
  - eapply wp_mono; [apply ec_oem_get_status_exchange, Hfree |].
    intros r w' (evs & Htx & _). eauto.
  - eapply wp_mono; [apply ec_oem_set_status_exchange, Hfree |].
    intros r w' (evs & Htx & _). eauto.
Qed.

Lemma more_gated_operations_release_witness :
  lock_held (scripted_boot stuck_script) = false /\
  wp (ec_oem_set_status sample_header sample_header_more 0x10 0x01)
    (scripted_boot stuck_script)
    (fun _ w' => exists evs, transaction (scripted_boot stuck_script) w' evs).
Proof.
  split; [reflexivity |].
  exact (proj2 (proj2 (proj2 (proj2 (proj2 (proj2 (proj2
           (more_gated_operations_release sample_header sample_header_more
              scripted (scripted_boot stuck_script) eq_refl)))))))
           0x10 0x01).
Defined.

(** X2.  The HW RAM accessor.  Each call takes the gate, plays its script
    and releases the gate: [read_hw_ram] sends the read opcode to the
    command port and the address to the data port, each after [wait_ibf],
    then reads one byte from the data port after [wait_obf];
    [write_hw_ram] and [write_hw_extend_ram] send their opcode, the address
    and the data byte, each after [wait_ibf]; [write_hwram_command] sends
    one byte to the command port after [wait_ibf].  A call returns 0 when
    every wait of its script passed, having done the whole exchange, and
    the read returns the byte it read.  It returns [-ETIMEDOUT] when a wait
    failed: it stops at that wait, having done only the part of its writes
    before it and no read of the data port, and a failed read leaves
    [*data] as it was. *)
Theorem hw_ram_accessor_exchange (hdr : ec_header) (more : ec_header_more)
  (ec : controller) (w : world ec) :
  lock_held w = false ->
  (forall addr data,
     wp (read_hw_ram hdr addr data) w
       (fun r w' =>
          read_played hdr
            (send (EC_HW_RAM_READ hdr) addr ++ [WaitOBF; Inb]) data w r w' /\
          read_protocol
            [EvOut (uchar (EC_HW_RAM_READ hdr)) EC_COMMAND_PORT;
             EvOut (uchar addr) EC_STATUS_PORT] data w r w')) /\
  (forall addr data,
     wp (write_hw_ram hdr addr data) w
       (fun r w' =>
          write_played hdr
            (send (EC_HW_RAM_WRITE hdr) addr
               ++ [WaitIBF; Outb data EC_STATUS_PORT]) w r w' /\
          write_protocol
            [EvOut (uchar (EC_HW_RAM_WRITE hdr)) EC_COMMAND_PORT;
             EvOut (uchar addr) EC_STATUS_PORT;
             EvOut (uchar data) EC_STATUS_PORT] w r w')) /\
  (forall addr data,
     wp (write_hw_extend_ram hdr more addr data) w
       (fun r w' =>
          write_played hdr
            (send (EC_HW_EXTEND_RAM_WRITE more) addr
               ++ [WaitIBF; Outb data EC_STATUS_PORT]) w r w' /\
          write_protocol
            [EvOut (uchar (EC_HW_EXTEND_RAM_WRITE more)) EC_COMMAND_PORT;
             EvOut (uchar addr) EC_STATUS_PORT;
             EvOut (uchar data) EC_STATUS_PORT] w r w')) /\
  (forall data,
     wp (write_hwram_command hdr data) w
       (fun r w' =>
          write_played hdr [WaitIBF; Outb data EC_COMMAND_PORT] w r w' /\
          write_protocol [EvOut (uchar data) EC_COMMAND_PORT] w r w')).
Proof.
  intros Hfree. repeat split; intros; apply wp_conj.
  - apply read_hw_ram_played, Hfree.
  - apply read_hw_ram_exchange, Hfree.
  - apply write_hw_ram_played, Hfree.
  - apply write_hw_ram_exchange, Hfree.
  - apply write_hw_extend_ram_played, Hfree.
  - apply write_hw_extend_ram_exchange, Hfree.
  - apply write_hwram_command_played, Hfree.
  - apply write_hwram_command_exchange, Hfree.
Qed.

Lemma hw_ram_accessor_exchange_witness :
  lock_held (scripted_boot (ready_script [0x5A])) = false /\
  returned (read_hw_ram sample_header 0x10 0 (scripted_boot (ready_script [0x5A])))
  = Some (0, 0x5A).
Proof.
  split; [reflexivity |].
  destruct (proj1 (hw_ram_accessor_exchange sample_header sample_header_more
                     scripted (scripted_boot (ready_script [0x5A])) eq_refl)
              0x10 0)
    as (r & w' & Hrun & _ & evs & (Htr & _) & Hcases).
  rewrite Hrun. cbn [returned]. f_equal.
  assert (Hw : w' = final (read_hw_ram sample_header 0x10 0
                             (scripted_boot (ready_script [0x5A]))))
    by (rewrite Hrun; reflexivity).
  rewrite Hw in Htr. vm_compute in Htr. subst evs.
  destruct r as [ret v].
  destruct Hcases as [(Hret & _ & Hex) | (_ & _ & Hreads & _)];
    [| discriminate Hreads].
  cbn [fst snd] in Hret, Hex. subst ret.
  vm_compute in Hex. injection Hex as <-. reflexivity.
Defined.

(** X3.  The ACPI RAM, one-key-recovery and OEM status protocols.  Each
    call takes the gate, plays its script and releases the gate.  The reads
    send their opcode (for the OEM status also the read sub-opcode) and the
    address, each after [wait_ibf], then read one byte after [wait_obf];
    the writes send the opcode (the write sub-opcode), the address and, but
    for the one-key status, the value, each after [wait_ibf].  A call
    returns 0 when every wait of its script passed, having done the whole
    exchange, and a read returns the byte it read.  It returns
    [-ETIMEDOUT] when a wait failed: it stops at that wait, after a part of
    the writes and without a read of the data port. *)
Theorem status_protocols_exchange (hdr : ec_header) (more : ec_header_more)
  (ec : controller) (w : world ec) :
  lock_held w = false ->
  (forall addr pvalue,
     wp (read_acpi_value hdr more addr pvalue) w
       (fun r w' =>
          read_played hdr
            (send (EC_ACPI_RAM_READ more) addr ++ [WaitOBF; Inb])
            pvalue w r w' /\
          read_protocol
            [EvOut (uchar (EC_ACPI_RAM_READ more)) EC_COMMAND_PORT;
             EvOut (uchar addr) EC_STATUS_PORT] pvalue w r w')) /\
  (forall addr value,
     wp (write_acpi_value hdr more addr value) w
       (fun r w' =>
          write_played hdr
            (send (EC_ACPI_DATA_WRITE more) addr
               ++ [WaitIBF; Outb value EC_STATUS_PORT]) w r w' /\
          write_protocol
            [EvOut (uchar (EC_ACPI_DATA_WRITE more)) EC_COMMAND_PORT;
             EvOut (uchar addr) EC_STATUS_PORT;
             EvOut (uchar value) EC_STATUS_PORT] w r w')) /\
  (forall addr pdata,
     wp (read_onekey_status hdr more addr pdata) w
       (fun r w' =>
          read_played hdr
            (send (EC_ONE_KEY_FLAG more) addr ++ [WaitOBF; Inb]) 0 w r w' /\
          read_protocol
            [EvOut (uchar (EC_ONE_KEY_FLAG more)) EC_COMMAND_PORT;
             EvOut (uchar addr) EC_STATUS_PORT] 0 w r w')) /\
  (forall addr,
     wp (write_onekey_status hdr more addr) w
       (fun r w' =>
          write_played hdr (send (EC_ONE_KEY_FLAG more) addr) w r w' /\
          write_protocol
            [EvOut (uchar (EC_ONE_KEY_FLAG more)) EC_COMMAND_PORT;
             EvOut (uchar addr) EC_STATUS_PORT] w r w')) /\
  (forall addr pdata,
     wp (ec_oem_get_status hdr more addr pdata) w
       (fun r w' =>
          read_played hdr
            (send (EC_ASG_OEM more) (EC_ASG_OEM_READ more)
               ++ [WaitIBF; Outb addr EC_STATUS_PORT; WaitOBF; Inb])
            0 w r w' /\
          read_protocol
            [EvOut (uchar (EC_ASG_OEM more)) EC_COMMAND_PORT;
             EvOut (uchar (EC_ASG_OEM_READ more)) EC_STATUS_PORT;
             EvOut (uchar addr) EC_STATUS_PORT] 0 w r w')) /\
  (forall addr pdata,
     wp (ec_oem_set_status hdr more addr pdata) w
       (fun r w' =>
          write_played hdr
            (send (EC_ASG_OEM more) (EC_ASG_OEM_WRITE more)
               ++ [WaitIBF; Outb addr EC_STATUS_PORT;
                   WaitIBF; Outb pdata EC_STATUS_PORT]) w r w' /\
          write_protocol
            [EvOut (uchar (EC_ASG_OEM more)) EC_COMMAND_PORT;
             EvOut (uchar (EC_ASG_OEM_WRITE more)) EC_STATUS_PORT;
             EvOut (uchar addr) EC_STATUS_PORT;
             EvOut (uchar pdata) EC_STATUS_PORT] w r w')).
Proof.
  intros Hfree. repeat split; intros; apply wp_conj.
  - apply read_acpi_value_played, Hfree.
  - apply read_acpi_value_exchange, Hfree.
  - apply write_acpi_value_played, Hfree.
  - apply write_acpi_value_exchange, Hfree.
  - apply read_onekey_status_played, Hfree.
  - apply read_onekey_status_exchange, Hfree.
  - apply write_onekey_status_played, Hfree.
  - apply write_onekey_status_exchange, Hfree.
  - apply ec_oem_get_status_played, Hfree.
  - apply ec_oem_get_status_exchange, Hfree.
  - apply ec_oem_set_status_played, Hfree.
  - apply ec_oem_set_status_exchange, Hfree.
Qed.

Lemma status_protocols_exchange_witness :
  lock_held (scripted_boot (ready_script [0x33])) = false /\
  returned (ec_oem_get_status sample_header sample_header_more 0x10 0x77
              (scripted_boot (ready_script [0x33])))
  = Some (0, 0x33).
Proof.
  split; [reflexivity |].
  destruct (proj1 (proj2 (proj2 (proj2 (proj2
              (status_protocols_exchange sample_header sample_header_more
                 scripted (scripted_boot (ready_script [0x33])) eq_refl)))))
              0x10 0x77)
    as (r & w' & Hrun & _ & evs & (Htr & _) & Hcases).
  rewrite Hrun. cbn [returned]. f_equal.
  assert (Hw : w' = final (ec_oem_get_status sample_header sample_header_more
                             0x10 0x77 (scripted_boot (ready_script [0x33]))))
    by (rewrite Hrun; reflexivity).
  rewrite Hw in Htr. vm_compute in Htr. subst evs.
  destruct r as [ret v].
  destruct Hcases as [(Hret & _ & Hex) | (_ & _ & Hreads & _)];
    [| discriminate Hreads].
  cbn [fst snd] in Hret, Hex. subst ret.
  vm_compute in Hex. injection Hex as <-. reflexivity.
Defined.

(** X4.  What a failed read leaves in its output.  [read_onekey_status] and
    [ec_oem_get_status] clear the output before their first wait, so any
    failure returns 0 in it whatever the caller had there; [read_hw_ram],
    [read_acpi_value], [read_gpio_status] and [read_gpio_dir] write the
    output only on success, so any failure, a timeout or a rejected pin,
    leaves it as the caller had it. *)
Theorem failed_read_output (hdr : ec_header) (more : ec_header_more)
  (ec : controller) (w : world ec) (addr out : Z) :
  lock_held w = false ->
  wp (read_onekey_status hdr more addr out) w
    (fun r _ => fst r <> 0 -> snd r = 0) /\
  wp (ec_oem_get_status hdr more addr out) w
    (fun r _ => fst r <> 0 -> snd r = 0) /\
  wp (read_hw_ram hdr addr out) w
    (fun r _ => fst r <> 0 -> snd r = out) /\
  wp (read_acpi_value hdr more addr out) w
    (fun r _ => fst r <> 0 -> snd r = out) /\
  wp (read_gpio_status hdr addr out) w
    (fun r _ => fst r <> 0 -> snd r = out) /\
  wp (read_gpio_dir hdr addr out) w
    (fun r _ => fst r <> 0 -> snd r = out).
Proof.
  intros Hfree. repeat split.
  - eapply wp_mono; [apply read_onekey_status_exchange, Hfree |].
    intros r w' (evs & _ & [(Hr & _) | (_ & Hv & _)]) Hne; [contradiction | exact Hv].
  - eapply wp_mono; [apply ec_oem_get_status_exchange, Hfree |].
    intros r w' (evs & _ & [(Hr & _) | (_ & Hv & _)]) Hne; [contradiction | exact Hv].
  - eapply wp_mono; [apply read_hw_ram_exchange, Hfree |].
    intros r w' (evs & _ & [(Hr & _) | (_ & Hv & _)]) Hne; [contradiction | exact Hv].
  - eapply wp_mono; [apply read_acpi_value_exchange, Hfree |].
    intros r w' (evs & _ & [(Hr & _) | (_ & Hv & _)]) Hne; [contradiction | exact Hv].
  - eapply wp_mono; [apply read_gpio_status_exchange, Hfree |].
    intros r w' (evs & _ & [(Hr & _) | [(_ & Hv & _) | (_ & Hv & _)]]) Hne;
      [contradiction | exact Hv | exact Hv].
  - eapply wp_mono; [apply read_gpio_dir_exchange, Hfree |].
    intros r w' (evs & _ & [(Hr & _) | [(_ & Hv & _) | (_ & Hv & _)]]) Hne;
      [contradiction | exact Hv | exact Hv].
Qed.

Lemma failed_read_output_witness :
  lock_held (scripted_boot stuck_script) = false /\
  returned (read_onekey_status sample_header sample_header_more 0x10 0x77
              (scripted_boot stuck_script))
  = Some (- ETIMEDOUT, 0).
Proof.
  split; [reflexivity |].
  destruct (proj1 (failed_read_output sample_header sample_header_more scripted
                     (scripted_boot stuck_script) 0x10 0x77 eq_refl))
    as (r & w' & Hrun & Hout).
  rewrite Hrun. cbn [returned]. f_equal.
  destruct r as [ret v].
  assert (Hret : ret = - ETIMEDOUT).
  { pose proof (f_equal returned Hrun) as E. vm_compute in E.
    injection E as E _. symmetry. exact E. }
  subst ret. cbn [fst snd] in Hout. f_equal. apply Hout. discriminate.
Defined.

(** X5.  The GPIO protocols in full.  Each takes the gate, selects the
    pin and reads the controller's answer, each step after its handshake
    wait.  On an answer other than 0xFF it sends its opcode and then reads
    the value (the reads) or writes it (the writes), and returns 0 when
    every wait passed; on 0xFF it releases the gate and returns -1 at once,
    never [-ETIMEDOUT]; at the first wait that fails it releases the gate
    and returns [-ETIMEDOUT].  The value of a write reaches the controller
    only on the path that returns 0, as the last port access, and the
    output of a read is written only on that path. *)
Theorem gpio_protocols_exchange (hdr : ec_header) (ec : controller) (w : world ec)
  (PinNumber value : Z) :
  lock_held w = false ->
  wp (read_gpio_status hdr PinNumber value) w
    (fun r w' =>
       read_played hdr (gpio_read_script hdr (EC_GPIO_STATUS_READ hdr) PinNumber)
         value w r w' /\
       gpio_read_protocol hdr (EC_GPIO_STATUS_READ hdr) PinNumber value w r w') /\
  wp (read_gpio_dir hdr PinNumber value) w
    (fun r w' =>
       read_played hdr (gpio_read_script hdr (EC_GPIO_DIR_READ hdr) PinNumber)
         value w r w' /\
       gpio_read_protocol hdr (EC_GPIO_DIR_READ hdr) PinNumber value w r w') /\
  wp (write_gpio_status hdr PinNumber value) w
    (fun r w' =>
       write_played hdr
         (gpio_write_script hdr (EC_GPIO_STATUS_WRITE hdr) PinNumber value)
         w r w' /\
       gpio_write_protocol hdr (EC_GPIO_STATUS_WRITE hdr) PinNumber value w r w') /\
  wp (write_gpio_dir hdr PinNumber value) w
    (fun r w' =>
       write_played hdr
         (gpio_write_script hdr (EC_GPIO_DIR_WRITE hdr) PinNumber value)
         w r w' /\
       gpio_write_protocol hdr (EC_GPIO_DIR_WRITE hdr) PinNumber value w r w').
Proof.
  intros Hfree. repeat split; apply wp_conj.
  - apply read_gpio_status_played, Hfree.
  - apply read_gpio_status_exchange, Hfree.
  - apply read_gpio_dir_played, Hfree.
  - apply read_gpio_dir_exchange, Hfree.
  - apply write_gpio_status_played, Hfree.
  - apply write_gpio_status_exchange, Hfree.
  - apply write_gpio_dir_played, Hfree.
  - apply write_gpio_dir_exchange, Hfree.
Qed.

Lemma gpio_protocols_exchange_witness :
  lock_held (scripted_boot (ready_script [0x07; 0x01])) = false /\
  returned (read_gpio_status sample_header 0x07 0
              (scripted_boot (ready_script [0x07; 0x01])))
  = Some (0, 0x01).
Proof.
  split; [reflexivity |].
  destruct (proj1 (gpio_protocols_exchange sample_header scripted
                     (scripted_boot (ready_script [0x07; 0x01])) 0x07 0 eq_refl))
    as (r & w' & Hrun & _ & evs & (Htr & _) & Hcases).
  rewrite Hrun. cbn [returned]. f_equal.
  assert (Hw : w' = final (read_gpio_status sample_header 0x07 0
                             (scripted_boot (ready_script [0x07; 0x01]))))
    by (rewrite Hrun; reflexivity).
  rewrite Hw in Htr. vm_compute in Htr. subst evs.
  destruct r as [ret v]. cbn [fst snd] in Hcases.
  destruct Hcases as [(Hret & _ & echo & _ & Hex)
                     | [(_ & _ & Hex) | (_ & _ & echo & _ & k & Hex)]];
    vm_compute in Hex.
  - subst ret. injection Hex as _ <-. reflexivity.
  - discriminate Hex.
  - destruct k as [| e1 [| e2 k]]; discriminate Hex.
Defined.

(** X6.  The results of [read_ad_value] do not overlap.  A sample is
    returned only when the whole script was played, after three reads of
    the data port, and is between 0 and 1023 * 255 * 100; the other results
    are -1, exactly when the only data-port read was 0xFF, and
    [-ETIMEDOUT], exactly when a wait failed, which leaves fewer than three
    reads, the first of them not 0xFF. *)
Theorem read_ad_value_results (hdr : ec_header) (ec : controller) (w : world ec)
  (hwpin multi : Z) :
  lock_held w = false ->
  wp (read_ad_value hdr hwpin multi) w
    (fun r w' =>
       sample_played hdr hwpin (uchar multi) w r w' /\ ad_result w r w').
Proof.
  intros Hfree. apply wp_conj.
  - apply read_ad_value_played, Hfree.
  - apply read_ad_value_result, Hfree.
Qed.

Lemma read_ad_value_results_witness :
  lock_held (scripted_boot (ready_script [0x03; 0xFF; 0xFF])) = false /\
  returned (read_ad_value sample_header 3 255
              (scripted_boot (ready_script [0x03; 0xFF; 0xFF])))
  = Some (1023 * 255 * 100).
Proof.
  split; [reflexivity |].
  destruct (read_ad_value_results sample_header scripted
              (scripted_boot (ready_script [0x03; 0xFF; 0xFF])) 3 255 eq_refl)
    as (r & w' & Hrun & _ & evs & Htr & Hcases).
  rewrite Hrun. cbn [returned]. f_equal.
  assert (Hw : w' = final (read_ad_value sample_header 3 255
                             (scripted_boot (ready_script [0x03; 0xFF; 0xFF]))))
    by (rewrite Hrun; reflexivity).
  rewrite Hw in Htr. vm_compute in Htr. subst evs.
  vm_compute in Hrun. injection Hrun as <- _. reflexivity.
Defined.

(** ** The completion poll and the controller that never gets ready *)

Section TraceFacts2.

Lemma exchange_app a b : exchange (a ++ b) = exchange a ++ exchange b.
Proof.
  induction a as [| [[] v | v p | us | |] a IH]; cbn; rewrite ?IH; reflexivity.
Qed.

Lemma lock_count_app a b : lock_count (a ++ b) = (lock_count a + lock_count b)%nat.
Proof.
  induction a as [| [p v | v p | us | |] a IH]; cbn; rewrite ?IH; reflexivity.
Qed.

End TraceFacts2.

Section Poll.

Context (hdr : ec_header) {ec : controller}.
Implicit Types w : world ec.

Lemma smbus_protocol_poll_attempts retry : forall w,
  lock_held w = false ->
  wp (smbus_protocol_poll hdr retry) w (poll_attempts (S retry) w).
Proof.
  induction retry as [| retry IH]; intros w Hfree;
    cbn [smbus_protocol_poll]; apply wp_bind.
  all: eapply wp_mono; [apply read_hw_ram_ok, Hfree |].
  all: intros [ret v] w1 (evs & Htx & Hr); cbn [fst snd] in Hr.
  all: pose proof Htx as (Htr & Hcycle & Hl1 & Hs1).
  all: apply gate_cycle_counts in Hcycle; destruct Hcycle as (_ & _ & Hlc & _).
  all: destruct Hr as [(-> & Hv & Hdt) | (-> & -> & Hreads)]; cbv beta iota.
  all: change (0 =? 0) with true; change (- ETIMEDOUT =? 0) with false;
    change (255 =? 0) with false; cbv iota.
  - apply wp_ret. exists evs. split; [exact Htr |]. left.
    split; [reflexivity |]. split; [lia |]. exists v.
    rewrite <- status_reads_data_traffic, Hdt. reflexivity.
  - apply wp_bind, wp_udelay, wp_ret. cbn [trace].
    exists (evs ++ [EvDelay (EC_UDELAY_TIME hdr)]).
    split; [rewrite Htr, <- app_assoc; reflexivity |]. right.
    split; [reflexivity |].
    rewrite lock_count_app, status_reads_app, Hlc, Hreads. split; reflexivity.
  - apply wp_ret. exists evs. split; [exact Htr |]. left.
    split; [reflexivity |]. split; [lia |]. exists v.
    rewrite <- status_reads_data_traffic, Hdt. reflexivity.
  - apply wp_bind, wp_udelay. cbn [ctl lock_held stray_unlocks trace].
    eapply wp_mono; [apply IH; exact Hl1 |].
    intros r w' (evs' & Htr' & Hr'). cbn [trace] in Htr'.
    exists (evs ++ [EvDelay (EC_UDELAY_TIME hdr)] ++ evs').
    split; [rewrite Htr', Htr, <- !app_assoc; reflexivity |].
    rewrite !lock_count_app, !status_reads_app, Hlc, Hreads. cbn [app lock_count status_reads Nat.add].
    destruct Hr' as [(-> & Hn & p & Hp) | (-> & Hn & Hp)]; [left | right].
    + split; [reflexivity |]. split; [lia | eauto].
    + split; [reflexivity |]. split; [lia | exact Hp].
Qed.

End Poll.

(** X8.  [wait_smbus_protocol_finish] reads the protocol cell at most 1001
    times.  It returns 0 at the first read that succeeds, without looking
    further, and [-ETIMEDOUT] only when all 1001 reads timed out, in which
    case it has read nothing from the data port. *)
Theorem wait_smbus_protocol_finish_attempts (hdr : ec_header) (ec : controller)
  (w : world ec) :
  lock_held w = false ->
  wp (wait_smbus_protocol_finish hdr) w (poll_attempts 1001 w).
Proof. intros Hfree. apply smbus_protocol_poll_attempts, Hfree. Qed.

Lemma wait_smbus_protocol_finish_attempts_witness :
  lock_held (scripted_boot (ready_script [0x00])) = false /\
  wp (wait_smbus_protocol_finish sample_header)
    (scripted_boot (ready_script [0x00]))
    (poll_attempts 1001 (scripted_boot (ready_script [0x00]))).
Proof.
  split; [reflexivity |].
  exact (wait_smbus_protocol_finish_attempts sample_header scripted
           (scripted_boot (ready_script [0x00])) eq_refl).
Defined.

Section NeverReadySMBus.

Context (hdr : ec_header) {ec : controller}.
Hypothesis stuck : never_ready hdr ec.
Implicit Types w : world ec.

Lemma stuck_poll retry : forall w,
  lock_held w = false ->
  wp (smbus_protocol_poll hdr retry) w
    (fun r w' => gives_up w r w' /\ stray_unlocks w' = stray_unlocks w).
Proof.
  induction retry as [| retry IH]; intros w Hfree;
    cbn [smbus_protocol_poll]; apply wp_bind.
  all: eapply wp_mono; [apply (stuck_read_hw_ram hdr stuck), Hfree |].
  all: intros [ret v] w1 ((Hret & Hl1 & evs & Htr & Hex) & Hv & Hs1);
    cbn [fst snd] in Hret, Hv; subst ret v; cbv beta iota.
  all: change (- ETIMEDOUT =? 0) with false; change (255 =? 0) with false;
    cbv iota.
  - apply wp_bind, wp_udelay, wp_ret. cbn [ctl lock_held stray_unlocks trace].
    split; [| exact Hs1]. split; [reflexivity |]. split; [exact Hl1 |].
    exists (evs ++ [EvDelay (EC_UDELAY_TIME hdr)]).
    split; [rewrite Htr, <- app_assoc; reflexivity |].
    rewrite exchange_app, Hex. reflexivity.
  - apply wp_bind, wp_udelay. cbn [ctl lock_held stray_unlocks trace].
    eapply wp_mono; [apply IH; exact Hl1 |].
    intros r w' ((-> & Hl' & evs' & Htr' & Hex') & Hs').
    cbn [ctl lock_held stray_unlocks trace] in Htr', Hs'.
    split; [| congruence]. split; [reflexivity |]. split; [exact Hl' |].
    exists (evs ++ [EvDelay (EC_UDELAY_TIME hdr)] ++ evs').
    split; [rewrite Htr', Htr, <- !app_assoc; reflexivity |].
    rewrite !exchange_app, Hex, Hex'. reflexivity.
Qed.

Lemma stuck_smbus_read_byte req w :
  lock_held w = false ->
  wp (smbus_read_byte hdr (Some req)) w
    (fun r w' => gives_up w (fst r) w' /\ snd r = Some req).
Proof.
  intros Hfree. unfold smbus_read_byte. cbv zeta. apply wp_or_goto.
  eapply wp_mono; [apply (stuck_write_hw_ram hdr stuck), Hfree |].
  intros r w' Hgive. pose proof Hgive as (-> & _).
  change (- ETIMEDOUT =? 0) with false. cbv iota.
  apply wp_ret. split; [exact Hgive | reflexivity].
Qed.

Lemma stuck_smbus_read_word req w :
  lock_held w = false ->
  wp (smbus_read_word hdr (Some req)) w
    (fun r w' => gives_up w (fst r) w' /\ snd r = Some req).
Proof.
  intros Hfree. unfold smbus_read_word. cbv zeta. apply wp_deref, wp_or_goto.
  eapply wp_mono; [apply (stuck_write_hw_ram hdr stuck), Hfree |].
  intros r w' Hgive. pose proof Hgive as (-> & _).
  change (- ETIMEDOUT =? 0) with false. cbv iota.
  apply wp_ret. split; [exact Hgive | reflexivity].
Qed.

Lemma stuck_smbus_write_byte req w :
  lock_held w = false ->
  wp (smbus_write_byte hdr (Some req)) w (gives_up w).
Proof.
  intros Hfree. unfold smbus_write_byte. cbv zeta. apply wp_deref, wp_or_goto.
  eapply wp_mono; [apply (stuck_write_hw_ram hdr stuck), Hfree |].
  intros r w' (-> & Hl & evs & Htr & Hex).
  change (- ETIMEDOUT =? 0) with false. cbv iota.
  apply wp_bind, wp_stray_unlock; [exact Hl |]. apply wp_ret.
  split; [reflexivity |]. split; [reflexivity |]. cbn [trace].
  exists (evs ++ [EvUnlock]).
  split; [rewrite Htr, <- app_assoc; reflexivity |].
  rewrite exchange_app, Hex. reflexivity.
Qed.

End NeverReadySMBus.

(** X7.  When no handshake wait can succeed, because the retry budget is
    not positive or because the controller keeps its input buffer full,
    each of the fifteen port protocols other than the table enumeration,
    the completion poll and the three SMBus calls return [-ETIMEDOUT]
    without having written to a port or read the data port, and leave the
    gate free; the SMBus reads leave their request as it was. *)
Theorem never_ready_times_out (hdr : ec_header) (more : ec_header_more)
  (ec : controller) (w : world ec) :
  never_ready hdr ec ->
  lock_held w = false ->
  (forall addr data,
     wp (read_hw_ram hdr addr data) w (fun r => gives_up w (fst r))) /\
  (forall addr data, wp (write_hw_ram hdr addr data) w (gives_up w)) /\
  (forall addr data, wp (write_hw_extend_ram hdr more addr data) w (gives_up w)) /\
  (forall data, wp (write_hwram_command hdr data) w (gives_up w)) /\
  (forall hwpin multi, wp (read_ad_value hdr hwpin multi) w (gives_up w)) /\
  (forall addr pvalue,
     wp (read_acpi_value hdr more addr pvalue) w (fun r => gives_up w (fst r))) /\
  (forall addr value, wp (write_acpi_value hdr more addr value) w (gives_up w)) /\
  (forall pin pvalue,
     wp (read_gpio_status hdr pin pvalue) w (fun r => gives_up w (fst r))) /\
  (forall pin value, wp (write_gpio_status hdr pin value) w (gives_up w)) /\
  (forall pin pvalue,
     wp (read_gpio_dir hdr pin pvalue) w (fun r => gives_up w (fst r))) /\
  (forall pin value, wp (write_gpio_dir hdr pin value) w (gives_up w)) /\
  (forall addr pdata,
     wp (read_onekey_status hdr more addr pdata) w (fun r => gives_up w (fst r))) /\
  (forall addr, wp (write_onekey_status hdr more addr) w (gives_up w)) /\
  (forall addr pdata,
     wp (ec_oem_get_status hdr more addr pdata) w (fun r => gives_up w (fst r))) /\
  (forall addr pdata, wp (ec_oem_set_status hdr more addr pdata) w (gives_up w)) /\
  wp (wait_smbus_protocol_finish hdr) w (gives_up w) /\
  (forall req,
     wp (smbus_read_byte hdr (Some req)) w
       (fun r w' => gives_up w (fst r) w' /\ snd r = Some req)) /\
  (forall req,
     wp (smbus_read_word hdr (Some req)) w
       (fun r w' => gives_up w (fst r) w' /\ snd r = Some req)) /\
  (forall req, wp (smbus_write_byte hdr (Some req)) w (gives_up w)).
Proof.
  intros Hstuck Hfree.
  assert (Hw : exists c s t, w = mkWorld c false s t).
  { destruct w as [c l s t]. cbn in Hfree. subst l. eauto. }
  destruct Hw as (c & s & t & ->).
  repeat split; intros.
  - unfold read_hw_ram, gives_up; cbv zeta; stuck_run Hstuck.
  - unfold write_hw_ram, gives_up; cbv zeta; stuck_run Hstuck.
  - unfold write_hw_extend_ram, gives_up; cbv zeta; stuck_run Hstuck.
  - unfold write_hwram_command, gives_up; cbv zeta; stuck_run Hstuck.
  - unfold read_ad_value, gives_up; cbv zeta; stuck_run Hstuck.
  - unfold read_acpi_value, gives_up; cbv zeta; stuck_run Hstuck.
  - unfold write_acpi_value, gives_up; cbv zeta; stuck_run Hstuck.
  - unfold read_gpio_status, gives_up; cbv zeta; stuck_run Hstuck.
  - unfold write_gpio_status, gives_up; cbv zeta; stuck_run Hstuck.
  - unfold read_gpio_dir, gives_up; cbv zeta; stuck_run Hstuck.
  - unfold write_gpio_dir, gives_up; cbv zeta; stuck_run Hstuck.
  - unfold read_onekey_status, gives_up; cbv zeta; stuck_run Hstuck.
  - unfold write_onekey_status, gives_up; cbv zeta; stuck_run Hstuck.
  - unfold ec_oem_get_status, gives_up; cbv zeta; stuck_run Hstuck.
  - unfold ec_oem_set_status, gives_up; cbv zeta; stuck_run Hstuck.
  - eapply wp_mono; [apply (stuck_poll hdr Hstuck), Hfree |].
    intros r w' [H _]. exact H.
  - apply (stuck_smbus_read_byte hdr Hstuck), Hfree.
  - apply (stuck_smbus_read_word hdr Hstuck), Hfree.
  - apply (stuck_smbus_write_byte hdr Hstuck), Hfree.
Qed.

Lemma never_ready_times_out_witness :
  never_ready sample_header jammed_ec /\
  lock_held jammed_boot = false /\
  returned (write_hw_ram sample_header 0x10 0x5A jammed_boot) = Some (- ETIMEDOUT).
Proof.
  assert (Hjam : never_ready sample_header jammed_ec).
  { right. intros c. cbn. unfold ibf_full. discriminate. }
  split; [exact Hjam |]. split; [reflexivity |].
  destruct (proj1 (proj2 (never_ready_times_out sample_header sample_header_more
                            jammed_ec jammed_boot Hjam eq_refl)) 0x10 0x5A)
    as (r & w' & Hrun & (-> & _)).
  rewrite Hrun. reflexivity.
Defined.

(** ** SMBus calls in full *)

Section SMBusFull.

Context (hdr : ec_header) {ec : controller}.
Implicit Types w : world ec.

Lemma uchar_uchar v : uchar (uchar v) = uchar v.
Proof. unfold uchar. apply Z.mod_mod. lia. Qed.

Lemma wp_run_write_hw_ram_traffic {A} addr data (label : Z -> M ec A)
  (k : M ec A) w (Q : A -> world ec -> Prop) :
  lock_held w = false ->
  (forall c evs, status_reads evs = [] ->
     data_traffic evs = [EvOut (uchar addr) EC_STATUS_PORT;
                         EvOut (uchar data) EC_STATUS_PORT] ->
     wp k (mkWorld c false (stray_unlocks w) (trace w ++ evs)) Q) ->
  (forall c evs, status_reads evs = [] ->
     wp (label (- ETIMEDOUT))
       (mkWorld c false (stray_unlocks w) (trace w ++ evs)) Q) ->
  wp (or_goto (write_hw_ram hdr addr data) label k) w Q.
Proof.
  intros Hfree Hk Hl. apply wp_or_goto.
  eapply wp_mono; [apply write_hw_ram_ok, Hfree |].
  intros r w' (evs & Htx & Hreads & Hr).
  rewrite (transaction_world _ _ _ Htx).
  destruct Hr as [[-> Hdt] | ->].
  - apply Hk; assumption.
  - apply Hl; assumption.
Qed.

End SMBusFull.

(** One step of an SMBus transaction, keeping the data-port traffic of the
    writes. *)
Ltac smbus_step_traffic :=
  cbn [ctl lock_held stray_unlocks trace];
  lazymatch goal with
  | |- wp (or_goto (write_hw_ram _ _ _) _ _) _ _ =>
      apply wp_run_write_hw_ram_traffic;
      [reflexivity | intros ? ? ? ? | intros ? ? ?]
  | |- _ => smbus_step
  end.

(** The data-port reads and the data-port traffic of a whole transaction,
    from those of its HW RAM accesses. *)
Ltac smbus_status :=
  rewrite ?status_reads_app;
  repeat match goal with
         | H : status_reads ?evs = _ |- _ => rewrite H
         end;
  cbn [app].

Ltac smbus_traffic :=
  rewrite ?data_traffic_app;
  repeat match goal with
         | H : data_traffic ?evs = _ |- _ => rewrite H
         end;
  rewrite ?uchar_uchar.

(** The return code, the request afterwards and the order of the setup
    writes, at the end of a path. *)
Ltac smbus_code := first [left; reflexivity | right; reflexivity].

Ltac smbus_frame :=
  let Hne := fresh "Hne" in
  intros Hne; first [reflexivity | exfalso; apply Hne; reflexivity].

Ltac smbus_setup_first :=
  let Hne := fresh "Hne" in
  unfold setup_first, smbus_setup, prefix; intros Hne;
  first
    [ exfalso; apply Hne; smbus_status; reflexivity
    | smbus_traffic; cbn [app]; eexists; reflexivity ].

Section SMBusFullOk.

Context (hdr : ec_header) {ec : controller}.
Implicit Types w : world ec.

Lemma smbus_read_byte_full_ok req w :
  lock_held w = false ->
  wp (smbus_read_byte hdr (Some req)) w (smbus_read_byte_full hdr req w).
Proof.
  intros Hfree. destruct w as [c l s t]. cbn in Hfree. subst l.
  unfold smbus_read_byte, smbus_read_byte_full. cbv zeta.
  repeat smbus_step_traffic.
  all: cbn [ctl lock_held stray_unlocks trace fst snd]; rewrite <- ?app_assoc.
  all: split; [reflexivity |]; split; [reflexivity |].
  all: eexists; split; [reflexivity |].
  all: split; [smbus_code |]; split; [smbus_frame |].
  all: split; [first [left; reflexivity | right; eexists; reflexivity] |].
  all: split; [smbus_setup_first |].
  all: intros p0 s0 d; smbus_status; intros Heq; try discriminate Heq.
  injection Heq as <- <- <-.
  split; [lia |]. split; [rewrite land_255 by assumption; reflexivity |].
  smbus_traffic. rewrite !app_assoc, <- app_assoc. eexists. reflexivity.
Qed.

Lemma smbus_read_word_full_ok req w :
  lock_held w = false ->
  wp (smbus_read_word hdr (Some req)) w (smbus_read_word_full hdr req w).
Proof.
  intros Hfree. destruct w as [c l s t]. cbn in Hfree. subst l.
  unfold smbus_read_word, smbus_read_word_full. cbv zeta.
  repeat smbus_step_traffic.
  all: cbn [ctl lock_held stray_unlocks trace fst snd]; rewrite <- ?app_assoc.
  all: split; [reflexivity |]; split; [reflexivity |].
  all: eexists; split; [reflexivity |].
  all: split; [smbus_code |]; split; [smbus_frame |].
  all: split; [first [left; reflexivity | right; eexists; reflexivity] |].
  all: smbus_setup_first.
Qed.

Lemma smbus_write_byte_full_ok req w :
  lock_held w = false ->
  wp (smbus_write_byte hdr (Some req)) w (smbus_write_byte_full hdr req w).
Proof.
  intros Hfree. destruct w as [c l s t]. cbn in Hfree. subst l.
  unfold smbus_write_byte, smbus_write_byte_full. cbv zeta.
  repeat smbus_step_traffic.
  all: cbn [ctl lock_held stray_unlocks trace fst snd]; rewrite <- ?app_assoc.
  all: eexists; split; [reflexivity |].
  all: split; [smbus_code |].
  all: split; [smbus_status; cbn; lia |].
  all: smbus_setup_first.
Qed.

End SMBusFullOk.

(** X9.  A byte read that reads the data port three times has read 0x80
    from the status cell; its third read is the cell [EC_SMBUS_DATA],
    fetched right after the status cell, and that byte is what it stores in
    [Data], returning 0. *)
Theorem smbus_read_byte_fetches_data (hdr : ec_header) (ec : controller)
  (w : world ec) (req : EC_SMBUS_READ_BYTE.t) :
  lock_held w = false ->
  wp (smbus_read_byte hdr (Some req)) w
    (fun r w' =>
       exists evs, trace w' = trace w ++ evs /\
         forall p s d, status_reads evs = [p; s; d] ->
           s = 0x80 /\ r = (0, Some (EC_SMBUS_READ_BYTE.set_Data d req)) /\
           exists pre,
             data_traffic evs =
               pre ++ [EvOut (uchar (EC_SMBUS_STATUS hdr)) EC_STATUS_PORT;
                       EvIn EC_STATUS_PORT s;
                       EvOut (uchar (EC_SMBUS_DATA hdr)) EC_STATUS_PORT;
                       EvIn EC_STATUS_PORT d]).
Proof.
  intros Hfree.
  eapply wp_mono; [apply smbus_read_byte_full_ok, Hfree |].
  intros r w' (_ & _ & evs & Htr & _ & _ & _ & _ & Hdata).
  exists evs. split; [exact Htr | exact Hdata].
Qed.

Lemma smbus_read_byte_fetches_data_witness :
  lock_held (scripted_boot (ready_script [0x00; 0x80; 0x7A])) = false /\
  returned (smbus_read_byte sample_header
              (Some (EC_SMBUS_READ_BYTE.mk 2 0x98 0x05 0))
              (scripted_boot (ready_script [0x00; 0x80; 0x7A])))
  = Some (0, Some (EC_SMBUS_READ_BYTE.mk 2 0x98 0x05 0x7A)).
Proof.
  split; [reflexivity |].
  destruct (smbus_read_byte_fetches_data sample_header scripted
              (scripted_boot (ready_script [0x00; 0x80; 0x7A]))
              (EC_SMBUS_READ_BYTE.mk 2 0x98 0x05 0) eq_refl)
    as (r & w' & Hrun & evs & Htr & Hdata).
  rewrite Hrun. cbn [returned]. f_equal.
  assert (Hw : w' = final (smbus_read_byte sample_header
                             (Some (EC_SMBUS_READ_BYTE.mk 2 0x98 0x05 0))
                             (scripted_boot (ready_script [0x00; 0x80; 0x7A]))))
    by (rewrite Hrun; reflexivity).
  rewrite Hw in Htr. vm_compute in Htr. subst evs.
  destruct (Hdata 0x00 0x80 0x7A eq_refl) as (_ & -> & _). reflexivity.
Defined.

(** X10.  An SMBus call that gets an answer on the data port has completed
    its setup first, in this order: channel to the channel cell, slave
    address, register to the command cell, for a write the data byte to the
    data cell, and last the protocol code to the protocol cell. *)
Theorem smbus_setup_order (hdr : ec_header) (ec : controller) (w : world ec) :
  lock_held w = false ->
  (forall req,
     wp (smbus_read_byte hdr (Some req)) w
       (fun _ w' =>
          exists evs, trace w' = trace w ++ evs /\
            setup_first
              (smbus_setup hdr (EC_SMBUS_READ_BYTE.Channel req)
                 (EC_SMBUS_READ_BYTE.Address req)
                 (EC_SMBUS_READ_BYTE.Register req) None (SMBUS_BYTE_READ hdr))
              evs)) /\
  (forall req,
     wp (smbus_read_word hdr (Some req)) w
       (fun _ w' =>
          exists evs, trace w' = trace w ++ evs /\
            setup_first
              (smbus_setup hdr (EC_SMBUS_WORD_DATA.Channel req)
                 (EC_SMBUS_WORD_DATA.Address req)
                 (EC_SMBUS_WORD_DATA.Register req) None (SMBUS_WORD_READ hdr))
              evs)) /\
  (forall req,
     wp (smbus_write_byte hdr (Some req)) w
       (fun _ w' =>
          exists evs, trace w' = trace w ++ evs /\
            setup_first
              (smbus_setup hdr (EC_SMBUS_WRITE_BYTE.Channel req)
                 (EC_SMBUS_WRITE_BYTE.Address req)
                 (EC_SMBUS_WRITE_BYTE.Register req)
                 (Some (EC_SMBUS_WRITE_BYTE.Data req)) (SMBUS_BYTE_WRITE hdr))
              evs)).
Proof.
  intros Hfree. repeat split; intros req.
  - eapply wp_mono; [apply smbus_read_byte_full_ok, Hfree |].
    intros r w' (_ & _ & evs & Htr & _ & _ & _ & Hsetup & _). eauto.
  - eapply wp_mono; [apply smbus_read_word_full_ok, Hfree |].
    intros r w' (_ & _ & evs & Htr & _ & _ & _ & Hsetup). eauto.
  - eapply wp_mono; [apply smbus_write_byte_full_ok, Hfree |].
    intros r w' (evs & Htr & _ & _ & Hsetup). eauto.
Qed.

Lemma smbus_setup_order_witness :
  lock_held (scripted_boot (ready_script [0x00; 0x80])) = false /\
  smbus_setup sample_header 2 0x98 0x05 (Some 0x55) (SMBUS_BYTE_WRITE sample_header)
  `prefix_of`
  data_traffic
    (trace (final (smbus_write_byte sample_header
                     (Some (EC_SMBUS_WRITE_BYTE.mk 2 0x98 0x05 0x55))
                     (scripted_boot (ready_script [0x00; 0x80]))))).
Proof.
  split; [reflexivity |].
  destruct (proj2 (proj2 (smbus_setup_order sample_header scripted
                            (scripted_boot (ready_script [0x00; 0x80])) eq_refl))
              (EC_SMBUS_WRITE_BYTE.mk 2 0x98 0x05 0x55))
    as (r & w' & Hrun & evs & Htr & Hsetup).
  rewrite Hrun. cbn [final].
  assert (Hw : w' = final (smbus_write_byte sample_header
                             (Some (EC_SMBUS_WRITE_BYTE.mk 2 0x98 0x05 0x55))
                             (scripted_boot (ready_script [0x00; 0x80]))))
    by (rewrite Hrun; reflexivity).
  rewrite Htr. cbn [trace scripted_boot boot app].
  apply Hsetup.
  rewrite Hw in Htr. vm_compute in Htr. subst evs. discriminate.
Defined.

(** X11.  What the SMBus calls return and change.  With a request, each
    returns 0 or [-ETIMEDOUT] and nothing else.  The reads change at most
    the [Data] or [Value] field of the request, and nothing at all when
    they do not return 0; they leave the gate free and never release it
    unheld.  The byte write reads the data port at most twice, for the
    protocol and the status cell. *)
Theorem smbus_calls_frame (hdr : ec_header) (ec : controller) (w : world ec) :
  lock_held w = false ->
  (forall req,
     wp (smbus_read_byte hdr (Some req)) w
       (fun r w' =>
          (fst r = 0 \/ fst r = - ETIMEDOUT) /\
          (fst r <> 0 -> snd r = Some req) /\
          (snd r = Some req \/
           exists d, snd r = Some (EC_SMBUS_READ_BYTE.set_Data d req)) /\
          lock_held w' = false /\ stray_unlocks w' = stray_unlocks w)) /\
  (forall req,
     wp (smbus_read_word hdr (Some req)) w
       (fun r w' =>
          (fst r = 0 \/ fst r = - ETIMEDOUT) /\
          (fst r <> 0 -> snd r = Some req) /\
          (snd r = Some req \/
           exists v, snd r = Some (EC_SMBUS_WORD_DATA.set_Value v req)) /\
          lock_held w' = false /\ stray_unlocks w' = stray_unlocks w)) /\
  (forall req,
     wp (smbus_write_byte hdr (Some req)) w
       (fun r w' =>
          (r = 0 \/ r = - ETIMEDOUT) /\
          exists evs, trace w' = trace w ++ evs /\
                      (length (status_reads evs) <= 2)%nat)).
Proof.
  intros Hfree. repeat split; intros req.
  - eapply wp_mono; [apply smbus_read_byte_full_ok, Hfree |].
    intros r w' (Hl & Hs & evs & _ & Hcode & Hfail & Hreq & _). auto.
  - eapply wp_mono; [apply smbus_read_word_full_ok, Hfree |].
    intros r w' (Hl & Hs & evs & _ & Hcode & Hfail & Hreq & _). auto.
  - eapply wp_mono; [apply smbus_write_byte_full_ok, Hfree |].
    intros r w' (evs & Htr & Hcode & Hreads & _). eauto.
Qed.

Lemma smbus_calls_frame_witness :
  lock_held (scripted_boot stuck_script) = false /\
  returned (smbus_read_word sample_header
              (Some (EC_SMBUS_WORD_DATA.mk 2 0x98 0x05 0x1234))
              (scripted_boot stuck_script))
  = Some (- ETIMEDOUT, Some (EC_SMBUS_WORD_DATA.mk 2 0x98 0x05 0x1234)).
Proof.
  split; [reflexivity |].
  destruct (proj1 (proj2 (smbus_calls_frame sample_header scripted
                            (scripted_boot stuck_script) eq_refl))
              (EC_SMBUS_WORD_DATA.mk 2 0x98 0x05 0x1234))
    as (r & w' & Hrun & _ & Hfail & _).
  rewrite Hrun. cbn [returned]. f_equal.
  destruct r as [ret val].
  assert (Hret : ret = - ETIMEDOUT).
  { pose proof (f_equal returned Hrun) as E. vm_compute in E.
    injection E as E _. symmetry. exact E. }
  subst ret. cbn [fst snd] in Hfail. f_equal. apply Hfail. discriminate.
Defined.

(** ** More on the echoing controller *)

Section EchoRamMore.

Context (hdr : ec_header).
Hypothesis budget : 0 < EC_MAX_TIMEOUT_COUNT hdr.
Hypothesis opcodes : uchar (EC_HW_RAM_READ hdr) <> uchar (EC_HW_RAM_WRITE hdr).
Implicit Types w : world (echo_ram hdr).

(** A read returns the addressed cell and leaves the RAM as it was. *)
Lemma echo_read_hw_ram_state addr data w :
  lock_held w = false ->
  exists t',
    read_hw_ram hdr addr data w
    = Returns (0, uchar (ram_cells (ctl w) (uchar addr)))
        (mkWorld (ec := echo_ram hdr)
           (mkRam (ram_cells (ctl w)) RamIdle None)
           false (stray_unlocks w) t').
Proof.
  destruct w as [[cells ph ob] l s t]. cbn. intros ->.
  unfold read_hw_ram, or_goto, bind, mutex_lock, mutex_unlock, outb, Ret.
  cbn [ctl lock_held stray_unlocks trace].
  repeat match goal with
         | |- context [wait_ibf hdr ?w0] =>
             let v := fresh "v" in
             let E := fresh "E" in
             destruct (echo_wait_ibf hdr budget w0) as [v E]; rewrite E; clear E;
             cbn [ctl lock_held stray_unlocks trace Z.eqb]
         end.
  cbn [ctl_outb echo_ram ram_outb ram_cells ram_phase_of ram_obuf].
  rewrite Z.eqb_refl. cbn [ram_phase_of ram_cells ram_obuf].
  match goal with
  | |- context [wait_obf hdr ?w0] =>
      destruct (echo_wait_obf hdr budget w0 _ eq_refl) as [v' E]; rewrite E; clear E
  end.
  cbn. eexists. reflexivity.
Qed.

End EchoRamMore.

(** X12.  On the echoing controller a write changes one cell only: after
    [write_hw_ram A V], [read_hw_ram B] for another address [B] returns what
    the cell [B] held before the write. *)
Theorem hw_ram_write_other_cell (hdr : ec_header) (w : world (echo_ram hdr))
  (A V B data : Z) :
  0 < EC_MAX_TIMEOUT_COUNT hdr ->
  uchar (EC_HW_RAM_READ hdr) <> uchar (EC_HW_RAM_WRITE hdr) ->
  lock_held w = false ->
  uchar B <> uchar A ->
  wp (write_hw_ram hdr A V) w
    (fun r w1 =>
       r = 0 /\
       wp (read_hw_ram hdr B data) w1
         (fun r' w2 =>
            r' = (0, uchar (ram_cells (ctl w) (uchar B))) /\
            lock_held w2 = false)).
Proof.
  intros Hbudget Hop Hfree Hne.
  destruct (echo_write_hw_ram hdr Hbudget Hop A V w Hfree) as [t1 Hwrite].
  eexists _, _. split; [exact Hwrite |]. split; [reflexivity |].
  match goal with
  | |- wp _ ?w1 _ =>
      destruct (echo_read_hw_ram_state hdr Hbudget B data w1 eq_refl) as (t2 & Hread)
  end.
  eexists _, _. split; [exact Hread |]. split; [| reflexivity].
  cbn [ctl ram_cells]. rewrite (proj2 (Z.eqb_neq _ _) Hne). reflexivity.
Qed.

Lemma hw_ram_write_other_cell_witness :
  0 < EC_MAX_TIMEOUT_COUNT sample_header /\
  uchar (EC_HW_RAM_READ sample_header) <> uchar (EC_HW_RAM_WRITE sample_header) /\
  lock_held (echo_boot sample_header (fun x => x + 1)) = false /\
  uchar 0x20 <> uchar 0x10 /\
  wp (write_hw_ram sample_header 0x10 0x5A) (echo_boot sample_header (fun x => x + 1))
    (fun r w1 =>
       r = 0 /\
       wp (read_hw_ram sample_header 0x20 0) w1
         (fun r' w2 => r' = (0, 0x21) /\ lock_held w2 = false)).
Proof.
  split; [reflexivity |]. split; [discriminate |]. split; [reflexivity |].
  split; [discriminate |].
  exact (hw_ram_write_other_cell sample_header
           (echo_boot sample_header (fun x => x + 1)) 0x10 0x5A 0x20 0
           eq_refl ltac:(discriminate) eq_refl ltac:(discriminate)).
Defined.

(** X13.  On the echoing controller the last write wins and reading does
    not disturb the RAM: after [write_hw_ram A V1] and [write_hw_ram A V2],
    two successive [read_hw_ram A] both return [V2]. *)
Theorem hw_ram_last_write_wins (hdr : ec_header) (w : world (echo_ram hdr))
  (A V1 V2 data : Z) :
  0 < EC_MAX_TIMEOUT_COUNT hdr ->
  uchar (EC_HW_RAM_READ hdr) <> uchar (EC_HW_RAM_WRITE hdr) ->
  lock_held w = false ->
  0 <= V2 < 256 ->
  wp (write_hw_ram hdr A V1) w
    (fun r1 w1 =>
       r1 = 0 /\
       wp (write_hw_ram hdr A V2) w1
         (fun r2 w2 =>
            r2 = 0 /\
            wp (read_hw_ram hdr A data) w2
              (fun r3 w3 =>
                 r3 = (0, V2) /\
                 wp (read_hw_ram hdr A data) w3
                   (fun r4 w4 => r4 = (0, V2) /\ lock_held w4 = false)))).
Proof.
  intros Hbudget Hop Hfree HV.
  destruct (echo_write_hw_ram hdr Hbudget Hop A V1 w Hfree) as [t1 Hw1].
  eexists _, _. split; [exact Hw1 |]. split; [reflexivity |].
  match goal with
  | |- wp _ ?w1 _ =>
      destruct (echo_write_hw_ram hdr Hbudget Hop A V2 w1 eq_refl) as [t2 Hw2]
  end.
  eexists _, _. split; [exact Hw2 |]. split; [reflexivity |].
  match goal with
  | |- wp _ ?w2 _ =>
      destruct (echo_read_hw_ram_state hdr Hbudget A data w2 eq_refl) as (t3 & Hr3)
  end.
  eexists _, _. split; [exact Hr3 |].
  cbn [ctl ram_cells]. rewrite Z.eqb_refl, !(uchar_small V2 HV).
  split; [reflexivity |].
  match goal with
  | |- wp _ ?w3 _ =>
      destruct (echo_read_hw_ram_state hdr Hbudget A data w3 eq_refl) as (t4 & Hr4)
  end.
  eexists _, _. split; [exact Hr4 |].
  cbn [ctl ram_cells]. rewrite Z.eqb_refl, !(uchar_small V2 HV).
  split; reflexivity.
Qed.

Lemma hw_ram_last_write_wins_witness :
  0 < EC_MAX_TIMEOUT_COUNT sample_header /\
  uchar (EC_HW_RAM_READ sample_header) <> uchar (EC_HW_RAM_WRITE sample_header) /\
  lock_held (echo_boot sample_header (fun _ => 0)) = false /\
  0 <= 0x22 < 256 /\
  wp (write_hw_ram sample_header 0x10 0x11) (echo_boot sample_header (fun _ => 0))
    (fun r1 w1 =>
       r1 = 0 /\
       wp (write_hw_ram sample_header 0x10 0x22) w1
         (fun r2 w2 =>
            r2 = 0 /\
            wp (read_hw_ram sample_header 0x10 0) w2
              (fun r3 w3 =>
                 r3 = (0, 0x22) /\
                 wp (read_hw_ram sample_header 0x10 0) w3
                   (fun r4 w4 => r4 = (0, 0x22) /\ lock_held w4 = false)))).
Proof.
  split; [reflexivity |]. split; [discriminate |]. split; [reflexivity |].
  split; [lia |].
  exact (hw_ram_last_write_wins sample_header
           (echo_boot sample_header (fun _ => 0)) 0x10 0x11 0x22 0
           eq_refl ltac:(discriminate) eq_refl ltac:(lia)).
Defined.

(** ** Sub-device properties *)

Section SubDev.

Implicit Types sub_dev : list Z.

(** A listed identifier counts when it names a sub-device. *)
Lemma sub_dev_case_bits v mask k :
  0 <= k ->
  Z.testbit (sub_dev_case v mask) k
  = Z.testbit mask k || ((k <? ADVEC_SUBDEV_MAX) && (k =? v)).
Proof.
  intros Hk. unfold sub_dev_case, ADVEC_SUBDEV_BRIGHTNESS, ADVEC_SUBDEV_EEPROM,
    ADVEC_SUBDEV_GPIO, ADVEC_SUBDEV_HWMON, ADVEC_SUBDEV_LED, ADVEC_SUBDEV_WDT,
    ADVEC_SUBDEV_MAX, BIT.
  destruct ((v =? 0) || (v =? 1) || (v =? 2) || (v =? 3) || (v =? 4) || (v =? 5))
    eqn:E.
  - assert (Hv : 0 <= v < 6) by lia.
    rewrite Z.lor_spec, Z.shiftl_1_l, Z.pow2_bits_eqb by lia.
    f_equal. rewrite (Z.eqb_sym v k).
    destruct (Z.eqb_spec k v) as [-> | Hne]; [| symmetry; apply andb_false_r].
    rewrite andb_true_r. symmetry. apply Z.ltb_lt. lia.
  - assert (Hv : v < 0 \/ 6 <= v) by lia.
    destruct (Z.eqb_spec k v) as [-> | Hne].
    + replace (v <? 6) with false by (symmetry; apply Z.ltb_ge; lia).
      rewrite orb_false_r. reflexivity.
    + rewrite andb_false_r, orb_false_r. reflexivity.
Qed.

Lemma sub_dev_case_range v mask :
  0 <= mask < 64 -> 0 <= sub_dev_case v mask < 64.
Proof.
  intros Hm. unfold sub_dev_case, ADVEC_SUBDEV_BRIGHTNESS, ADVEC_SUBDEV_EEPROM,
    ADVEC_SUBDEV_GPIO, ADVEC_SUBDEV_HWMON, ADVEC_SUBDEV_LED, ADVEC_SUBDEV_WDT, BIT.
  destruct ((v =? 0) || (v =? 1) || (v =? 2) || (v =? 3) || (v =? 4) || (v =? 5))
    eqn:E; [| exact Hm].
  assert (Hv : 0 <= v < 6) by lia.
  rewrite Z.shiftl_1_l.
  assert (Hp : 0 < 2 ^ v < 64).
  { split; [apply Z.pow_pos_nonneg; lia |].
    change 64 with (2 ^ 6). apply Z.pow_lt_mono_r; lia. }
  split; [apply Z.lor_nonneg; lia |].
  assert (Hpos : 0 < Z.lor mask (2 ^ v)).
  { assert (Hnn : 0 <= Z.lor mask (2 ^ v)) by (apply Z.lor_nonneg; lia).
    assert (Hbit : Z.testbit (Z.lor mask (2 ^ v)) v = true).
    { rewrite Z.lor_spec, Z.pow2_bits_eqb, Z.eqb_refl by lia. apply orb_true_r. }
    destruct (Z.eq_dec (Z.lor mask (2 ^ v)) 0) as [E0 | E0]; [| lia].
    rewrite E0, Z.bits_0 in Hbit. discriminate. }
  change 64 with (2 ^ 6). apply Z.log2_lt_pow2; [exact Hpos |].
  rewrite Z.log2_lor by lia.
  apply Z.max_lub_lt.
  - destruct (Z.eq_dec mask 0) as [-> | Hm0]; [cbn; lia |].
    apply Z.log2_lt_pow2; [lia |]. change (2 ^ 6) with 64. lia.
  - rewrite Z.log2_pow2 by lia. lia.
Qed.

Lemma sub_dev_loop_all sub_dev : forall pre mask,
  sub_dev_loop (length sub_dev) (length pre) (pre ++ sub_dev) mask
  = Some (fold_left (fun m v => sub_dev_case v m) sub_dev mask).
Proof.
  induction sub_dev as [| v rest IH]; intros pre mask; [reflexivity |].
  cbn [length sub_dev_loop fold_left].
  rewrite list_lookup_middle by reflexivity.
  replace (S (length pre)) with (length (pre ++ [v]))
    by (rewrite length_app; cbn; lia).
  replace (pre ++ v :: rest) with ((pre ++ [v]) ++ rest)
    by (rewrite <- app_assoc; reflexivity).
  apply IH.
Qed.

Lemma sub_dev_fold_bits sub_dev : forall mask k,
  0 <= k ->
  Z.testbit (fold_left (fun m v => sub_dev_case v m) sub_dev mask) k
  = Z.testbit mask k || ((k <? ADVEC_SUBDEV_MAX) && existsb (Z.eqb k) sub_dev).
Proof.
  induction sub_dev as [| v rest IH]; intros mask k Hk; cbn [fold_left existsb].
  - rewrite andb_false_r, orb_false_r. reflexivity.
  - rewrite IH, sub_dev_case_bits by exact Hk.
    destruct (Z.testbit mask k), (k <? ADVEC_SUBDEV_MAX), (k =? v),
      (existsb (Z.eqb k) rest); reflexivity.
Qed.

Lemma sub_dev_fold_range sub_dev : forall mask,
  0 <= mask < 64 ->
  0 <= fold_left (fun m v => sub_dev_case v m) sub_dev mask < 64.
Proof.
  induction sub_dev as [| v rest IH]; intros mask Hm; [exact Hm |].
  cbn [fold_left]. apply IH, sub_dev_case_range, Hm.
Qed.

End SubDev.

(** X14.  [adv_ec_parse_prop] with both properties read and at most
    [ADVEC_SUBDEV_MAX] identifiers listed returns 0, stores the count, and
    adds to the mask exactly the bits of the listed identifiers that name a
    sub-device (0 to 5): an identifier out of that range is skipped and is
    no error, and no other bit changes.  A mask below 64 stays below 64. *)
Theorem adv_ec_parse_prop_mask (read_sub_dev : Z -> Z * list Z)
  (pdata : sub_dev_data) (ret1 nb ret2 : Z) (sub_dev : list Z) :
  0 <= ret1 ->
  read_sub_dev nb = (ret2, sub_dev) ->
  0 <= ret2 ->
  0 <= nb <= ADVEC_SUBDEV_MAX ->
  length sub_dev = Z.to_nat nb ->
  exists mask,
    adv_ec_parse_prop (ret1, nb) read_sub_dev pdata = Some (0, mkSubDev nb mask) /\
    (forall k, 0 <= k ->
       Z.testbit mask k
       = Z.testbit (sub_dev_mask pdata) k
         || ((k <? ADVEC_SUBDEV_MAX) && existsb (Z.eqb k) sub_dev)) /\
    (0 <= sub_dev_mask pdata < 64 -> 0 <= mask < 64).
Proof.
  intros Hret1 Hread Hret2 Hnb Hlen.
  exists (fold_left (fun m v => sub_dev_case v m) sub_dev (sub_dev_mask pdata)).
  split; [| split].
  - unfold adv_ec_parse_prop. rewrite Hread.
    rewrite (proj2 (Z.ltb_ge ret1 0)) by exact Hret1.
    rewrite (proj2 (Z.ltb_ge ret2 0)) by exact Hret2.
    rewrite (proj2 (Z.ltb_ge _ _)) by (rewrite Hlen; lia).
    cbn [sub_dev_mask]. rewrite <- Hlen.
    pose proof (sub_dev_loop_all sub_dev [] (sub_dev_mask pdata)) as Hloop.
    cbn [length app] in Hloop. rewrite Hloop. reflexivity.
  - intros k Hk. apply sub_dev_fold_bits, Hk.
  - apply sub_dev_fold_range.
Qed.

Lemma adv_ec_parse_prop_mask_witness :
  0 <= 0 /\
  (fun _ : Z => (0, [2; 9; 5])) 3 = (0, [2; 9; 5]) /\
  0 <= 3 <= ADVEC_SUBDEV_MAX /\
  length [2; 9; 5] = Z.to_nat 3 /\
  adv_ec_parse_prop (0, 3) (fun _ => (0, [2; 9; 5])) (mkSubDev 0 0)
  = Some (0, mkSubDev 3 0x24).
Proof.
  split; [lia |]. split; [reflexivity |]. split; [unfold ADVEC_SUBDEV_MAX; lia |].
  split; [reflexivity |].
  destruct (adv_ec_parse_prop_mask (fun _ => (0, [2; 9; 5])) (mkSubDev 0 0)
              0 3 0 [2; 9; 5] ltac:(lia) eq_refl ltac:(lia)
              ltac:(unfold ADVEC_SUBDEV_MAX; lia) eq_refl)
    as (mask & Hrun & _).
  rewrite Hrun. f_equal. f_equal. f_equal.
  vm_compute in Hrun. injection Hrun as <-. reflexivity.
Defined.

(** ** The table after any enumeration *)

Section ScanResult.

Context (hdr : ec_header) {ec : controller}.
Implicit Types w : world ec.
Implicit Types dym_tbl : list Dynamic_Tab.

Lemma dym_tbl_scan_result n : forall i dym_tbl w,
  lock_held w = true ->
  wp (dym_tbl_scan hdr n i dym_tbl) w
    (scan_result n (fun items => store_items i items dym_tbl) w).
Proof.
  induction n as [| n IH]; intros i tbl w Hheld;
    destruct w as [c l s t]; cbn in Hheld; subst l;
    cbn [dym_tbl_scan]; cbv zeta; unfold scan_result.
  - repeat ec_step. eexists. split; [reflexivity |].
    exists [], []. cbn [fst snd].
    split; [reflexivity |]. split; [cbn; lia |]. split; [cbn; lia |].
    split; [reflexivity |]. split; [left; reflexivity |].
    split; [intros _; split; reflexivity | discriminate].
  - repeat ec_step.
    all: lazymatch goal with
         | |- wp _ _ _ => idtac
         | |- _ =>
             cbn [ctl lock_held stray_unlocks trace]; rewrite <- ?app_assoc;
             eexists; split; [reflexivity |];
             exists []; eexists; ec_read;
             split; [cbn [item_reads flat_map app]; reflexivity |];
             split; [cbn [length]; lia |]; split; [cbn [length]; lia |];
             split; [reflexivity |]; cbn [fst snd];
             split; [auto |]; split; [discriminate |];
             try (let Hc := fresh in intros Hc; discriminate Hc)
         end.
    + (* the echo is 0xFF *)
      intros _. split; [cbn; lia |]. left.
      apply Z.eqb_eq in Heqb. subst. reflexivity.
    + (* the pin number is 0xFF *)
      intros _. split; [cbn; lia |]. right.
      apply Z.eqb_eq in Heqb0. rewrite land_255 in Heqb0 by assumption.
      subst. eauto.
    + (* the item is complete: the scan goes on *)
      eapply wp_mono; [apply IH; reflexivity |].
      intros [r tbl'] w' (evs' & Htr & items & partial & Hreads & Hp & Hlen
                           & Htbl & Hcode & Hok & Hinval).
      cbn [ctl lock_held stray_unlocks trace fst snd] in *.
      rewrite Htr. rewrite <- ?app_assoc.
      eexists. split; [reflexivity |].
      exists ((v, v0, v1) :: items), partial. ec_read.
      split; [rewrite Hreads; reflexivity |].
      split; [exact Hp |]. split; [cbn [length]; lia |].
      split.
      { rewrite Htbl. cbn [store_items item_entry fst snd].
        rewrite alter_fields_insert, !land_255 by assumption. reflexivity. }
      split; [exact Hcode |]. split.
      * intros Hr. destruct (Hok Hr) as [-> Hn]. split; [reflexivity |].
        cbn [length]. lia.
      * intros Hr. destruct (Hinval Hr) as [Hn Hpart].
        split; [cbn [length]; lia | exact Hpart].
Qed.

End ScanResult.

(** X15.  However the enumeration ends, it returns 0, [-EINVAL] or
    [-ETIMEDOUT]; the table it leaves holds the items that were read in
    full, in order, then (0xFF, 0xFF) up to [EC_MAX_TBL_NUM] entries, and
    the data-port reads are the three answers of each of these items then
    fewer than three more.  On 0 every item was read and nothing more; on
    [-EINVAL] fewer than [EC_MAX_TBL_NUM] items were read and the last
    answer, an echo or a pin number, is 0xFF. *)
Theorem adv_get_dynamic_tab_result (hdr : ec_header) (ec : controller)
  (w : world ec) (dym_tbl : list Dynamic_Tab) :
  lock_held w = false ->
  length dym_tbl = Z.to_nat (EC_MAX_TBL_NUM hdr) ->
  wp (adv_get_dynamic_tab hdr dym_tbl) w
    (scan_result (Z.to_nat (EC_MAX_TBL_NUM hdr))
       (table_of_items (Z.to_nat (EC_MAX_TBL_NUM hdr))) w).
Proof.
  intros Hfree Hlen. unfold adv_get_dynamic_tab.
  apply wp_bind, wp_mutex_lock; [exact Hfree |].
  eapply wp_mono; [apply dym_tbl_scan_result; reflexivity |].
  intros r w' (evs & Htr & items & partial & Hreads & Hp & Hn & Htbl & Hrest).
  cbn [ctl lock_held stray_unlocks trace] in Htr.
  exists (EvLock :: evs). split; [rewrite Htr, <- app_assoc; reflexivity |].
  exists items, partial. split; [exact Hreads |].
  split; [exact Hp |]. split; [exact Hn |]. split; [| exact Hrest].
  rewrite Htbl, dym_tbl_clear_all by exact Hlen.
  apply store_items_replicate. exact Hn.
Qed.

Lemma adv_get_dynamic_tab_result_witness :
  lock_held (scripted_boot (ready_script [0; 10; 20; 1; 0xFF])) = false /\
  length (replicate 32 (mkDynamic_Tab 0 0)) = Z.to_nat (EC_MAX_TBL_NUM sample_header) /\
  snd <$> returned (adv_get_dynamic_tab sample_header (replicate 32 (mkDynamic_Tab 0 0))
                      (scripted_boot (ready_script [0; 10; 20; 1; 0xFF])))
  = Some (mkDynamic_Tab 20 10 :: replicate 31 undefined_entry).
Proof.
  split; [reflexivity |]. split; [reflexivity |].
  destruct (adv_get_dynamic_tab_result sample_header scripted
              (scripted_boot (ready_script [0; 10; 20; 1; 0xFF]))
              (replicate 32 (mkDynamic_Tab 0 0)) eq_refl eq_refl)
    as (r & w' & Hrun & evs & Htr & items & partial & Hreads & Hp & _ & Htbl & _).
  rewrite Hrun. cbn [returned fmap option_fmap option_map]. f_equal.
  assert (Hw : w' =
               final (adv_get_dynamic_tab sample_header
                        (replicate 32 (mkDynamic_Tab 0 0))
                        (scripted_boot (ready_script [0; 10; 20; 1; 0xFF]))))
    by (rewrite Hrun; reflexivity).
  rewrite Hw in Htr. vm_compute in Htr. subst evs.
  rewrite Htbl. cbn [status_reads] in Hreads.
  destruct items as [| [[e1 p1] d1] [| [[e2 p2] d2] items]].
  - cbn in Hreads. subst partial. cbn in Hp. lia.
  - cbn in Hreads. injection Hreads as <- <- <- _. reflexivity.
  - cbn in Hreads. discriminate Hreads.
Defined.
